(* ===== verification/_CoqProject ===== *)
-Q . S2P
Prelude.v
JsString.v
JsRegExp.v
RegExpShapes.v
JsValue.v
State.v
Exceptions.v
Handler.v
Section.v
Grammar.v
Coordinates.v
TokenShapes.v
Root.v
Flags.v
Engine.v
Document.v
DocumentErrors.v
Spelling.v
Demo.v
