(* ===== verification/Prelude.v ===== *)
(** * A verification development of steinlib-ts

    steinlib-ts (src/src/steinlib/) is a line-oriented parser for the
    STEINLIB file format.  Its parts, and how they interact:

    - [SteinlibParser] (parser.ts, lines 109-176) is the document engine.
      [parse] walks the input lines; each line is trimmed
      ([_cleanupLine]), blank and ["#"] lines are skipped ([_isComment]),
      and the line is dispatched on the engine state [ParsingState]
      (wait_for_header, wait_for_section, inside_section, end).  Errors
      are JavaScript exceptions; a try/catch around section opening
      re-tries the line as ["EOF"].
    - [RootParser] and its three subclasses (parser.ts, lines 41-107)
      recognise the header line, ["SECTION <name>"] and ["EOF"] with
      case-insensitive regular expressions ([addRegexFlags], lines 17-32)
      and call the handler's [header], [section], [<name lowercased>] and
      [eof] slots.  [RootSectionParser] holds the section registry, a
      plain JavaScript object looked up by the captured name.
    - [SectionParser] and its seven subclasses (section.ts) each hold a
      token table (name -> regex source, optional next state).
      [getParsedTokens] tries every rule and keeps the last match;
      [parseToken] coerces the captures with
      [convertIntDigitsWhenPossible] and calls
      [<callbackToken>__<name>] on the handler.
    - The exception classes of exceptions.ts.
    - The handler ("steinerInstance") is a caller-supplied object whose
      slots are looked up by name at dispatch time; a missing slot is
      skipped.

    ** Files of this development, in dependency order

    - [Prelude] (this file): the exception-state monad [st] in which the
      engine, the root parsers and the handler callbacks run (a handler
      object is the state, an exception the error), its notation in
      [steinlib_scope], its laws, shared string lemmas, the [steinlib]
      hint database and tactics.
    - [JsString]: the JavaScript string built-ins the code calls, over
      strings of code units 0..255 ([trim], [startsWith],
      [toLowerCase], [split(/\s+/)], [repeat]).
    - [JsRegExp]: the regular expressions: an AST, the RegExp
      constructor for the pattern subset the code writes, the
      backtracking matcher of [String.prototype.match] (greedy, leftmost,
      case-insensitive), a declarative match relation and the
      refinement theorems between them.
    - [RegExpShapes]: the keyword at the head of an anchored pattern
      ([^kw\s+...], [^kw(?:\s+)...], [^kw$]) and the facts that a
      matched line starts with it and that two keywords of word
      characters cannot both start one line.
    - [JsValue]: captured values ([VStr]/[VNum]/[VNaN]), [parseInt]
      with radix 10, [/\d+/.test] and [convertIntDigitsWhenPossible].
    - [Exceptions], [State]: exceptions.ts and the [ParsingState] enum.
    - [Handler]: the handler interface (a [Class]) with its slot lookup,
      the two call forms the code uses ([if (cb) cb(..)] and
      [cb?.(..)]), and the test handlers of the witnesses: a recording
      handler, one whose listed slots throw, and one whose listed slots
      are falsy.
    - [Section]: the seven token tables of section.ts (as written, in
      order), [getRegexForToken] with the Coordinates pattern built from
      the line ([getDdRegex]), the loop of [getParsedTokens] and
      [parseToken].
    - [Grammar]: every table is unambiguous, and the behaviour of
      [parseToken] on a line some rule matches and on a line no rule
      matches.
    - [Coordinates]: the [dd] rule on lines [DD] followed by any number
      of integer fields.
    - [TokenShapes]: the capture shapes of the tables: every integer
      rule with the arity of the specification's grammar table and the
      quoted fields of the Comment section.
    - [Root]: the root parsers ([RootParser.matches]), the section
      registry with the members of [Object.prototype] its lookup also
      finds, and [getSectionParser].
    - [Flags]: [addRegexFlags] (parser.ts 17-32) and the RegExp
      constructor's flags.
    - [Engine]: [SteinlibParser.parse] as a fold over the lines
      ([parse_lines], one [step_line] per non-skipped line, the
      try/catch as [try_section] and [catch_section]), the document
      state machine as an inductive [transition] relation with the
      [reachable] engines, and the error behaviours.
    - [Document]: well-formed documents ([document], [render], [trace])
      and the refinement theorem of the specification's contract for
      them, for every handler whose callbacks return normally on the
      names a document calls; the contract is a Section whose
      [Variable]s are the section kinds the handler serves ([ks]) and an
      invariant [P] of the handler that its callbacks keep.
    - [DocumentErrors]: the same abstract documents broken in the ways
      the code handles: a malformed line inside a section, input ending
      inside a section or before [EOF], and a handler with a falsy
      section slot; and the fact that no section line is a root token.
    - [Spelling]: the header magic, [SECTION], [END] and [EOF] in any
      case and the white-space runs after the magic and after [SECTION]
      ([spelling]); the contract of Document.v in every spelling.
    - [Demo]: examples/demo.ts: its [callbacks] object (with the members
      it inherits from [Object.prototype]) and [main], which splits the
      file content on line feeds and parses it.

    ** The theorems

    - Refinement: for every well-formed document [parse] returns
      normally and makes exactly the promised calls in order (Document),
      whatever the case of the root keywords and [END] and the white
      space after the magic and [SECTION] (Spelling); the demo prints
      the messages of those calls (Demo).
    - Invariants: every successful step follows an edge of the state
      machine; in every reachable engine [inside_section] comes with a
      section parser (Engine).  [parse] returns normally only if an
      [EOF] line was seen.
    - Equivalences: blank and comment lines are transparent wherever
      they are inserted (Engine); the demo reads
      a file with CRLF line endings as the same file with line feeds,
      since [trim] removes the CR [split] leaves (Demo).
    - Grammar: no line matches two rules of a table (with the
      Coordinates pattern built from that line); [parseToken] on the
      matching rule, on no rule, and on [END]; the Coordinates arity,
      the arity of every integer rule and the whole-text capture of the
      Comment fields (TokenShapes).
    - Flags: [addRegexFlags] keeps the pattern and sets exactly the
      union of the flags.
    - Errors: malformed header, text between sections, unknown section,
      content after [EOF] each raise the exception the code raises; a
      member of [Object.prototype] as a section name and an error thrown
      by a section callback are swallowed by the catch, and so is the
      TypeError of a falsy lower-cased section slot ([callback?.()]), which
      leaves that section unopened.  On whole documents
      (DocumentErrors): a line its section cannot parse stops [parse]
      with the handler left as the calls before it leave it; input that
      ends inside a section or before [EOF] fails the final check
      ("Illegal state.") after every call of the lines read; a falsy
      lower-cased slot makes the line after its section's opening raise
      "Unexpected line".  No token line or [END] of any section matches
      the [SECTION] or [EOF] pattern.
    - Liveness: from every engine satisfying the invariant some
      continuation of the input reaches the end state (Document).
    - Values: digit captures become their integer, digit-free captures
      stay strings, mixed captures become the integer of their leading
      digits or NaN.

    The supporting lemmas of the library are not claims of their own:
    the backtracking matcher is sound and complete for the declarative
    match relation (JsRegExp), the loop of [getParsedTokens] computes
    the last matching rule of the table (Section), and [split] on one
    character undoes [join] (JsString).  Every theorem with hypotheses
    has a witness that evaluates it on a concrete input with a test
    handler.

    ** Bounds and fuel

    No definition uses fuel: the pattern parser, the matcher ([m] by
    structural recursion on the pattern, [star_cls] on the input),
    [search] and the line loop are structurally recursive, so every
    model is total and the theorems about results are unconditional.
    Strings are lists of code units 0..255 (Latin-1), which covers every
    character the patterns name; numbers are mathematical integers
    ([Z]) for the values of digit strings: [VNum z] reads as the Number
    nearest to [z], which is [z] itself up to 2^53, i.e. for captures of
    at most 15 digits; longer captures are rounded by JavaScript and
    not by the model (a finding of PROJECT.json).

    See the end of this file for what is not modelled. *)

From Stdlib Require Export String Ascii List Lia Arith NArith.
From stdpp Require Export base decidable numbers.
Export ListNotations.

(** Decidable equality of the Standard Library's strings and characters
    (stdpp's [strings] is not loaded: it makes [String.append] opaque to
    [simpl], which the string proofs here rely on). *)
#[export] Instance ascii_eq_dec : EqDecision ascii := Ascii.ascii_dec.
#[export] Instance string_eq_dec : EqDecision string := String.string_dec.

(** * The exception-state monad *)

(** The outcome of a computation that may throw. *)
Inductive outcome (E A : Type) : Type :=
| Ok (a : A)
| Throw (e : E).
Arguments Ok {E A} a.
Arguments Throw {E A} e.

(** A computation threading a state [S] (the handler object) that may
    throw an [E]; the state reached before a throw is kept, since
    JavaScript does not roll back side effects. *)
Definition st (S E A : Type) : Type := S -> outcome E A * S.

Definition st_ret {S E A} (a : A) : st S E A := fun s => (Ok a, s).
Definition st_throw {S E A} (e : E) : st S E A := fun s => (Throw e, s).
Definition st_bind {S E A B} (m : st S E A) (f : A -> st S E B) : st S E B :=
  fun s => match m s with
           | (Ok a, s') => f a s'
           | (Throw e, s') => (Throw e, s')
           end.
(** [try { m } catch (e) { h(e) }] *)
Definition st_catch {S E A} (m : st S E A) (h : E -> st S E A) : st S E A :=
  fun s => match m s with
           | (Throw e, s') => h e s'
           | r => r
           end.

Declare Scope steinlib_scope.
Delimit Scope steinlib_scope with sl.
Notation "x <- m ;; k" := (st_bind m (fun x => k))
  (at level 100, m at next level, k at level 200) : steinlib_scope.
Notation "m ;; k" := (st_bind m (fun _ => k))
  (at level 100, k at level 200) : steinlib_scope.
Notation "'try' m 'catch' h" := (st_catch m h)
  (at level 96, m at next level, h at next level) : steinlib_scope.

Create HintDb steinlib.
Create Rewrite HintDb steinlib.

Section MonadLaws.
Context {S E : Type}.

Lemma st_bind_ret_l {A B} (a : A) (f : A -> st S E B) s :
    st_bind (st_ret a) f s = f a s.
  Proof. reflexivity. Qed.

Lemma st_bind_throw {A B} (e : E) (f : A -> st S E B) s :
    st_bind (st_throw e) f s = (Throw e, s).
  Proof. reflexivity. Qed.

Lemma st_bind_ret_r {A} (m : st S E A) s : st_bind m st_ret s = m s.
  Proof. unfold st_bind, st_ret. destruct (m s) as [[a|e] s']; reflexivity. Qed.

Lemma st_bind_assoc {A B C} (m : st S E A) (f : A -> st S E B)
        (g : B -> st S E C) s :
    st_bind (st_bind m f) g s = st_bind m (fun a => st_bind (f a) g) s.
  Proof. unfold st_bind. destruct (m s) as [[a|e] s']; reflexivity. Qed.

Lemma st_catch_ret {A} (a : A) (h : E -> st S E A) s :
    st_catch (st_ret a) h s = (Ok a, s).
  Proof. reflexivity. Qed.

Lemma st_catch_throw {A} (e : E) (h : E -> st S E A) s :
    st_catch (st_throw e) h s = h e s.
  Proof. reflexivity. Qed.
End MonadLaws.

#[export] Hint Rewrite @st_bind_ret_l @st_bind_throw @st_bind_ret_r
  @st_bind_assoc @st_catch_ret @st_catch_throw : steinlib.

(** Unfold the monad's combinators and compute. *)
Ltac st_unfold := unfold st_bind, st_ret, st_throw, st_catch in *.

(** Case on the result of a monadic computation applied to a state. *)
Ltac st_case m s :=
  let o := fresh "o" in let s' := fresh "s'" in let E := fresh "Hm" in
  destruct (m s) as [o s'] eqn:E; destruct o.

(** * Shared string lemmas *)

Local Open Scope string_scope.

Lemma string_app_length (s1 s2 : string) :
  String.length (s1 ++ s2) = String.length s1 + String.length s2.
Proof. induction s1 as [|c s1 IH]; simpl; [reflexivity | now rewrite IH]. Qed.

Lemma string_app_assoc (s1 s2 s3 : string) :
  s1 ++ (s2 ++ s3) = (s1 ++ s2) ++ s3.
Proof. induction s1 as [|c s1 IH]; simpl; [reflexivity | now rewrite IH]. Qed.

Lemma string_app_nil_r (s : string) : s ++ "" = s.
Proof. induction s as [|c s IH]; simpl; [reflexivity | now rewrite IH]. Qed.

Lemma string_app_inv_l (s s1 s2 : string) : s ++ s1 = s ++ s2 -> s1 = s2.
Proof. induction s as [|c s IH]; simpl; [auto | intros H; injection H; auto]. Qed.

#[export] Hint Rewrite string_app_length string_app_nil_r : steinlib.
#[export] Hint Resolve string_app_inv_l : steinlib.

(** The [String.prototype.join] of a list of strings. *)
Fixpoint str_join (sep : string) (l : list string) : string :=
  match l with
  | [] => ""
  | [x] => x
  | x :: xs => x ++ sep ++ str_join sep xs
  end.

(** A one-character string. *)
Definition str1 (c : ascii) : string := String c EmptyString.

(** The double-quote character; Rocq string literals cannot hold it
    without doubling. *)
Definition dq : string := str1 "034"%char.

(** ** Lists *)

(** A list whose elements have distinct keys holds at most one element
    of a predicate that no two of its elements share. *)
Lemma filter_at_most_one {A B} (f : A -> bool) (key : A -> B) (l : list A) :
  List.NoDup (map key l) ->
  (forall x y, In x l -> In y l -> f x = true -> f y = true -> x = y) ->
  length (List.filter f l) <= 1.
Proof.
  induction l as [|a l IH]; intros Hnd Huniq; simpl; [lia|].
  inversion Hnd as [|? ? Hnotin Hnd']; subst.
  assert (IH' : length (List.filter f l) <= 1) by (apply IH; auto with datatypes).
  destruct (f a) eqn:Fa; [|exact IH'].
  destruct (List.filter f l) as [|y ys] eqn:E; simpl; [lia|]. exfalso.
  assert (Hy : In y (List.filter f l)) by (rewrite E; left; reflexivity).
  apply List.filter_In in Hy as [Hy Fy].
  rewrite (Huniq y a (or_intror Hy) (or_introl eq_refl) Fy Fa) in Hy.
  exact (Hnotin (in_map key l a Hy)).
Qed.

(** * End of the header notes

    Termination needs no theorem of its own: every recursion of the
    model is structural (checked by the kernel's guard), as the code's
    loops are: [for ... of] over the lines and over [Object.entries], and
    the regular expressions' backtracking over a finite input.

    The base class [SectionParser] (section.ts 9-18 and its empty
    [getKnownTokens], 70-72) is modelled through its subclasses only:
    the registry holds no entry for it, so the engine never
    instantiates it, and every subclass overrides [getKnownTokens] and
    [callbackToken].  The import and export lines and the type alias
    [SectionParserDefinition] have no run-time behaviour.

    Not modelled: the handler's own behaviour (it is a parameter: any
    object with any callbacks; the demo's handler is modelled), the
    reading of the demo's file (fs.readFileSync and the path helpers:
    I/O, the content is the model's input), the build configuration
    (vite.config.ts: bundler options with no run-time behaviour of the
    parser) and code units above 255 (the models take strings of
    [ascii], read as UTF-16 code units 0..255, i.e. Latin-1). *)
