(* ===== verification/JsString.v ===== *)
(** * JavaScript string built-ins used by steinlib-ts

    The code calls [String.prototype.trim] ([_cleanupLine], parser.ts
    169-171), [startsWith] ([_isComment], 173-175), [toLowerCase]
    ([getSectionParser], 96), [split(/\s+/)] and [repeat] ([getDdRegex],
    section.ts 106-109).  Strings are sequences of UTF-16 code units;
    the model takes the code units 0..255 ([ascii] read as Latin-1), so
    the white-space set is TAB, LF, VT, FF, CR, SPACE and NBSP (U+00A0),
    which is ECMA-262's WhiteSpace and LineTerminator restricted to that
    range. *)

From S2P Require Import Prelude.
Local Open Scope string_scope.
Local Open Scope nat_scope.

Module JsString.

(** ** Character classes (ECMA-262, restricted to code units 0..255) *)

Definition code (c : ascii) : nat := nat_of_ascii c.

(** WhiteSpace or LineTerminator: what [trim] removes and [\s] matches. *)
Definition is_ws (c : ascii) : bool :=
  let n := code c in
  ((Nat.leb 9 n) && (Nat.leb n 13)) || (Nat.eqb n 32) || (Nat.eqb n 160).

(** [\d] *)
Definition is_digit (c : ascii) : bool :=
  let n := code c in (Nat.leb 48 n) && (Nat.leb n 57).

(** [\w]: [A-Za-z0-9_] *)
Definition is_word (c : ascii) : bool :=
  let n := code c in
  is_digit c || ((Nat.leb 65 n) && (Nat.leb n 90)) || ((Nat.leb 97 n) && (Nat.leb n 122))
  || (Nat.eqb n 95).

(** LineTerminator: what [.] does not match (LF and CR in this range). *)
Definition is_line_terminator (c : ascii) : bool :=
  let n := code c in (Nat.eqb n 10) || (Nat.eqb n 13).

(** ** trim *)

Fixpoint trim_start (s : string) : string :=
  match s with
  | EmptyString => EmptyString
  | String c s' => if is_ws c then trim_start s' else s
  end.

Fixpoint trim_end (s : string) : string :=
  match s with
  | EmptyString => EmptyString
  | String c s' =>
      let t := trim_end s' in
      if is_ws c && String.eqb t "" then EmptyString else String c t
  end.

(** [String.prototype.trim] *)
Definition trim (s : string) : string := trim_end (trim_start s).

(** [String.prototype.startsWith(p)], position 0. *)
Definition startsWith (s p : string) : bool := String.prefix p s.

(** ** toLowerCase (Latin-1: A-Z and U+00C0..U+00DE except U+00D7) *)

Definition lower_char (c : ascii) : ascii :=
  let n := code c in
  if ((Nat.leb 65 n) && (Nat.leb n 90)) || ((Nat.leb 192 n) && (Nat.leb n 222) && negb (Nat.eqb n 215))
  then ascii_of_nat (n + 32) else c.

Fixpoint toLowerCase (s : string) : string :=
  match s with
  | EmptyString => EmptyString
  | String c s' => String (lower_char c) (toLowerCase s')
  end.

(** ** split(/\s+/)

    The pieces between the maximal runs of white space, as
    [String.prototype.split] with a regular expression produces them: a
    leading run gives an empty first piece, a trailing run an empty
    last piece, and [""] splits to [[""]]. *)

Definition cons_head (c : ascii) (l : list string) : list string :=
  match l with
  | [] => [str1 c]
  | x :: xs => String c x :: xs
  end.

Definition starts_ws (s : string) : bool :=
  match s with
  | String c _ => is_ws c
  | EmptyString => false
  end.

Fixpoint split_ws (s : string) : list string :=
  match s with
  | EmptyString => [EmptyString]
  | String c s' =>
      if is_ws c then (if starts_ws s' then split_ws s' else "" :: split_ws s')
      else cons_head c (split_ws s')
  end.

(** [s.split(sep)] for a one-character separator [sep]: the pieces
    between the separators, [[""]] for the empty string. *)
Fixpoint split_char (sep : ascii) (s : string) : list string :=
  match s with
  | EmptyString => [EmptyString]
  | String c s' =>
      if Ascii.eqb c sep then EmptyString :: split_char sep s'
      else cons_head c (split_char sep s')
  end.

(** [String.prototype.repeat(n)] *)
Fixpoint repeat (s : string) (n : nat) : string :=
  match n with
  | O => EmptyString
  | S n' => s ++ repeat s n'
  end.

(** Every character of [s] satisfies [f]. *)
Fixpoint all_chars (f : ascii -> bool) (s : string) : bool :=
  match s with
  | EmptyString => true
  | String c s' => f c && all_chars f s'
  end.

(** ** Lemmas *)

Lemma word_not_ws (c : ascii) : is_word c = true -> is_ws c = false.
Proof.
  unfold is_word, is_digit, is_ws. intros H.
  destruct (Nat.leb_spec 9 (code c)), (Nat.leb_spec (code c) 13),
    (Nat.eqb_spec (code c) 32), (Nat.eqb_spec (code c) 160),
    (Nat.leb_spec 48 (code c)), (Nat.leb_spec (code c) 57),
    (Nat.leb_spec 65 (code c)), (Nat.leb_spec (code c) 90),
    (Nat.leb_spec 97 (code c)), (Nat.leb_spec (code c) 122),
    (Nat.eqb_spec (code c) 95); simpl in *; try discriminate; lia.
Qed.

Lemma split_ws_nonempty (s : string) : split_ws s <> [].
Proof.
  induction s as [|c s IH]; simpl; [discriminate|].
  destruct (is_ws c); [destruct (starts_ws s); [exact IH | discriminate]|].
  destruct (split_ws s); [contradiction | discriminate].
Qed.

Lemma split_ws_cons_nonws (c : ascii) (t : string) :
  is_ws c = false -> split_ws (String c t) = cons_head c (split_ws t).
Proof. intros H. simpl. now rewrite H. Qed.

(** A word (no white space) prepended to a string glues onto the first
    piece. *)
Lemma split_ws_word (w s : string) :
  (forall i c, String.get i w = Some c -> is_ws c = false) ->
  w <> "" ->
  exists x xs, split_ws s = x :: xs /\ split_ws (w ++ s) = (w ++ x) :: xs.
Proof.
  intros Hw Hne. induction w as [|c w IH]; [contradiction|].
  assert (Hc : is_ws c = false) by exact (Hw 0 c eq_refl).
  destruct w as [|c' w'].
  - simpl (String c "" ++ s). rewrite (split_ws_cons_nonws _ _ Hc).
    destruct (split_ws s) as [|x xs] eqn:E.
    + exfalso. exact (split_ws_nonempty s E).
    + exists x, xs. split; reflexivity.
  - destruct IH as [x [xs [E1 E2]]].
    + intros i d Hd. exact (Hw (S i) d Hd).
    + discriminate.
    + exists x, xs. split; [exact E1|].
      change (split_ws (String c (String c' w' ++ s)) = (String c (String c' w' ++ x)) :: xs).
      rewrite (split_ws_cons_nonws _ _ Hc), E2. reflexivity.
Qed.

(** A run of white space before a part that does not start with white
    space separates an empty first part. *)
Lemma split_ws_run (sep s : string) :
  sep <> "" -> all_chars is_ws sep = true -> starts_ws s = false ->
  split_ws (sep ++ s) = "" :: split_ws s.
Proof.
  induction sep as [|c sep IH]; intros Hne Hs Hst; [contradiction|].
  simpl in Hs. apply andb_prop in Hs as [Hc Hs]. cbn [split_ws String.append]. rewrite Hc.
  destruct sep as [|c' sep']; cbn [starts_ws String.append]; [now rewrite Hst|].
  pose proof Hs as Hs'. simpl in Hs'. apply andb_prop in Hs' as [Hc' _]. rewrite Hc'.
  exact (IH ltac:(discriminate) Hs Hst).
Qed.

(** Characters that are not white space join the first part. *)
Lemma split_ws_nonws (w s x : string) (xs : list string) :
  all_chars (fun c => negb (is_ws c)) w = true -> split_ws s = x :: xs ->
  split_ws (w ++ s) = (w ++ x) :: xs.
Proof.
  intros Hw Hs. induction w as [|c w IH]; [exact Hs|].
  simpl in Hw. apply andb_prop in Hw as [Hc Hw]. apply negb_true_iff in Hc.
  simpl. rewrite Hc, (IH Hw). reflexivity.
Qed.


Lemma trim_end_app (w s : string) :
  trim_end s <> "" -> trim_end (w ++ s) = w ++ trim_end s.
Proof.
  intros Hs. induction w as [|c w IH]; [reflexivity|]. cbn [String.append trim_end].
  rewrite IH. destruct (is_ws c); [|reflexivity].
  destruct (String.eqb_spec (w ++ trim_end s) ""); [|reflexivity].
  exfalso. destruct w; [contradiction|discriminate].
Qed.


(** A white-space code unit at the end of a string, such as the CR a
    CRLF line keeps after [split("\n")], is removed by [trim]. *)
Lemma trim_end_snoc_ws (s : string) (c : ascii) :
  is_ws c = true -> trim_end (s ++ String c "") = trim_end s.
Proof.
  intros Hc. induction s as [|a s IH]; simpl; [now rewrite Hc|now rewrite IH].
Qed.

Lemma trim_snoc_ws (s : string) (c : ascii) :
  is_ws c = true -> trim (s ++ String c "") = trim s.
Proof.
  intros Hc. unfold trim. induction s as [|a s IH]; simpl; [now rewrite Hc|].
  destruct (is_ws a); [exact IH|]. cbn [trim_end]. now rewrite trim_end_snoc_ws.
Qed.

(** ** Splitting and joining on one character *)

Lemma all_chars_app (f : ascii -> bool) (s t : string) :
  all_chars f (s ++ t) = all_chars f s && all_chars f t.
Proof. induction s as [|c s IH]; simpl; [reflexivity|now rewrite IH, andb_assoc]. Qed.

Lemma str_join_cons sep x l : l <> [] -> str_join sep (x :: l) = x ++ sep ++ str_join sep l.
Proof. destruct l; [contradiction|reflexivity]. Qed.

Lemma split_char_nonempty sep s : split_char sep s <> [].
Proof.
  induction s as [|c s IH]; simpl; [discriminate|].
  destruct (Ascii.eqb c sep); [discriminate|].
  destruct (split_char sep s); [contradiction|discriminate].
Qed.



(** A piece with no separator in front of pieces split on [sep]. *)
Lemma split_char_app sep w s :
  all_chars (fun c => negb (Ascii.eqb c sep)) w = true ->
  split_char sep (w ++ s) =
    match split_char sep s with x :: xs => (w ++ x) :: xs | [] => [w] end.
Proof.
  induction w as [|c w IH]; intros Hw; simpl.
  - destruct (split_char sep s) eqn:E; [exfalso; exact (split_char_nonempty sep s E)|].
    reflexivity.
  - apply andb_prop in Hw as [Hc Hw]. apply negb_true_iff in Hc. rewrite Hc, IH by exact Hw.
    destruct (split_char sep s) as [|x xs] eqn:E; [exfalso; exact (split_char_nonempty sep s E)|].
    reflexivity.
Qed.

(** Pieces with no separator, joined with it and split on it, come back. *)
Lemma split_char_join sep ls :
  ls <> [] -> Forall (fun l => all_chars (fun c => negb (Ascii.eqb c sep)) l = true) ls ->
  split_char sep (str_join (str1 sep) ls) = ls.
Proof.
  induction ls as [|x ls IH]; intros Hne Hall; [contradiction|].
  inversion Hall as [|? ? Hx Hls]; subst.
  destruct ls as [|y ls].
  - simpl. rewrite <- (string_app_nil_r x), split_char_app by exact Hx. reflexivity.
  - change (str_join (str1 sep) (x :: y :: ls))
      with (x ++ String sep (str_join (str1 sep) (y :: ls))).
    rewrite split_char_app by exact Hx. cbn [split_char]. rewrite Ascii.eqb_refl.
    rewrite IH by (discriminate || exact Hls). now rewrite string_app_nil_r.
Qed.


End JsString.
