(* ===== verification/JsRegExp.v ===== *)
(** * Regular expressions as steinlib-ts uses them

    Every pattern of the code is built from a string: the regex literals
    of the root parsers (parser.ts 68, 73, 78, re-created by
    [addRegexFlags], 17-32) and the [new RegExp(tokenRegex, "i")] of
    [getParsedTokens] (section.ts 38).  This file models

    - the pattern language the code writes: anchors [^] and [$],
      literals, [.], [\d], [\s], [\w], the greedy quantifier [+] on a
      single-character atom, capturing groups [( )] and non-capturing
      groups [(?: )];
    - [new RegExp(source, flags)] as [new_RegExp], which parses the
      source into the AST ([None] for a pattern outside this subset or a
      syntax error, which the callers turn into a thrown error);
    - [String.prototype.match] for a non-global regexp as [str_match]:
      ECMA-262's backtracking matcher (continuation-passing, greedy,
      trying start positions from 0 upwards), case-insensitive through
      [Canonicalize] when the [i] flag is set;
    - a declarative match relation [rmatch] and the lemmas that the
      matcher's [search] is sound and complete for it (soundness gives
      the keyword facts of RegExpShapes).

    The multiline and global flags are carried but not interpreted: the
    code never sets them (see [addRegexFlags_literal] in [Root]). *)

From S2P Require Import Prelude JsString.
Local Open Scope string_scope.
Local Open Scope nat_scope.

Module JsRegExp.
Import JsString.

(** ** Syntax *)

Inductive cclass : Type :=
| CDigit            (** [\d] *)
| CSpace            (** [\s] *)
| CWord             (** [\w] *)
| CDot              (** [.] *)
| CLit (c : ascii). (** a literal character *)

Inductive pattern : Type :=
| REmpty
| RBol                        (** [^] *)
| REol                        (** [$] *)
| RChar (k : cclass)          (** one character of the class *)
| RPlus (k : cclass)          (** [k+], greedy *)
| RGroup (n : nat) (r : pattern)(** capturing group number [n] *)
| RNGroup (r : pattern)         (** [(?: r)] *)
| RSeq (r1 r2 : pattern).

(** ** Case folding: Canonicalize (ECMA-262 22.2.2.7.3, non-unicode)

    The upper-case code unit, unless upper-casing gives several code
    units (U+00DF) or maps a non-ASCII unit into ASCII (none in this
    range). *)
Definition canonicalize (c : ascii) : nat :=
  let n := code c in
  if (Nat.leb 97 n && Nat.leb n 122)
     || (Nat.leb 224 n && Nat.leb n 254 && negb (Nat.eqb n 247))
  then n - 32
  else if Nat.eqb n 181 then 924
  else if Nat.eqb n 255 then 376
  else n.

Definition cls_matches (ic : bool) (k : cclass) (c : ascii) : bool :=
  match k with
  | CDigit => is_digit c
  | CSpace => is_ws c
  | CWord => is_word c
  | CDot => negb (is_line_terminator c)
  | CLit d => if ic then Nat.eqb (canonicalize d) (canonicalize c)
              else Ascii.eqb d c
  end.

(** ** The RegExp constructor: parsing a pattern source *)

Fixpoint seq_of (l : list pattern) : pattern :=
  match l with
  | [] => REmpty
  | r :: l' => RSeq r (seq_of l')
  end.

(** An open group while parsing: its number ([None] for [(?:]) and the
    atoms before it, most recent first. *)
Record frame : Type := mkframe { fr_group : option nat; fr_atoms : list pattern }.

Definition close_group (fr : frame) (cur : list pattern) : list pattern :=
  let inner := seq_of (rev cur) in
  match fr_group fr with
  | Some n => RGroup n inner
  | None => RNGroup inner
  end :: fr_atoms fr.

(** Characters with a syntactic meaning that this subset does not
    support ([*], [?], [|], [[], [{]) or that cannot stand alone. *)
Definition unsupported_char (c : ascii) : bool :=
  existsb (Ascii.eqb c) ["*"; "?"; "|"; "["; "]"; "{"; "}"]%char.

Definition atom_of_char (c : ascii) : option pattern :=
  if Ascii.eqb c "^" then Some RBol
  else if Ascii.eqb c "$" then Some REol
  else if Ascii.eqb c "." then Some (RChar CDot)
  else if unsupported_char c then None
  else Some (RChar (CLit c)).

Definition atom_of_escape (c : ascii) : option pattern :=
  if Ascii.eqb c "d" then Some (RChar CDigit)
  else if Ascii.eqb c "s" then Some (RChar CSpace)
  else if Ascii.eqb c "w" then Some (RChar CWord)
  else None.

(** [parse_pat s n cur stack]: [n] groups opened so far, [cur] the atoms
    of the innermost open group (most recent first), [stack] the
    enclosing groups.  Returns the AST and the number of groups. *)
Fixpoint parse_pat (s : string) (n : nat) (cur : list pattern)
         (stack : list frame) : option (pattern * nat) :=
  match s with
  | EmptyString =>
      match stack with
      | [] => Some (seq_of (rev cur), n)
      | _ => None
      end
  | String c rest =>
      if Ascii.eqb c "(" then
        match rest with
        | String q (String col rest') =>
            if Ascii.eqb q "?" && Ascii.eqb col ":"
            then parse_pat rest' n [] (mkframe None cur :: stack)
            else parse_pat rest (S n) [] (mkframe (Some (S n)) cur :: stack)
        | _ => parse_pat rest (S n) [] (mkframe (Some (S n)) cur :: stack)
        end
      else if Ascii.eqb c ")" then
        match stack with
        | fr :: stack' => parse_pat rest n (close_group fr cur) stack'
        | [] => None
        end
      else if Ascii.eqb c "+" then
        match cur with
        | RChar k :: cur' => parse_pat rest n (RPlus k :: cur') stack
        | _ => None
        end
      else if Ascii.eqb c "\" then
        match rest with
        | String e rest' =>
            match atom_of_escape e with
            | Some a => parse_pat rest' n (a :: cur) stack
            | None => None
            end
        | EmptyString => None
        end
      else
        match atom_of_char c with
        | Some a => parse_pat rest n (a :: cur) stack
        | None => None
        end
  end.

Record flags : Type := mkflags { global : bool; ignoreCase : bool; multiline : bool }.

(** The flags string of the constructor: each of [g], [i], [m] at most
    once (a repeated flag is a SyntaxError; the other flags of ES2024
    are outside the model). *)
Fixpoint parse_flags (s : string) (f : flags) : option flags :=
  match s with
  | EmptyString => Some f
  | String c s' =>
      if Ascii.eqb c "g" then
        if global f then None
        else parse_flags s' (mkflags true (ignoreCase f) (multiline f))
      else if Ascii.eqb c "i" then
        if ignoreCase f then None
        else parse_flags s' (mkflags (global f) true (multiline f))
      else if Ascii.eqb c "m" then
        if multiline f then None
        else parse_flags s' (mkflags (global f) (ignoreCase f) true)
      else None
  end.

Definition no_flags : flags := mkflags false false false.

Record regexp : Type := mkregexp {
  source : string;
  rflags : flags;
  prog : pattern;
  ngroups : nat
}.

(** [new RegExp(source, flags)]; [None] stands for the SyntaxError the
    constructor throws (or a pattern outside the modelled subset). *)
Definition new_RegExp (src fl : string) : option regexp :=
  match parse_flags fl no_flags, parse_pat src 0 [] [] with
  | Some f, Some (r, n) => Some (mkregexp src f r n)
  | _, _ => None
  end.

(** The flags string of a regexp, in the order of [RegExp.prototype.flags]
    for the three modelled flags. *)
Definition flags_string (f : flags) : string :=
  (if global f then "g" else "") ++ (if ignoreCase f then "i" else "")
  ++ (if multiline f then "m" else "").

(** ** The backtracking matcher *)

(** A match state: the index reached, the rest of the input and the
    captures so far (most recent first, group number and text). *)
Record mstate : Type := mkst { pos : nat; rest : string; caps : list (nat * string) }.

(** [k+] after its first character: the longest run first, then
    shorter ones (greedy backtracking). *)
Fixpoint star_cls {A} (ic : bool) (k : cclass) (p : nat) (s : string)
         (cs : list (nat * string)) (kont : mstate -> option A) : option A :=
  match s with
  | String c s' =>
      if cls_matches ic k c then
        match star_cls ic k (S p) s' cs kont with
        | Some x => Some x
        | None => kont (mkst p s cs)
        end
      else kont (mkst p s cs)
  | EmptyString => kont (mkst p s cs)
  end.

Definition capture (n : nat) (st st' : mstate) : mstate :=
  mkst (pos st') (rest st')
       ((n, substring 0 (pos st' - pos st) (rest st)) :: caps st').

Fixpoint m {A} (ic : bool) (r : pattern) (st : mstate)
         (kont : mstate -> option A) {struct r} : option A :=
  match r with
  | REmpty => kont st
  | RBol => if Nat.eqb (pos st) 0 then kont st else None
  | REol => match rest st with EmptyString => kont st | _ => None end
  | RChar k =>
      match rest st with
      | String c s =>
          if cls_matches ic k c then kont (mkst (S (pos st)) s (caps st)) else None
      | EmptyString => None
      end
  | RPlus k =>
      match rest st with
      | String c s =>
          if cls_matches ic k c then star_cls ic k (S (pos st)) s (caps st) kont
          else None
      | EmptyString => None
      end
  | RGroup n r1 => m ic r1 st (fun st' => kont (capture n st st'))
  | RNGroup r1 => m ic r1 st kont
  | RSeq r1 r2 => m ic r1 st (fun st' => m ic r2 st' kont)
  end.

(** RegExpBuiltinExec for a non-global, non-sticky regexp: try the
    match at index 0, 1, ..., length. *)
Fixpoint search (ic : bool) (r : pattern) (p : nat) (s : string)
  : option (list (nat * string)) :=
  match m ic r (mkst p s []) (fun st => Some (caps st)) with
  | Some cs => Some cs
  | None =>
      match s with
      | String _ s' => search ic r (S p) s'
      | EmptyString => None
      end
  end.

Fixpoint cap_lookup (n : nat) (cs : list (nat * string)) : option string :=
  match cs with
  | [] => None
  | (i, v) :: cs' => if Nat.eqb i n then Some v else cap_lookup n cs'
  end.

(** The groups [1..n] of a match ([None] is [undefined]). *)
Definition groups_of (n : nat) (cs : list (nat * string)) : list (option string) :=
  map (fun i => cap_lookup i cs) (seq 1 n).

(** [str.match(re)] for a non-global [re]: [null] or the groups, i.e.
    [match.slice(1)] (the code never reads [match[0]]). *)
Definition str_match (re : regexp) (s : string) : option (list (option string)) :=
  match search (ignoreCase (rflags re)) (prog re) 0 s with
  | Some cs => Some (groups_of (ngroups re) cs)
  | None => None
  end.

(** ** Declarative semantics *)

Fixpoint all_cls (ic : bool) (k : cclass) (w : string) : bool :=
  match w with
  | EmptyString => true
  | String c w' => cls_matches ic k c && all_cls ic k w'
  end.

(** [rmatch ic r st st']: [r] can match from [st] and end in [st']. *)
Inductive rmatch (ic : bool) : pattern -> mstate -> mstate -> Prop :=
| RM_empty st : rmatch ic REmpty st st
| RM_bol st : pos st = 0 -> rmatch ic RBol st st
| RM_eol st : rest st = EmptyString -> rmatch ic REol st st
| RM_char k c p s cs :
    cls_matches ic k c = true ->
    rmatch ic (RChar k) (mkst p (String c s) cs) (mkst (S p) s cs)
| RM_plus k c w p s cs :
    cls_matches ic k c = true -> all_cls ic k w = true ->
    rmatch ic (RPlus k) (mkst p (String c (w ++ s)) cs)
           (mkst (S p + String.length w) s cs)
| RM_group n r st st' :
    rmatch ic r st st' -> rmatch ic (RGroup n r) st (capture n st st')
| RM_ngroup r st st' : rmatch ic r st st' -> rmatch ic (RNGroup r) st st'
| RM_seq r1 r2 st1 st2 st3 :
    rmatch ic r1 st1 st2 -> rmatch ic r2 st2 st3 -> rmatch ic (RSeq r1 r2) st1 st3.

#[export] Hint Constructors rmatch : steinlib.

(** [k+] consuming exactly one character. *)
Lemma rmatch_plus1 ic k c p s cs :
  cls_matches ic k c = true ->
  rmatch ic (RPlus k) (mkst p (String c s) cs) (mkst (S p) s cs).
Proof.
  intros H. pose proof (RM_plus ic k c "" p s cs H eq_refl) as Hm.
  simpl in Hm. now rewrite Nat.add_0_r in Hm.
Qed.
#[export] Hint Resolve rmatch_plus1 : steinlib.

(** ** The matcher refines the declarative semantics *)

Section Matcher.
Context {A : Type} (ic : bool).

Lemma star_cls_sound k p s cs (kont : mstate -> option A) x :
    star_cls ic k p s cs kont = Some x ->
    exists w s', s = w ++ s' /\ all_cls ic k w = true /\
                 kont (mkst (p + String.length w) s' cs) = Some x.
  Proof.
    revert p. induction s as [|c s IH]; intros p H; simpl in H.
    - exists "", "". simpl. rewrite Nat.add_0_r. auto.
    - destruct (cls_matches ic k c) eqn:Hc.
      + destruct (star_cls ic k (S p) s cs kont) eqn:E.
        * injection H as <-. destruct (IH _ E) as (w & s' & -> & Hw & Hk).
          exists (String c w), s'. simpl. rewrite Hc, Hw.
          rewrite <- Nat.add_succ_comm. auto.
        * exists "", (String c s). simpl. rewrite Nat.add_0_r. auto.
      + exists "", (String c s). simpl. rewrite Nat.add_0_r. auto.
  Qed.

Lemma star_cls_fallback k p s cs (kont : mstate -> option A) x :
    kont (mkst p s cs) = Some x -> exists y, star_cls ic k p s cs kont = Some y.
  Proof.
    intros H. destruct s as [|c s]; simpl; [eauto|].
    destruct (cls_matches ic k c); [|eauto].
    destruct (star_cls ic k (S p) s cs kont); eauto.
  Qed.

Lemma star_cls_complete k p w s cs (kont : mstate -> option A) x :
    all_cls ic k w = true -> kont (mkst (p + String.length w) s cs) = Some x ->
    exists y, star_cls ic k p (w ++ s) cs kont = Some y.
  Proof.
    revert p. induction w as [|c w IH]; intros p Hw Hk; simpl in *.
    - rewrite Nat.add_0_r in Hk. eapply star_cls_fallback; eauto.
    - apply andb_prop in Hw as [Hc Hw]. rewrite Hc.
      assert (Hk' : kont (mkst (S p + String.length w) s cs) = Some x)
        by (rewrite <- Hk; do 2 f_equal; lia).
      destruct (IH (S p) Hw Hk') as [y Hy]. rewrite Hy. eauto.
  Qed.

  (** Whatever the matcher returns comes from a declarative match whose
      end state the continuation accepted. *)
Theorem m_sound r : forall st (kont : mstate -> option A) x,
    m ic r st kont = Some x -> exists st', rmatch ic r st st' /\ kont st' = Some x.
  Proof.
    induction r as [| | |k|k|n r IH|r IH|r1 IH1 r2 IH2];
      intros st kont x H; simpl in H.
    - eauto with steinlib.
    - destruct (Nat.eqb_spec (pos st) 0); [eauto with steinlib | discriminate].
    - destruct st as [p [|c s] cs]; simpl in H; [eauto with steinlib | discriminate].
    - destruct st as [p [|c s] cs]; simpl in H; [discriminate|].
      destruct (cls_matches ic k c) eqn:Hc; [eauto with steinlib | discriminate].
    - destruct st as [p [|c s] cs]; simpl in H; [discriminate|].
      destruct (cls_matches ic k c) eqn:Hc; [|discriminate].
      destruct (star_cls_sound _ _ _ _ _ _ H) as (w & s' & -> & Hw & Hk).
      eauto with steinlib.
    - destruct (IH _ _ _ H) as (st' & Hm & Hk). eauto with steinlib.
    - destruct (IH _ _ _ H) as (st' & Hm & Hk). eauto with steinlib.
    - destruct (IH1 _ _ _ H) as (st2 & Hm1 & Hk1).
      destruct (IH2 _ _ _ Hk1) as (st3 & Hm2 & Hk2). eauto with steinlib.
  Qed.

  (** If some declarative match ends in a state the continuation
      accepts, the matcher finds a result (possibly through an earlier,
      higher-priority match). *)
Theorem m_complete r st st' :
    rmatch ic r st st' -> forall (kont : mstate -> option A) x,
    kont st' = Some x -> exists y, m ic r st kont = Some y.
  Proof.
    induction 1 as [st|st H|st H|k c p s cs H|k c w p s cs H Hw
                   |n r st st' Hr IH|r st st' Hr IH|r1 r2 st1 st2 st3 H1 IH1 H2 IH2];
      intros kont x Hk; simpl.
    - eauto.
    - rewrite H. eauto.
    - rewrite H. eauto.
    - rewrite H. eauto.
    - rewrite H. eapply star_cls_complete; eauto.
    - eapply (IH (fun st'' => kont (capture n st st''))). exact Hk.
    - eauto.
    - destruct (IH2 kont x Hk) as [y Hy]. eapply (IH1 (fun st => m ic r2 st kont)). exact Hy.
  Qed.
End Matcher.

Lemma search_sound ic r p s cs :
  search ic r p s = Some cs ->
  exists pre suf st', s = pre ++ suf /\
    rmatch ic r (mkst (p + String.length pre) suf []) st' /\ caps st' = cs.
Proof.
  revert p. induction s as [|c s IH]; intros p H; simpl in H;
    destruct (m ic r (mkst p _ []) (fun st => Some (caps st))) eqn:E.
  - injection H as <-. destruct (m_sound _ _ _ _ _ E) as (st' & Hm & Hk).
    exists "", "", st'. rewrite Nat.add_0_r. injection Hk. auto.
  - discriminate.
  - injection H as <-. destruct (m_sound _ _ _ _ _ E) as (st' & Hm & Hk).
    exists "", (String c s), st'. rewrite Nat.add_0_r. injection Hk. auto.
  - destruct (IH _ H) as (pre & suf & st' & -> & Hm & Hc).
    exists (String c pre), suf, st'. simpl. rewrite <- Nat.add_succ_comm. auto.
Qed.

Lemma search_complete ic r p pre suf st' :
  rmatch ic r (mkst (p + String.length pre) suf []) st' ->
  exists cs, search ic r p (pre ++ suf) = Some cs.
Proof.
  revert p. induction pre as [|c pre IH]; intros p H; simpl in *.
  - rewrite Nat.add_0_r in H.
    destruct (m_complete ic r _ _ H (fun st => Some (caps st)) (caps st') eq_refl)
      as [y Hy].
    destruct suf; simpl; rewrite Hy; eauto.
  - destruct (m ic r _ _); [eauto|].
    apply IH. now rewrite Nat.add_succ_comm.
Qed.



(** ** Computing the matcher on shaped inputs *)

(** The atoms of a literal word. *)
Fixpoint lits (w : string) : list pattern :=
  match w with
  | EmptyString => []
  | String c w' => RChar (CLit c) :: lits w'
  end.

(** Strip a prefix that matches the literal word [w] character by
    character. *)
Fixpoint lit_prefix (ic : bool) (w s : string) : option string :=
  match w, s with
  | EmptyString, _ => Some s
  | String d w', String c s' =>
      if cls_matches ic (CLit d) c then lit_prefix ic w' s' else None
  | String _ _, EmptyString => None
  end.

(** Case-insensitive equality of two strings, as [Canonicalize] sees it. *)
Fixpoint ci_eqb (s w : string) : bool :=
  match s, w with
  | EmptyString, EmptyString => true
  | String c s', String d w' => Nat.eqb (canonicalize d) (canonicalize c) && ci_eqb s' w'
  | _, _ => false
  end.


Section Shapes.
Context {A : Type} (ic : bool).

Lemma m_seq_lits w l : forall p s cs (kont : mstate -> option A),
    m ic (seq_of (lits w ++ l)) (mkst p s cs) kont =
    match lit_prefix ic w s with
    | Some s' => m ic (seq_of l) (mkst (p + String.length w) s' cs) kont
    | None => None
    end.
  Proof.
    induction w as [|d w IH]; intros p s cs kont; simpl.
    - now rewrite Nat.add_0_r.
    - destruct s as [|c s]; simpl; [reflexivity|].
      destruct (if ic then _ else _); [|reflexivity].
      rewrite IH. now rewrite Nat.add_succ_r.
  Qed.

  (** A pattern anchored with [^] can only match at index 0. *)
Lemma m_bol_pos r p s cs (kont : mstate -> option A) :
    p <> 0 -> m ic (RSeq RBol r) (mkst p s cs) kont = None.
  Proof. intros Hp. simpl. destruct (Nat.eqb_spec p 0); [contradiction|reflexivity]. Qed.

  (** Greedy maximal munch: a run of class characters that is not
      followed by one more is consumed whole first. *)
Lemma star_cls_greedy k p w s cs (kont : mstate -> option A) x :
    all_cls ic k w = true ->
    match s with String c _ => cls_matches ic k c = false | EmptyString => True end ->
    kont (mkst (p + String.length w) s cs) = Some x ->
    star_cls ic k p (w ++ s) cs kont = Some x.
  Proof.
    revert p. induction w as [|c w IH]; intros p Hw Hs Hk; simpl in *.
    - rewrite Nat.add_0_r in Hk. destruct s as [|c s]; simpl; [exact Hk|].
      now rewrite Hs.
    - apply andb_prop in Hw as [Hc Hw]. rewrite Hc.
      rewrite (IH (S p) Hw Hs); [reflexivity|]. rewrite <- Hk. do 2 f_equal. lia.
  Qed.

  (** Backtracking one character: when the continuation fails at the
      end of the input, the run gives back its last character. *)
Lemma star_cls_last k p w c cs (kont : mstate -> option A) x :
    all_cls ic k w = true -> cls_matches ic k c = true ->
    kont (mkst (S (p + String.length w)) "" cs) = None ->
    kont (mkst (p + String.length w) (String c "") cs) = Some x ->
    star_cls ic k p (w ++ String c "") cs kont = Some x.
  Proof.
    revert p. induction w as [|d w IH]; intros p Hw Hc Hn Hk; simpl in *.
    - rewrite Nat.add_0_r in Hn, Hk. rewrite Hc. simpl. now rewrite Hn.
    - apply andb_prop in Hw as [Hd Hw]. rewrite Hd.
      rewrite (IH (S p) Hw Hc); [reflexivity| |].
      + rewrite <- Hn. do 2 f_equal. lia.
      + rewrite <- Hk. do 2 f_equal. lia.
  Qed.
End Shapes.

Lemma search_bol_pos ic r p s :
  p <> 0 -> search ic (RSeq RBol r) p s = None.
Proof.
  revert p. induction s as [|c s IH]; intros p Hp; unfold search; fold search.
  - now rewrite m_bol_pos.
  - rewrite m_bol_pos by exact Hp. apply IH. lia.
Qed.

(** For an anchored pattern, [search] is the match at index 0. *)
Lemma search_bol ic r s :
  search ic (RSeq RBol r) 0 s = m ic (RSeq RBol r) (mkst 0 s []) (fun st => Some (caps st)).
Proof.
  destruct s as [|c s]; unfold search; fold search.
  - destruct (m ic _ _ _); reflexivity.
  - destruct (m ic _ _ _); [reflexivity|]. now apply search_bol_pos.
Qed.

Lemma lit_prefix_ci_eqb w s : lit_prefix true w s = Some "" <-> ci_eqb s w = true.
Proof.
  revert s. induction w as [|d w IH]; intros s; destruct s as [|c s]; simpl;
    try (split; congruence).
  rewrite andb_true_iff, <- IH.
  destruct (Nat.eqb (canonicalize d) (canonicalize c)); split; try tauto; intuition congruence.
Qed.

Lemma lit_prefix_app ic w t s :
  lit_prefix ic w s = Some t -> forall u, lit_prefix ic w (s ++ u) = Some (t ++ u).
Proof.
  revert s. induction w as [|d w IH]; intros s H u; simpl in *.
  - now injection H as ->.
  - destruct s as [|c s]; [discriminate|]. simpl.
    destruct (if ic then _ else _); [|discriminate]. now apply IH.
Qed.

Lemma lit_prefix_refl w : lit_prefix true w w = Some "".
Proof.
  induction w as [|c w IH]; simpl; [reflexivity|].
  now rewrite Nat.eqb_refl.
Qed.

(** A case-insensitive whole-line keyword [^w$] matches exactly the
    lines equal to [w] up to case, with no groups. *)
Lemma m_anchored_word w (s : string) :
  m true (RSeq RBol (seq_of (lits w ++ [REol]))) (mkst 0 s []) (fun st => Some (caps st)) =
  if ci_eqb s w then Some [] else None.
Proof.
  simpl. rewrite m_seq_lits.
  destruct (lit_prefix true w s) as [t|] eqn:E.
  - destruct t as [|c t].
    + apply lit_prefix_ci_eqb in E. now rewrite E.
    + simpl. destruct (ci_eqb s w) eqn:Hci; [|reflexivity].
      apply lit_prefix_ci_eqb in Hci. congruence.
  - destruct (ci_eqb s w) eqn:Hci; [|reflexivity].
    apply lit_prefix_ci_eqb in Hci. congruence.
Qed.

Lemma all_cls_chars ic k w :
  all_cls ic k w = all_chars (cls_matches ic k) w.
Proof. induction w as [|c w IH]; simpl; [reflexivity|now rewrite IH]. Qed.

Lemma substring_app_0 (w s : string) : substring 0 (String.length w) (w ++ s) = w.
Proof. induction w as [|c w IH]; simpl; [destruct s; reflexivity|now rewrite IH]. Qed.

(** The class test a match continues after. *)
Definition stops_at (ic : bool) (k : cclass) (s : string) : Prop :=
  match s with String d _ => cls_matches ic k d = false | EmptyString => True end.

Section Runs.
Context {A : Type} (ic : bool).

Lemma m_seq_cons r l st (kont : mstate -> option A) :
    m ic (seq_of (r :: l)) st kont = m ic r st (fun st' => m ic (seq_of l) st' kont).
  Proof. reflexivity. Qed.

  (** [k+] on a maximal run [c w] followed by [s]. *)
Lemma m_plus_run k c w s p cs (kont : mstate -> option A) x :
    cls_matches ic k c = true -> all_cls ic k w = true -> stops_at ic k s ->
    kont (mkst (S p + String.length w) s cs) = Some x ->
    m ic (RPlus k) (mkst p (String c (w ++ s)) cs) kont = Some x.
  Proof.
    intros Hc Hw Hs Hk. cbn [m rest pos caps]. rewrite Hc.
    now apply star_cls_greedy.
  Qed.

  (** [(k+)] as group [i] on a maximal run: the group captures the run. *)
Lemma m_group_run i k c w s p cs (kont : mstate -> option A) x :
    cls_matches ic k c = true -> all_cls ic k w = true -> stops_at ic k s ->
    kont (mkst (S p + String.length w) s ((i, String c w) :: cs)) = Some x ->
    m ic (RGroup i (RSeq (RPlus k) REmpty)) (mkst p (String c (w ++ s)) cs) kont = Some x.
  Proof.
    intros Hc Hw Hs Hk. cbn [m].
    apply (m_plus_run k c w s p cs (fun st' => kont (capture i _ st'))); auto.
    unfold capture. cbn [pos rest caps].
    assert (E : substring 0 (S (String.length w)) (String c (w ++ s)) = String c w)
      by exact (substring_app_0 (String c w) s).
    replace (S p + String.length w - p) with (S (String.length w)) by lia.
    rewrite E. exact Hk.
  Qed.

  (** [(k+)] as group [i] on a run that ends the input. *)
Lemma m_group_run_end i k c w p cs (kont : mstate -> option A) x :
    cls_matches ic k c = true -> all_cls ic k w = true ->
    kont (mkst (S p + String.length w) "" ((i, String c w) :: cs)) = Some x ->
    m ic (RGroup i (RSeq (RPlus k) REmpty)) (mkst p (String c w) cs) kont = Some x.
  Proof.
    intros Hc Hw Hk.
    pose proof (m_group_run i k c w "" p cs kont x Hc Hw I Hk) as Hm.
    now rewrite string_app_nil_r in Hm.
  Qed.

  (** [(?:k+)] on a maximal run. *)
Lemma m_ngroup_run k c w s p cs (kont : mstate -> option A) x :
    cls_matches ic k c = true -> all_cls ic k w = true -> stops_at ic k s ->
    kont (mkst (S p + String.length w) s cs) = Some x ->
    m ic (RNGroup (RSeq (RPlus k) REmpty)) (mkst p (String c (w ++ s)) cs) kont = Some x.
  Proof. intros. cbn [m]. now apply m_plus_run. Qed.
End Runs.

End JsRegExp.
