(* ===== verification/RegExpShapes.v ===== *)
(** * Shapes of the anchored patterns of steinlib-ts

    Every pattern of the token tables and of the root parsers starts
    with [^], a keyword, and then white space or the end of the line
    ([\s+], [(?:\s+)] or [$]).  This file extracts that keyword from a
    compiled pattern ([keyword]) and shows that a line matched by the
    pattern starts with the keyword, up to case, followed by white space
    or nothing ([keyword_sound]); two such keywords made of word
    characters that both start one line are equal up to case
    ([sep_prefix_unique]).  The grammar files use these facts to show
    that no line matches two rules of a table. *)

From S2P Require Import Prelude JsString JsRegExp.
Local Open Scope string_scope.
Local Open Scope nat_scope.

Module RegExpShapes.
Import JsString JsRegExp.

(** ** The keyword of an anchored pattern *)

(** The literal characters at the head of a pattern, and what follows. *)
Fixpoint split_kw (r : pattern) : string * pattern :=
  match r with
  | RSeq (RChar (CLit c)) r' => let (w, rest) := split_kw r' in (String c w, rest)
  | _ => (EmptyString, r)
  end.

(** What may follow the keyword: white space ([\s+] or [(?:\s+)]) or
    the end of the line. *)
Definition sep_ok (r : pattern) : bool :=
  match r with
  | RSeq (RPlus CSpace) _ | RSeq (RNGroup (RSeq (RPlus CSpace) _)) _ | RSeq REol _ => true
  | _ => false
  end.

Definition keyword_of (r : pattern) : option string :=
  match r with
  | RSeq RBol r' => let (w, rest) := split_kw r' in if sep_ok rest then Some w else None
  | _ => None
  end.

Definition keyword (re : regexp) : option string := keyword_of (prog re).

(** ** Soundness *)

Lemma rmatch_split_kw ic r : forall p s cs st',
  rmatch ic r (mkst p s cs) st' ->
  exists s', lit_prefix ic (fst (split_kw r)) s = Some s' /\
             rmatch ic (snd (split_kw r)) (mkst (p + String.length (fst (split_kw r))) s' cs) st'.
Proof.
  induction r as [| | |k|k|n r IH|r IH|r1 IH1 r2 IH2]; intros p s cs st' Hm;
    try (exists s; simpl; rewrite Nat.add_0_r; auto; fail).
  destruct r1 as [| | |[| | | |c]|k|n r|r|ra rb];
    try (exists s; simpl; rewrite Nat.add_0_r; auto; fail).
  inversion Hm as [| | | | | | |r1' r2' st1 st2 st3 Hc Hrest]; subst.
  inversion Hc as [| | |k c' p' s0 cs' Hcm| | | |]; subst.
  destruct (IH2 _ _ _ _ Hrest) as (s' & Hp & Hr).
  cbn [split_kw]. destruct (split_kw r2) as [w rest] eqn:E. cbn [fst snd] in *.
  exists s'. split.
  - cbn [lit_prefix]. now rewrite Hcm.
  - cbn [String.length]. replace (p + S (String.length w)) with (S p + String.length w) by lia. exact Hr.
Qed.

Lemma rmatch_plus_space ic st st' :
  rmatch ic (RPlus CSpace) st st' -> starts_ws (rest st) = true.
Proof. inversion 1; subst; assumption. Qed.

Lemma rmatch_sep ic r st st' :
  sep_ok r = true -> rmatch ic r st st' ->
  rest st = "" \/ starts_ws (rest st) = true.
Proof.
  intros Hs Hm. destruct r as [| | | | | | |a b]; try discriminate.
  inversion Hm as [| | | | | | |a' b' st1 st2 st3 Ha _]; subst.
  destruct a as [| | |k|[]| |[| | | | | | |a0 b0]|]; try discriminate.
  - inversion Ha; subst. auto.
  - eauto using rmatch_plus_space.
  - destruct a0 as [| | | |[]| | |]; try discriminate.
    inversion Ha as [| | | | | |r0 s0 s0' Hq| ]; subst.
    inversion Hq as [| | | | | | |a1 b1 t1 t2 t3 Hp _]; subst.
    eauto using rmatch_plus_space.
Qed.

(** A line matched by a pattern with keyword [w] starts with [w] (up to
    case when the regexp ignores case), followed by white space or
    nothing. *)
Theorem keyword_sound re line gs w :
  keyword re = Some w -> str_match re line = Some gs ->
  exists s', lit_prefix (ignoreCase (rflags re)) w line = Some s' /\
             (s' = "" \/ starts_ws s' = true).
Proof.
  unfold keyword, keyword_of, str_match. intros Hk Hm.
  destruct (prog re) as [| | | | | | |r0 r'] eqn:Hp; try discriminate.
  destruct r0; try discriminate.
  destruct (split_kw r') as [w' rest] eqn:Hs.
  destruct (sep_ok rest) eqn:Hsep; [|discriminate]. injection Hk as <-.
  destruct (search _ _ 0 line) as [cs|] eqn:E; [|discriminate].
  apply search_sound in E as (pre & suf & st' & -> & Hr & _).
  inversion Hr as [| | | | | | |a b st1 st2 st3 Hb Hrest]; subst.
  inversion Hb as [|stb Hpos| | | | | |]; subst. simpl in Hpos.
  destruct pre; [|discriminate]. simpl.
  destruct (rmatch_split_kw _ _ _ _ _ _ Hrest) as (s' & Hl & Hr').
  rewrite Hs in Hl, Hr'. cbn [fst snd] in *.
  exists s'. split; [exact Hl|].
  exact (rmatch_sep _ _ _ _ Hsep Hr').
Qed.

(** ** Keywords of word characters cannot overlap *)

Lemma canonicalize_ws c : is_ws c = true -> canonicalize c = code c.
Proof.
  unfold is_ws, canonicalize. intros H.
  destruct (Nat.leb_spec 9 (code c)), (Nat.leb_spec (code c) 13),
    (Nat.eqb_spec (code c) 32), (Nat.eqb_spec (code c) 160); simpl in H; try discriminate;
  destruct (Nat.leb_spec 97 (code c)), (Nat.leb_spec (code c) 122),
    (Nat.leb_spec 224 (code c)), (Nat.leb_spec (code c) 254),
    (Nat.eqb_spec (code c) 247), (Nat.eqb_spec (code c) 181), (Nat.eqb_spec (code c) 255);
  simpl; lia.
Qed.

Lemma canonicalize_word d : is_word d = true -> 48 <= canonicalize d <= 95.
Proof.
  unfold is_word, is_digit, canonicalize. intros H.
  destruct (Nat.leb_spec 48 (code d)), (Nat.leb_spec (code d) 57),
    (Nat.leb_spec 65 (code d)), (Nat.leb_spec (code d) 90),
    (Nat.leb_spec 97 (code d)), (Nat.leb_spec (code d) 122),
    (Nat.eqb_spec (code d) 95); simpl in H; try discriminate;
  destruct (Nat.leb_spec 224 (code d)), (Nat.leb_spec (code d) 254),
    (Nat.eqb_spec (code d) 247), (Nat.eqb_spec (code d) 181), (Nat.eqb_spec (code d) 255);
  simpl; lia.
Qed.

Lemma word_ws_canon_neq d c :
  is_word d = true -> is_ws c = true -> canonicalize d <> canonicalize c.
Proof.
  intros Hd Hc. rewrite (canonicalize_ws c Hc). pose proof (canonicalize_word d Hd).
  unfold is_ws in Hc.
  destruct (Nat.leb_spec 9 (code c)), (Nat.leb_spec (code c) 13),
    (Nat.eqb_spec (code c) 32), (Nat.eqb_spec (code c) 160); simpl in Hc;
    try discriminate; lia.
Qed.

(** A separated keyword prefix that starts with a word character cannot
    be followed by white space in the line where another one continues. *)
Lemma sep_prefix_unique w1 w2 line s1 s2 :
  all_chars is_word w1 = true -> all_chars is_word w2 = true ->
  lit_prefix true w1 line = Some s1 -> (s1 = "" \/ starts_ws s1 = true) ->
  lit_prefix true w2 line = Some s2 -> (s2 = "" \/ starts_ws s2 = true) ->
  ci_eqb w2 w1 = true.
Proof.
  revert w2 line. induction w1 as [|d1 w1 IH]; intros w2 line Hw1 Hw2 H1 Hs1 H2 Hs2.
  - destruct w2 as [|d2 w2]; [reflexivity|]. exfalso.
    simpl in H1. injection H1 as <-.
    destruct line as [|c line']; [discriminate|]. simpl in H2, Hw2.
    destruct (Nat.eqb_spec (canonicalize d2) (canonicalize c)) as [Heq|]; [|discriminate].
    apply andb_prop in Hw2 as [Hd2 _].
    destruct Hs1 as [|Hws]; [discriminate|]. simpl in Hws.
    exact (word_ws_canon_neq d2 c Hd2 Hws Heq).
  - destruct line as [|c line']; [discriminate|].
    simpl in H1, Hw1. apply andb_prop in Hw1 as [Hd1 Hw1].
    destruct (Nat.eqb_spec (canonicalize d1) (canonicalize c)) as [Heq1|]; [|discriminate].
    destruct w2 as [|d2 w2].
    + exfalso. simpl in H2. injection H2 as <-.
      destruct Hs2 as [|Hws]; [discriminate|]. simpl in Hws.
      exact (word_ws_canon_neq d1 c Hd1 Hws Heq1).
    + simpl in H2, Hw2. apply andb_prop in Hw2 as [Hd2 Hw2].
      destruct (Nat.eqb_spec (canonicalize d2) (canonicalize c)) as [Heq2|]; [|discriminate].
      simpl. rewrite Heq1, Heq2, Nat.eqb_refl. simpl.
      exact (IH w2 line' Hw1 Hw2 H1 Hs1 H2 Hs2).
Qed.

(** ** Pairwise distinct keywords *)

Lemma ci_eqb_sym s w : ci_eqb s w = ci_eqb w s.
Proof.
  revert w. induction s as [|c s IH]; intros [|d w]; simpl; try reflexivity.
  now rewrite Nat.eqb_sym, IH.
Qed.

Fixpoint pairwise_distinct {A} (f : A -> option string) (l : list A) : bool :=
  match l with
  | [] => true
  | x :: xs =>
      forallb (fun y => match f x, f y with
                        | Some a, Some b => negb (ci_eqb a b)
                        | _, _ => false
                        end) xs
      && pairwise_distinct f xs
  end.

Lemma pairwise_distinct_eq {A} (f : A -> option string) l x y a b :
  pairwise_distinct f l = true -> In x l -> In y l ->
  f x = Some a -> f y = Some b -> ci_eqb a b = true -> x = y.
Proof.
  induction l as [|z l IH]; intros Hpd Hx Hy Ha Hb Hab; [destruct Hx|].
  simpl in Hpd. apply andb_prop in Hpd as [Hall Hpd]. rewrite forallb_forall in Hall.
  destruct Hx as [<-|Hx], Hy as [<-|Hy].
  - reflexivity.
  - specialize (Hall y Hy). rewrite Ha, Hb, Hab in Hall. discriminate.
  - specialize (Hall x Hx). rewrite Ha, Hb, ci_eqb_sym, Hab in Hall. discriminate.
  - eauto.
Qed.

End RegExpShapes.
