(* ===== verification/JsValue.v ===== *)
(** * Captured values and their numeric coercion

    [SectionParser.convertIntDigitsWhenPossible] (section.ts 20-22)
    maps every capture [t] to [parseInt(t, 10)] when [/\d+/.test(t)],
    and keeps [t] otherwise.  This file models the JavaScript values a
    handler receives ([value]), the regex test (through the regex model
    of [JsRegExp]), [parseInt] with radix 10 (ECMA-262 19.2.5), and the
    coercion.  [VNum z] stands for the Number nearest to the integer
    [z]; it is [z] itself when [|z| <= 2^53], i.e. for captures of at
    most 15 digits, and JavaScript rounds longer ones.
    [parseInt] returns -0 for ["-0"]; the model does not distinguish it
    from +0. *)

From Stdlib Require Import ZArith.
From S2P Require Import Prelude JsString JsRegExp.
Local Open Scope string_scope.

Module JsValue.
Import JsString JsRegExp.

(** A value passed to a handler callback. *)
Inductive value : Type :=
| VStr (s : string)
| VNum (z : Z)
| VNaN
| VUndefined.

#[export] Instance value_eq_dec : EqDecision value.
Proof. solve_decision. Defined.

(** The template literal [`${t}`] applied to a match group. *)
Definition template_of_group (g : option string) : string :=
  match g with
  | Some s => s
  | None => "undefined"
  end.

(** ** parseInt(s, 10) *)

Fixpoint digit_prefix (s : string) : string :=
  match s with
  | String c s' => if is_digit c then String c (digit_prefix s') else EmptyString
  | EmptyString => EmptyString
  end.

Definition digit_val (c : ascii) : Z := Z.of_nat (code c - 48).

Fixpoint digits_value_acc (acc : Z) (s : string) : Z :=
  match s with
  | EmptyString => acc
  | String c s' => digits_value_acc (acc * 10 + digit_val c) s'
  end.

(** The mathematical value of a string of decimal digits. *)
Definition digits_value (s : string) : Z := digits_value_acc 0 s.

(** The sign of [parseInt]: a leading [-] or [+] is removed. *)
Definition strip_sign (s : string) : Z * string :=
  match s with
  | String c s' =>
      if Ascii.eqb c "-" then ((-1)%Z, s')
      else if Ascii.eqb c "+" then (1%Z, s')
      else (1%Z, s)
  | EmptyString => (1%Z, s)
  end.

Definition parseInt10 (s : string) : value :=
  let '(sign, s') := strip_sign (trim_start s) in
  match digit_prefix s' with
  | EmptyString => VNaN
  | z => VNum (sign * digits_value z)
  end.

(** ** /\d+/.test(t) *)

(** The regex literal [/\d+/]. *)
Definition digits_re : option regexp := new_RegExp "\d+" "".

Definition re_test (re : option regexp) (s : string) : bool :=
  match re with
  | Some r => match str_match r s with Some _ => true | None => false end
  | None => false
  end.

(** ** convertIntDigitsWhenPossible *)

Definition convert_token (t : string) : value :=
  if re_test digits_re t then parseInt10 t else VStr t.

Definition convertIntDigitsWhenPossible (tokens : list string) : list value :=
  map convert_token tokens.

(** ** Lemmas *)

Fixpoint all_digits (s : string) : bool :=
  match s with
  | EmptyString => true
  | String c s' => is_digit c && all_digits s'
  end.

Fixpoint has_digit (s : string) : bool :=
  match s with
  | EmptyString => false
  | String c s' => is_digit c || has_digit s'
  end.

Lemma digits_re_eq :
  digits_re = Some (mkregexp "\d+" no_flags (RSeq (RPlus CDigit) REmpty) 0).
Proof. reflexivity. Qed.

Lemma has_digit_mid (pre t : string) (c : ascii) :
  is_digit c = true -> has_digit (pre ++ String c t) = true.
Proof.
  intros Hc. induction pre as [|d pre IH]; simpl; [now rewrite Hc|].
  now rewrite IH, orb_true_r.
Qed.

(** [/\d+/] matches exactly the strings that contain a digit. *)
Lemma re_test_digits (s : string) : re_test digits_re s = has_digit s.
Proof.
  rewrite digits_re_eq. unfold re_test, str_match. cbn [rflags prog ignoreCase ngroups no_flags].
  destruct (search false (RSeq (RPlus CDigit) REmpty) 0 s) eqn:E.
  - symmetry. apply search_sound in E as (pre & suf & st' & -> & Hm & _).
    inversion Hm as [| | | | | | |r1 r2 st1 st2 st3 Hp _]; subst.
    inversion Hp as [| | | |k c w p s0 cs Hc _| | |]; subst.
    now apply has_digit_mid.
  - symmetry. apply not_true_iff_false. intros Hd.
    assert (exists pre c suf, s = pre ++ String c suf /\ is_digit c = true)
      as (pre & c & suf & -> & Hc).
    { clear E. induction s as [|d s IH]; simpl in Hd; [discriminate|].
      destruct (is_digit d) eqn:Hdd.
      - exists "", d, s. auto.
      - destruct (IH Hd) as (pre & c & suf & -> & Hc). exists (String d pre), c, suf. auto. }
    destruct (search_complete false (RSeq (RPlus CDigit) REmpty) 0 pre (String c suf)
                (mkst (S (String.length pre)) suf [])) as [cs Hcs].
    + econstructor; [|constructor]. apply rmatch_plus1. exact Hc.
    + congruence.
Qed.

Lemma digit_prefix_all (s : string) : all_digits s = true -> digit_prefix s = s.
Proof.
  induction s as [|c s IH]; simpl; [reflexivity|].
  intros H. apply andb_prop in H as [-> H]. now rewrite IH.
Qed.

Lemma all_digits_has_digit (s : string) : s <> "" -> all_digits s = true -> has_digit s = true.
Proof.
  destruct s as [|c s]; [contradiction|]. simpl. intros _ H.
  apply andb_prop in H as [-> _]. reflexivity.
Qed.

Lemma is_digit_code (c : ascii) :
  is_digit c = true -> 48 <= code c <= 57.
Proof. unfold is_digit. intros H. apply andb_prop in H as [H1 H2].
  apply Nat.leb_le in H1, H2. lia. Qed.

Lemma digit_not_ws (c : ascii) : is_digit c = true -> is_ws c = false.
Proof.
  intros H. apply is_digit_code in H. unfold is_ws.
  destruct (Nat.leb_spec 9 (code c)), (Nat.leb_spec (code c) 13),
    (Nat.eqb_spec (code c) 32), (Nat.eqb_spec (code c) 160); simpl; lia.
Qed.

Lemma digit_not_sign (c : ascii) :
  is_digit c = true -> Ascii.eqb c "-" = false /\ Ascii.eqb c "+" = false.
Proof.
  intros H. apply is_digit_code in H.
  split; apply Ascii.eqb_neq; intros ->; cbv in H; lia.
Qed.


(** [parseInt] of a string that starts with a digit reads its digit
    prefix. *)
Lemma parseInt10_digit_start (c : ascii) (t : string) :
  is_digit c = true ->
  parseInt10 (String c t) = VNum (digits_value (digit_prefix (String c t))).
Proof.
  intros Hc. unfold parseInt10. simpl trim_start. rewrite (digit_not_ws c Hc).
  destruct (digit_not_sign c Hc) as [Hm Hp]. simpl strip_sign. rewrite Hm, Hp.
  simpl digit_prefix. rewrite Hc. now rewrite Z.mul_1_l.
Qed.

(** A capture made only of decimal digits is coerced to the integer it
    denotes. *)
Lemma convert_token_digits (t : string) :
  t <> "" -> all_digits t = true -> convert_token t = VNum (digits_value t).
Proof.
  intros Hne Hd. unfold convert_token.
  rewrite re_test_digits, (all_digits_has_digit t Hne Hd).
  destruct t as [|c t']; [contradiction|].
  simpl in Hd. apply andb_prop in Hd as [Hc Hd'].
  rewrite parseInt10_digit_start by exact Hc.
  now rewrite (digit_prefix_all (String c t')) by (simpl; now rewrite Hc, Hd').
Qed.

(** C30: [convertIntDigitsWhenPossible] hands every capture made only of
    decimal digits to the handler as the integer it denotes, in order and
    one value per capture. *)
Theorem convertIntDigits_digits (ts : list string) :
  Forall (fun t => t <> "" /\ all_digits t = true) ts ->
  convertIntDigitsWhenPossible ts = map (fun t => VNum (digits_value t)) ts.
Proof.
  induction 1 as [|t ts [Hne Hd] _ IH]; [reflexivity|].
  cbn [convertIntDigitsWhenPossible map]. rewrite (convert_token_digits t Hne Hd).
  f_equal. exact IH.
Qed.

(** C31: a capture with no decimal digit reaches the handler unchanged,
    as a string. *)
Theorem convert_token_no_digit (t : string) :
  has_digit t = false -> convert_token t = VStr t.
Proof. intros H. unfold convert_token. now rewrite re_test_digits, H. Qed.

(** C32: a capture that contains a digit anywhere is never delivered as
    a string: it becomes a number or NaN, whatever else it contains
    (the spec says only purely numeric captures are coerced). *)
Theorem convert_token_never_string (t : string) :
  has_digit t = true -> forall s, convert_token t <> VStr s.
Proof.
  intros H s. unfold convert_token. rewrite re_test_digits, H.
  unfold parseInt10. destruct (strip_sign (trim_start t)) as [sg t'].
  destruct (digit_prefix t'); discriminate.
Qed.

(** C33: digits followed by a non-digit, such as ["4.2"], are coerced
    to the integer of the leading digits. *)
Theorem convert_token_digit_prefix (d q : string) :
  d <> "" -> all_digits d = true ->
  (forall c q', q = String c q' -> is_digit c = false) ->
  convert_token (d ++ q) = VNum (digits_value d).
Proof.
  intros Hne Hd Hq. unfold convert_token. rewrite re_test_digits.
  destruct d as [|c d']; [contradiction|].
  simpl in Hd. apply andb_prop in Hd as [Hc Hd']. simpl has_digit. rewrite Hc.
  simpl orb. cbv iota beta.
  change (String c d' ++ q) with (String c (d' ++ q)).
  rewrite parseInt10_digit_start by exact Hc.
  do 2 f_equal. simpl. rewrite Hc. f_equal.
  clear c Hc Hne. induction d' as [|c d IH]; simpl.
  - destruct q as [|c q']; [reflexivity|]. simpl. now rewrite (Hq c q' eq_refl).
  - simpl in Hd'. apply andb_prop in Hd' as [-> Hd]. now rewrite IH.
Qed.

Lemma convertIntDigits_digits_witness :
  convertIntDigitsWhenPossible ["42"; "007"] = [VNum 42%Z; VNum 7%Z].
Proof.
  apply (convertIntDigits_digits ["42"; "007"]).
  repeat constructor; (discriminate || reflexivity).
Defined.

Lemma convert_token_no_digit_witness : convert_token "abc" = VStr "abc".
Proof. apply convert_token_no_digit. reflexivity. Defined.

Lemma convert_token_never_string_witness : convert_token "4.2" <> VStr "4.2".
Proof. apply (convert_token_never_string "4.2"). reflexivity. Defined.

Lemma convert_token_digit_prefix_witness : convert_token ("4" ++ ".2") = VNum (digits_value "4").
Proof.
  apply convert_token_digit_prefix; [discriminate|reflexivity|].
  intros c q' Hq. injection Hq as <- _. reflexivity.
Defined.


End JsValue.
