(* ===== verification/State.v ===== *)
(** * The engine state [ParsingState]

    [ParsingState] is imported from ./state by parser.ts and section.ts,
    but state.ts is not part of the sources; its four members are taken
    from their uses (wait_for_header, wait_for_section, inside_section,
    end) and from the spec's DocumentState. *)

From S2P Require Import Prelude.

Module State.

Inductive ParsingState : Type :=
| wait_for_header
| wait_for_section
| inside_section
| end_.

#[export] Instance ParsingState_eq_dec : EqDecision ParsingState.
Proof. solve_decision. Defined.

End State.
