(* ===== verification/Exceptions.v ===== *)
(** * Exceptions (exceptions.ts)

    [SteinlibParsingException] and its subclass
    [UnrecognizedSectionException], plus the other values a JavaScript
    [throw] can carry in this program: the TypeError and SyntaxError of
    the runtime and whatever a handler callback throws ([JsError]). *)

From S2P Require Import Prelude.

Module Exceptions.

Inductive exn : Type :=
| SteinlibParsingException (msg : string)
| UnrecognizedSectionException (msg : string)
| JsError (name msg : string).

#[export] Instance exn_eq_dec : EqDecision exn.
Proof. solve_decision. Defined.

(** [ex instanceof SteinlibParsingException]: true for the subclass too. *)
Definition is_SteinlibParsingException (e : exn) : bool :=
  match e with
  | SteinlibParsingException _ | UnrecognizedSectionException _ => true
  | JsError _ _ => false
  end.

(** [ex instanceof UnrecognizedSectionException] *)
Definition is_UnrecognizedSectionException (e : exn) : bool :=
  match e with
  | UnrecognizedSectionException _ => true
  | _ => false
  end.

Definition TypeError (msg : string) : exn := JsError "TypeError" msg.
Definition SyntaxError (msg : string) : exn := JsError "SyntaxError" msg.

End Exceptions.
