(* ===== verification/Handler.v ===== *)
(** * The handler ("steinerInstance")

    The engine calls the handler's slots by name: [steinerInstance[name]]
    (parser.ts 55, 96; section.ts 57).  A handler is any object: the
    model makes it a type [H] with a [SteinerInstance] instance giving, in each
    state of the object, what a slot holds.  A callable slot is a
    computation in the exception-state monad over [H], so a callback may
    change the handler (even its own slots) and may throw.

    The code calls a slot in two ways: [if (callback) callback(..)]
    ([call_if_truthy], parser.ts 55-58 and section.ts 57-60) and
    [callback?.(..)] ([call_optional], parser.ts 96-97); they differ on a
    falsy slot such as [false] or [0], which the first skips and the
    second calls (a TypeError).

    [recorder] is a handler created with [Object.create(null)] whose own
    slots record their calls; [faulty] also has slots that throw.  The
    scenarios use them. *)

From S2P Require Import Prelude JsValue Exceptions.
Local Open Scope string_scope.

Module Handler.
Import JsValue Exceptions.

(** What [steinerInstance[name]] holds. *)
Inductive slot (H : Type) : Type :=
| Undefined                    (** [undefined] or [null] *)
| Falsy                        (** [false], [0], [""], [NaN] *)
| NonCallable                  (** a truthy value that is not a function *)
| Callable (f : string -> list value -> st H exn unit).
Arguments Undefined {H}.
Arguments Falsy {H}.
Arguments NonCallable {H}.
Arguments Callable {H} f.

Class SteinerInstance (H : Type) := get_slot : H -> string -> slot H.

Section Calls.
Context {H : Type} `{SteinerInstance H}.

  (** [const callback = h[name]; if (callback) callback(line, args);] *)
Definition call_if_truthy (name line : string) (args : list value) : st H exn unit :=
    fun h => match get_slot h name with
             | Callable f => f line args h
             | NonCallable => (Throw (TypeError "callback is not a function"), h)
             | Undefined | Falsy => (Ok tt, h)
             end.

  (** [const callback = h[name]; callback?.(line, args);] *)
Definition call_optional (name line : string) (args : list value) : st H exn unit :=
    fun h => match get_slot h name with
             | Callable f => f line args h
             | Undefined => (Ok tt, h)
             | Falsy | NonCallable => (Throw (TypeError "callback is not a function"), h)
             end.

Lemma call_if_truthy_absent name line args h :
    get_slot h name = Undefined -> call_if_truthy name line args h = (Ok tt, h).
  Proof. unfold call_if_truthy. now intros ->. Qed.

Lemma call_optional_absent name line args h :
    get_slot h name = Undefined -> call_optional name line args h = (Ok tt, h).
  Proof. unfold call_optional. now intros ->. Qed.
End Calls.

(** ** A recording handler *)

Record event : Type := mkevent { ev_name : string; ev_line : string; ev_args : list value }.

Record recorder : Type := mkrecorder { rec_slots : list string; rec_log : list event }.

Definition record (name line : string) (args : list value) : st recorder exn unit :=
  fun h => (Ok tt, mkrecorder (rec_slots h) (rec_log h ++ [mkevent name line args])).

#[export] Instance recorder_handler : SteinerInstance recorder :=
  fun h name => if existsb (String.eqb name) (rec_slots h)
                then Callable (record name) else Undefined.

(** A handler whose listed slots throw a plain [Error] when called; its
    other slots behave as those of the recorder it wraps. *)
Record faulty : Type := mkfaulty { failing_slots : list string; faulty_rec : recorder }.

#[export] Instance faulty_handler : SteinerInstance faulty :=
  fun h name =>
    if existsb (String.eqb name) (failing_slots h)
    then Callable (fun _ _ h' => (Throw (JsError "Error" "callback failed"), h'))
    else if existsb (String.eqb name) (rec_slots (faulty_rec h))
    then Callable (fun line args h' =>
                     match record name line args (faulty_rec h') with
                     | (o, r) => (o, mkfaulty (failing_slots h') r)
                     end)
    else Undefined.

(** A handler whose listed slots hold a falsy value that is not a
    function ([false], [0], [""]); its other slots behave as those of the
    recorder it wraps. *)
Record stubbed : Type := mkstubbed { falsy_slots : list string; stubbed_rec : recorder }.

#[export] Instance stubbed_handler : SteinerInstance stubbed :=
  fun h name =>
    if existsb (String.eqb name) (falsy_slots h) then Falsy
    else if existsb (String.eqb name) (rec_slots (stubbed_rec h))
    then Callable (fun line args h' =>
                     match record name line args (stubbed_rec h') with
                     | (o, r) => (o, mkstubbed (falsy_slots h') r)
                     end)
    else Undefined.

End Handler.
