(* ===== verification/Section.v ===== *)
(** * Section parsers (section.ts)

    [SectionParser] and its seven subclasses become one [section_kind]
    with a constructor per subclass; the overridden members
    ([callbackToken], [getKnownTokens], [getRegexForToken]) become
    functions of the kind.  A token table keeps the insertion order of
    the object literal, which is the order of [Object.entries].

    [getParsedTokens] (28-47) scans every entry, compiles its pattern
    with [new RegExp(tokenRegex, "i")] and keeps the last entry that
    matches; [parseToken] (49-68) throws when nothing matched, else
    calls [<callbackToken>__<name>] with the coerced captures and
    returns the entry's next state. *)

From S2P Require Import Prelude JsString JsRegExp JsValue State Exceptions Handler.
Local Open Scope string_scope.

Module Section.
Import JsString JsRegExp JsValue State Exceptions Handler.

Inductive section_kind : Type :=
| Comment | Coordinates | Graph | MaximumDegrees | Obstacles | Presolve | Terminals.

#[export] Instance section_kind_eq_dec : EqDecision section_kind.
Proof. solve_decision. Defined.

(** [interface TokenMeta { regex?: string; next_state?: ParsingState }] *)
Record TokenMeta : Type := mkmeta { regex : option string; next_state : option ParsingState }.

Definition DEFAULT_SECTION_END : TokenMeta :=
  mkmeta (Some "^END$") (Some wait_for_section).

Definition tok (re : string) : TokenMeta := mkmeta (Some re) None.

Definition callbackToken (k : section_kind) : string :=
  match k with
  | Comment => "comment"
  | Coordinates => "coordinates"
  | Graph => "graph"
  | MaximumDegrees => "maximum_degrees"
  | Obstacles => "obstacles"
  | Presolve => "presolve"
  | Terminals => "terminals"
  end.

(** The Comment patterns ['^Name(?:\\s+)"(.+)"$'] and so on. *)
Definition quoted_field (kw : string) : string :=
  "^" ++ kw ++ "(?:\s+)" ++ dq ++ "(.+)" ++ dq ++ "$".

Definition getKnownTokens (k : section_kind) : list (string * TokenMeta) :=
  match k with
  | Comment =>
      [("name", tok (quoted_field "Name"));
       ("creator", tok (quoted_field "Creator"));
       ("remark", tok (quoted_field "Remark"));
       ("problem", tok (quoted_field "Problem"));
       ("end", DEFAULT_SECTION_END)]
  | Coordinates =>
      [("dd", mkmeta None None);
       ("end", DEFAULT_SECTION_END)]
  | Graph =>
      [("obstacles", tok "^Obstacles(?:\s+)(.+)$");
       ("nodes", tok "^Nodes\s+(\d+)$");
       ("edges", tok "^Edges\s+(\d+)$");
       ("arcs", tok "^Arcs\s+(\d+)$");
       ("e", tok "^E\s+(\d+)\s+(\d+)\s+(\d+)$");
       ("a", tok "^A\s+(\d+)\s+(\d+)\s+(\d+)$");
       ("end", DEFAULT_SECTION_END)]
  | MaximumDegrees =>
      [("md", tok "^MD\s+(\d+)$");
       ("end", DEFAULT_SECTION_END)]
  | Presolve =>
      [("fixed", tok "^FIXED\s+(\d+)$");
       ("lower", tok "^LOWER\s+(\d+)$");
       ("upper", tok "^UPPER\s+(\d+)$");
       ("time", tok "^TIME\s+(\d+)$");
       ("orgnodes", tok "^ORGNODES\s+(\d+)$");
       ("orgedges", tok "^ORGEDGES\s+(\d+)$");
       ("ea", tok "^EA\s+(\d+)\s+(\d+)\s+(\d+)\s+(\d+)$");
       ("ec", tok "^EC\s+(\d+)\s+(\d+)\s+(\d+)$");
       ("ed", tok "^ED\s+(\d+)\s+(\d+)\s+(\d+)$");
       ("es", tok "^ES\s+(\d+)\s+(\d+)$");
       ("end", DEFAULT_SECTION_END)]
  | Obstacles =>
      [("rr", tok "^RR\s+(\d+)\s+(\d+)\s+(\d+)\s+(\d+)$");
       ("end", DEFAULT_SECTION_END)]
  | Terminals =>
      [("terminals", tok "^Terminals\s+(\d+)$");
       ("rootp", tok "^RootP\s+(\d+)$");
       ("t", tok "^T\s+(\d+)$");
       ("tp", tok "^TP\s+(\d+)$");
       ("end", DEFAULT_SECTION_END)]
  end.

(** [meta.regex || ""] *)
Definition default_regex (meta : TokenMeta) : string :=
  match regex meta with Some r => r | None => "" end.

(** [CoordinatesSectionParser.getDdRegex]: one [\s+(\d+)] per
    white-space separated word after the first. *)
Definition getDdRegex (line : string) : string :=
  let tokenCount := List.length (split_ws line) - 1 in
  "^DD" ++ repeat "\s+(\d+)" tokenCount ++ "$".

Definition getRegexForToken (k : section_kind) (token : string) (meta : TokenMeta)
           (line : string) : string :=
  match k with
  | Coordinates => if String.eqb token "dd" then getDdRegex line else default_regex meta
  | _ => default_regex meta
  end.

(** [sectionStart]: every section starts inside itself. *)
Definition sectionStart (k : section_kind) (line : string) : ParsingState :=
  inside_section.

(** ** getParsedTokens *)

(** The three locals of [getParsedTokens]. *)
Record parsed : Type := mkparsed {
  matchingName : option string;
  extractedTokens : option (list (option string));
  nextState : ParsingState
}.

(** [meta.next_state || ParsingState.inside_section] *)
Definition default_state (o : option ParsingState) : ParsingState :=
  match o with Some s => s | None => inside_section end.

(** The [for] loop over [Object.entries(knownTokens)]: every entry is
    tried and a match overwrites the three locals. *)
Fixpoint scan_tokens (k : section_kind) (line : string)
         (entries : list (string * TokenMeta)) (acc : parsed) : outcome exn parsed :=
  match entries with
  | [] => Ok acc
  | (name, meta) :: entries' =>
      match new_RegExp (getRegexForToken k name meta line) "i" with
      | None => Throw (SyntaxError "Invalid regular expression")
      | Some re =>
          match str_match re line with
          | Some groups =>
              scan_tokens k line entries'
                (mkparsed (Some name) (Some groups) (default_state (next_state meta)))
          | None => scan_tokens k line entries' acc
          end
      end
  end.

Definition getParsedTokens (k : section_kind) (line : string) : outcome exn parsed :=
  scan_tokens k line (getKnownTokens k) (mkparsed None None inside_section).

(** ** parseToken *)

Section ParseToken.
Context {H : Type} `{SteinerInstance H}.

Definition parseToken (k : section_kind) (line : string) : st H exn ParsingState :=
    match getParsedTokens k line with
    | Throw e => st_throw e
    | Ok p =>
        match matchingName p with
        | Some name =>
            if String.eqb name "" then
              st_throw (SteinlibParsingException ("Error parsing the following line: " ++ line))
            else
              let methodName := callbackToken k ++ "__" ++ name in
              let convertedTokens :=
                convertIntDigitsWhenPossible
                  (match extractedTokens p with
                   | Some ts => map template_of_group ts
                   | None => []
                   end) in
              st_bind (call_if_truthy methodName line convertedTokens)
                      (fun _ => st_ret (nextState p))
        | None =>
            st_throw (SteinlibParsingException ("Error parsing the following line: " ++ line))
        end
    end.
End ParseToken.

(** ** The Coordinates pattern compiles for every line *)

Definition dd_group (i : nat) : pattern := RGroup i (RSeq (RPlus CDigit) REmpty).

(** The atoms [\s+(\d+)] repeated [t] times from group [n+1] on, most
    recent first (as the pattern parser accumulates them). *)
Fixpoint dd_rev (n t : nat) : list pattern :=
  match t with
  | O => []
  | S t' => (dd_rev (S n) t' ++ [dd_group (S n); RPlus CSpace])%list
  end.

Lemma parse_pat_dd_unit rest n cur stack :
  parse_pat ("\s+(\d+)" ++ rest) n cur stack =
  parse_pat rest (S n) (dd_group (S n) :: RPlus CSpace :: cur) stack.
Proof. reflexivity. Qed.

Lemma parse_pat_dd_repeat t : forall rest n cur stack,
  parse_pat (repeat "\s+(\d+)" t ++ rest) n cur stack =
  parse_pat rest (n + t) (dd_rev n t ++ cur)%list stack.
Proof.
  induction t as [|t IH]; intros rest n cur stack; cbn [repeat].
  - now rewrite Nat.add_0_r.
  - rewrite <- string_app_assoc, parse_pat_dd_unit, IH. cbn [dd_rev].
    rewrite <- app_assoc. replace (n + S t) with (S n + t) by lia. reflexivity.
Qed.

(** The regexp [getDdRegex] builds for a line with [t+1] words. *)
Definition dd_regexp (line : string) : regexp :=
  let t := List.length (split_ws line) - 1 in
  mkregexp (getDdRegex line) (mkflags false true false)
    (seq_of (rev (REol :: dd_rev 0 t ++ [RChar (CLit "D"); RChar (CLit "D"); RBol]))) t.

Lemma getDdRegex_compiles (line : string) :
  new_RegExp (getDdRegex line) "i" = Some (dd_regexp line).
Proof.
  unfold new_RegExp, dd_regexp. simpl parse_flags. cbv iota.
  unfold getDdRegex at 2.
  change ("^DD" ++ ?r) with (String "^" (String "D" (String "D" r))).
  simpl parse_pat. rewrite parse_pat_dd_repeat. reflexivity.
Qed.

(** ** The last rule of a table wins when it matches *)

Definition compiles (k : section_kind) (line : string) (e : string * TokenMeta) : Prop :=
  new_RegExp (getRegexForToken k (fst e) (snd e) line) "i" <> None.

Lemma scan_tokens_last k line pre name meta re gs : forall acc,
  Forall (compiles k line) pre ->
  new_RegExp (getRegexForToken k name meta line) "i" = Some re ->
  str_match re line = Some gs ->
  scan_tokens k line (pre ++ [(name, meta)]) acc =
    Ok (mkparsed (Some name) (Some gs) (default_state (next_state meta))).
Proof.
  induction pre as [|[n0 m0] pre IH]; intros acc Hpre Hre Hm; simpl.
  - now rewrite Hre, Hm.
  - inversion Hpre as [|x l Hc Hpre']; subst. unfold compiles in Hc. simpl in Hc.
    destruct (new_RegExp (getRegexForToken k n0 m0 line) "i") as [re0|]; [|contradiction].
    destruct (str_match re0 line); apply IH; assumption.
Qed.

(** Every table ends with the END rule, and every rule before it
    compiles whatever the line. *)
Lemma getKnownTokens_end k line :
  exists pre, getKnownTokens k = (pre ++ [("end", DEFAULT_SECTION_END)])%list /\
              Forall (compiles k line) pre.
Proof.
  exists (removelast (getKnownTokens k)). split; [destruct k; reflexivity|].
  destruct k; simpl; repeat apply Forall_cons; try apply Forall_nil;
    unfold compiles; simpl; try (rewrite getDdRegex_compiles); vm_compute; congruence.
Qed.

Lemma end_regexp :
  new_RegExp "^END$" "i" =
    Some (mkregexp "^END$" (mkflags false true false)
                   (RSeq RBol (seq_of (lits "END" ++ [REol]))) 0).
Proof. reflexivity. Qed.

Lemma str_match_end line :
  ci_eqb line "END" = true ->
  str_match (mkregexp "^END$" (mkflags false true false)
                      (RSeq RBol (seq_of (lits "END" ++ [REol]))) 0) line = Some [].
Proof.
  intros H. unfold str_match. cbn [rflags prog ignoreCase ngroups].
  rewrite search_bol, m_anchored_word, H. reflexivity.
Qed.

(** A line equal to ["END"] up to case selects the END rule of every
    section, with no captures and wait_for_section as next state. *)
Lemma getParsedTokens_end k line :
  ci_eqb line "END" = true ->
  getParsedTokens k line = Ok (mkparsed (Some "end") (Some []) wait_for_section).
Proof.
  intros H. unfold getParsedTokens.
  destruct (getKnownTokens_end k line) as (pre & -> & Hpre).
  eapply scan_tokens_last; [exact Hpre| |exact (str_match_end line H)].
  destruct k; exact end_regexp.
Qed.

Section EndRule.
Context {H : Type} `{SteinerInstance H}.

  (** C18: in every section, a line equal to ["END"] up to case calls
      [<callbackToken>__end] with no arguments and closes the section
      (next state wait_for_section). *)
Theorem parseToken_end k line (h : H) :
    ci_eqb line "END" = true ->
    parseToken k line h =
      st_bind (call_if_truthy (callbackToken k ++ "__end") line [])
              (fun _ => st_ret wait_for_section) h.
  Proof.
    intros Hl. unfold parseToken. rewrite (getParsedTokens_end k line Hl).
    reflexivity.
  Qed.
End EndRule.

(** ** Last match wins *)

(** The groups of an entry's pattern on the line, if it matches. *)
Definition rule_match (k : section_kind) (line : string) (e : string * TokenMeta)
  : option (list (option string)) :=
  match new_RegExp (getRegexForToken k (fst e) (snd e) line) "i" with
  | Some re => str_match re line
  | None => None
  end.

(** Reference: the last entry of a table whose pattern matches. *)
Fixpoint last_match (k : section_kind) (line : string) (entries : list (string * TokenMeta))
  : option ((string * TokenMeta) * list (option string)) :=
  match entries with
  | [] => None
  | e :: es =>
      match last_match k line es with
      | Some r => Some r
      | None => option_map (fun gs => (e, gs)) (rule_match k line e)
      end
  end.

Definition selected (acc : parsed)
           (r : option ((string * TokenMeta) * list (option string))) : parsed :=
  match r with
  | Some ((n, meta), gs) => mkparsed (Some n) (Some gs) (default_state (next_state meta))
  | None => acc
  end.

Lemma scan_tokens_last_match k line entries : forall acc,
  Forall (compiles k line) entries ->
  scan_tokens k line entries acc = Ok (selected acc (last_match k line entries)).
Proof.
  induction entries as [|[n0 m0] es IH]; intros acc Hc; simpl; [reflexivity|].
  inversion Hc as [|x l Hc0 Hcs]; subst. unfold compiles in Hc0. unfold rule_match.
  simpl in *. destruct (new_RegExp (getRegexForToken k n0 m0 line) "i") as [re|];
    [|contradiction].
  destruct (str_match re line) as [gs|]; rewrite IH by exact Hcs;
    destruct (last_match k line es); reflexivity.
Qed.

Lemma getKnownTokens_compile k line : Forall (compiles k line) (getKnownTokens k).
Proof.
  destruct (getKnownTokens_end k line) as (pre & -> & Hpre).
  apply Forall_app; split; [exact Hpre|].
  repeat constructor. unfold compiles. destruct k; vm_compute; congruence.
Qed.


Lemma parseToken_end_witness :
  parseToken (H:=recorder) Graph "End" (mkrecorder ["graph__end"] []) =
  st_bind (call_if_truthy (callbackToken Graph ++ "__end") "End" [])
          (fun _ => st_ret wait_for_section) (mkrecorder ["graph__end"] []).
Proof. apply parseToken_end. reflexivity. Defined.

End Section.
