(* ===== verification/Grammar.v ===== *)
(** * The section grammars are unambiguous

    [getParsedTokens] (section.ts 29-48) tries every rule of a section's
    table and keeps the last that matches.  This file shows that the
    order never matters: every pattern of every table, the Coordinates
    pattern built from the line included, starts with a distinct keyword
    of word characters followed by white space or the end of the line, so
    no line matches two rules of one table.  [getParsedTokens] and
    [parseToken] therefore act on the one rule that matches, whatever its
    place in the table. *)

From S2P Require Import Prelude JsString JsRegExp RegExpShapes JsValue State Exceptions Handler Section.
Local Open Scope string_scope.

Module Grammar.
Import JsString JsRegExp RegExpShapes JsValue State Exceptions Handler Section.

(** The keyword of a rule of table [k] when the line is [line]. *)
Definition entry_keyword (k : section_kind) (line : string) (e : string * TokenMeta)
  : option string :=
  match new_RegExp (getRegexForToken k (fst e) (snd e) line) "i" with
  | Some re => keyword re
  | None => None
  end.

(** The facts on a table checked by evaluation: every rule has a non-empty
    name and a keyword of word characters, and the keywords differ up to
    case. *)
Definition table_ok (k : section_kind) : bool :=
  forallb (fun e => negb (String.eqb (fst e) "") &&
                    match entry_keyword k "" e with
                    | Some w => all_chars is_word w
                    | None => false
                    end) (getKnownTokens k)
  && pairwise_distinct (entry_keyword k "") (getKnownTokens k).

Lemma table_ok_all k : table_ok k = true.
Proof. destruct k; vm_compute; reflexivity. Qed.

Lemma dd_keyword line : keyword (dd_regexp line) = Some "DD".
Proof.
  unfold keyword, dd_regexp. cbn [prog].
  destruct (List.length (split_ws line) - 1) as [|t]; [reflexivity|].
  cbn [dd_rev rev]. rewrite !rev_app_distr. reflexivity.
Qed.

(** The keywords do not depend on the line, although the Coordinates
    pattern does. *)
Lemma entry_keyword_line k line e : entry_keyword k line e = entry_keyword k "" e.
Proof.
  unfold entry_keyword. destruct k; try reflexivity. cbn [getRegexForToken].
  destruct (String.eqb (fst e) "dd"); [|reflexivity].
  now rewrite !getDdRegex_compiles, !dd_keyword.
Qed.

Lemma new_RegExp_i src re : new_RegExp src "i" = Some re -> ignoreCase (rflags re) = true.
Proof.
  unfold new_RegExp. cbn [parse_flags Ascii.eqb no_flags global ignoreCase]. simpl.
  destruct (parse_pat src 0 [] []) as [[r n]|]; intros H; inversion H; reflexivity.
Qed.

Lemma rule_match_keyword k line e gs :
  In e (getKnownTokens k) -> rule_match k line e = Some gs ->
  exists w s, entry_keyword k "" e = Some w /\ all_chars is_word w = true /\
              lit_prefix true w line = Some s /\ (s = "" \/ starts_ws s = true).
Proof.
  intros Hin Hm. pose proof (table_ok_all k) as Hok. unfold table_ok in Hok.
  apply andb_prop in Hok as [Hall _]. rewrite forallb_forall in Hall.
  specialize (Hall e Hin). apply andb_prop in Hall as [_ Hw].
  rewrite <- (entry_keyword_line k line) in Hw |- *.
  unfold rule_match in Hm. unfold entry_keyword in Hw |- *.
  destruct (new_RegExp _ "i") as [re|] eqn:Hre; [|discriminate].
  destruct (keyword re) as [w|] eqn:Hk; [|discriminate].
  destruct (keyword_sound re line gs w Hk Hm) as (s & Hl & Hs).
  rewrite (new_RegExp_i _ _ Hre) in Hl. exists w, s. auto.
Qed.

(** Two rules of one table that match one line are the same rule. *)
Lemma rule_match_unique k line e1 e2 gs1 gs2 :
  In e1 (getKnownTokens k) -> In e2 (getKnownTokens k) ->
  rule_match k line e1 = Some gs1 -> rule_match k line e2 = Some gs2 -> e1 = e2.
Proof.
  intros H1 H2 M1 M2.
  destruct (rule_match_keyword _ _ _ _ H1 M1) as (w1 & s1 & K1 & W1 & L1 & S1).
  destruct (rule_match_keyword _ _ _ _ H2 M2) as (w2 & s2 & K2 & W2 & L2 & S2).
  pose proof (table_ok_all k) as Hok. apply andb_prop in Hok as [_ Hpd].
  apply (pairwise_distinct_eq _ _ _ _ _ _ Hpd H1 H2 K1 K2).
  exact (sep_prefix_unique w2 w1 line s2 s1 W2 W1 L2 S2 L1 S1).
Qed.

Lemma table_keys k : List.NoDup (map fst (getKnownTokens k)).
Proof. destruct k; vm_compute; repeat constructor; simpl; intuition discriminate. Qed.

(** C11: the grammar of every section is unambiguous: whatever the line,
    at most one rule of the section's table matches it (the Coordinates
    rule with the pattern built from that line), so the order of the
    rules, and the last-match-wins loop of [getParsedTokens], never
    decide which rule applies. *)
Theorem table_unambiguous k line :
  length (List.filter (fun e => match rule_match k line e with Some _ => true | None => false end) (getKnownTokens k)) <= 1.
Proof.
  apply (filter_at_most_one _ fst _ (table_keys k)).
  intros x y Hx Hy Fx Fy.
  destruct (rule_match k line x) eqn:Mx; [|discriminate].
  destruct (rule_match k line y) eqn:My; [|discriminate].
  exact (rule_match_unique _ _ _ _ _ _ Hx Hy Mx My).
Qed.

Lemma last_match_some k line entries e gs :
  last_match k line entries = Some (e, gs) -> In e entries /\ rule_match k line e = Some gs.
Proof.
  induction entries as [|e0 es IH]; simpl; [discriminate|]. intros H.
  destruct (last_match k line es) as [r|] eqn:E.
  - injection H as ->. destruct (IH eq_refl). auto.
  - destruct (rule_match k line e0) eqn:R; simpl in H; [|discriminate].
    injection H as <- <-. auto.
Qed.

Lemma last_match_none k line entries e :
  last_match k line entries = None -> In e entries -> rule_match k line e = None.
Proof.
  induction entries as [|e0 es IH]; simpl; [contradiction|]. intros H [<-|Hin].
  - destruct (last_match k line es); [discriminate|].
    destruct (rule_match k line e0); [discriminate|reflexivity].
  - destruct (last_match k line es); [discriminate|]. auto.
Qed.

Lemma getParsedTokens_selected k line :
  getParsedTokens k line =
    Ok (selected (mkparsed None None inside_section) (last_match k line (getKnownTokens k))).
Proof. apply scan_tokens_last_match, getKnownTokens_compile. Qed.

Lemma table_names k e : In e (getKnownTokens k) -> String.eqb (fst e) "" = false.
Proof.
  intros Hin. pose proof (table_ok_all k) as Hok. apply andb_prop in Hok as [Hall _].
  rewrite forallb_forall in Hall. apply Hall, andb_prop in Hin as [Hn _].
  now apply negb_true_iff in Hn.
Qed.

(** When a rule of the table matches the line, [getParsedTokens] returns
    that rule's name, groups and next state, wherever it stands in the
    table. *)
Lemma getParsedTokens_match k line e gs :
  In e (getKnownTokens k) -> rule_match k line e = Some gs ->
  getParsedTokens k line = Ok (mkparsed (Some (fst e)) (Some gs) (default_state (next_state (snd e)))).
Proof.
  intros Hin Hm. rewrite getParsedTokens_selected.
  destruct (last_match k line (getKnownTokens k)) as [[e' gs']|] eqn:E.
  - destruct (last_match_some _ _ _ _ _ E) as [Hin' Hm'].
    pose proof (rule_match_unique _ _ _ _ _ _ Hin Hin' Hm Hm') as <-.
    rewrite Hm in Hm'. injection Hm' as <-. destruct e as [n meta]. reflexivity.
  - rewrite (last_match_none _ _ _ _ E Hin) in Hm. discriminate.
Qed.

Section Behaviour.
Context {H : Type} `{SteinerInstance H}.

(** C13: [parseToken] on a line that a rule of the section's table
    matches calls the handler's [<section>__<rule>] callback, if it is
    set, with the line and the rule's groups coerced by
    [convertIntDigitsWhenPossible], and moves to the rule's next state;
    the other rules of the table play no part. *)
Theorem parseToken_match k line e gs (h : H) :
  In e (getKnownTokens k) -> rule_match k line e = Some gs ->
  parseToken k line h =
    st_bind (call_if_truthy (callbackToken k ++ "__" ++ fst e) line
                            (convertIntDigitsWhenPossible (map template_of_group gs)))
            (fun _ => st_ret (default_state (next_state (snd e)))) h.
Proof.
  intros Hin Hm. unfold parseToken. rewrite (getParsedTokens_match _ _ _ _ Hin Hm).
  cbn [matchingName extractedTokens nextState]. now rewrite (table_names _ _ Hin).
Qed.

(** C14: [parseToken] on a line that no rule of the table matches throws
    a [SteinlibParsingException] naming the line and leaves the handler
    unchanged. *)
Theorem parseToken_no_match k line (h : H) :
  (forall e, In e (getKnownTokens k) -> rule_match k line e = None) ->
  parseToken k line h =
    (Throw (SteinlibParsingException ("Error parsing the following line: " ++ line)), h).
Proof.
  intros Hnone. unfold parseToken. rewrite getParsedTokens_selected.
  destruct (last_match k line (getKnownTokens k)) as [[e gs]|] eqn:E; [|reflexivity].
  destruct (last_match_some _ _ _ _ _ E) as [Hin Hm]. now rewrite Hnone in Hm.
Qed.
End Behaviour.

Lemma parseToken_match_witness :
  In ("edges", tok "^Edges\s+(\d+)$") (getKnownTokens Graph) /\
  rule_match Graph "Edges 3" ("edges", tok "^Edges\s+(\d+)$") = Some [Some "3"] /\
  parseToken Graph "Edges 3" (mkrecorder ["graph__edges"] []) =
    st_bind (call_if_truthy "graph__edges" "Edges 3" [VNum 3%Z])
            (fun _ => st_ret inside_section) (mkrecorder ["graph__edges"] []).
Proof.
  assert (Hin : In ("edges", tok "^Edges\s+(\d+)$") (getKnownTokens Graph))
    by (simpl; tauto).
  assert (Hm : rule_match Graph "Edges 3" ("edges", tok "^Edges\s+(\d+)$") = Some [Some "3"])
    by (vm_compute; reflexivity).
  split; [exact Hin|]. split; [exact Hm|].
  exact (parseToken_match Graph "Edges 3" _ _ (mkrecorder ["graph__edges"] []) Hin Hm).
Defined.

Lemma parseToken_no_match_witness :
  (forall e, In e (getKnownTokens Graph) -> rule_match Graph "Edge 3" e = None) /\
  parseToken Graph "Edge 3" (mkrecorder [] []) =
    (Throw (SteinlibParsingException ("Error parsing the following line: " ++ "Edge 3")),
     mkrecorder [] []).
Proof.
  assert (Hn : forall e, In e (getKnownTokens Graph) -> rule_match Graph "Edge 3" e = None).
  { intros e Hin. simpl in Hin.
    repeat (destruct Hin as [<-|Hin]; [vm_compute; reflexivity|]). contradiction. }
  split; [exact Hn|]. exact (parseToken_no_match Graph "Edge 3" (mkrecorder [] []) Hn).
Defined.

End Grammar.
