(* ===== verification/Coordinates.v ===== *)
(** * The Coordinates rule adapts to the line

    [CoordinatesSectionParser.getDdRegex] (section.ts 151-155) builds the
    pattern of the [dd] rule from the line it is tested on: one
    [\s+(\d+)] per white-space separated word after the first.  This
    file shows that on a line [DD] followed by [n] integers, each after a
    run of white space, the built pattern matches with exactly those [n]
    integers as its groups, so [getParsedTokens] reports the rule [dd]
    with all the coordinates, whatever their number. *)

From S2P Require Import Prelude JsString JsRegExp RegExpShapes JsValue State Exceptions Handler Section Grammar.
Local Open Scope string_scope.

Module Coordinates.
Import JsString JsRegExp JsValue State Handler Section Grammar.

(** ** Lines of coordinates *)

(** A coordinate field: a run of white space and a run of digits. *)
Definition dd_field (f : string * string) : bool :=
  let (sep, d) := f in
  negb (String.eqb sep "") && all_chars is_ws sep &&
  negb (String.eqb d "") && all_digits d.

Fixpoint dd_tail (ds : list (string * string)) : string :=
  match ds with
  | [] => ""
  | (sep, d) :: ds' => sep ++ d ++ dd_tail ds'
  end.

(** The captures the pattern records for the fields, numbered from
    [n+1], most recent first. *)
Fixpoint dd_caps (n : nat) (ds : list (string * string)) (cs : list (nat * string))
  : list (nat * string) :=
  match ds with
  | [] => cs
  | (_, d) :: ds' => dd_caps (S n) ds' ((S n, d) :: cs)
  end.

(** ** The words of a coordinates line *)

Lemma all_digits_nonws d : all_digits d = true -> all_chars (fun c => negb (is_ws c)) d = true.
Proof.
  induction d as [|c d IH]; simpl; [reflexivity|]. intros H.
  apply andb_prop in H as [Hc Hd]. now rewrite (digit_not_ws c Hc), IH.
Qed.

Lemma dd_field_parts sep d :
  dd_field (sep, d) = true ->
  sep <> "" /\ all_chars is_ws sep = true /\ d <> "" /\ all_digits d = true.
Proof.
  unfold dd_field. intros H.
  destruct (String.eqb_spec sep ""), (String.eqb_spec d ""); simpl in H;
    rewrite ?andb_false_r in H; try discriminate H.
  apply andb_prop in H as [H1 H2]. rewrite andb_true_r in H1. auto.
Qed.

Lemma dd_tail_head ds :
  forallb dd_field ds = true -> dd_tail ds = "" \/ starts_ws (dd_tail ds) = true.
Proof.
  destruct ds as [|[sep d] ds]; simpl; [auto|]. intros H.
  apply andb_prop in H as [Hf _]. apply dd_field_parts in Hf as (Hs & Hw & _).
  destruct sep as [|c sep]; [contradiction|]. simpl in Hw |- *.
  apply andb_prop in Hw as [Hc _]. auto.
Qed.

Lemma split_ws_dd_tail ds :
  forallb dd_field ds = true -> split_ws (dd_tail ds) = "" :: map snd ds.
Proof.
  induction ds as [|[sep d] ds IH]; simpl; [reflexivity|]. intros H.
  apply andb_prop in H as [Hf Hds]. pose proof (dd_field_parts _ _ Hf) as (Hs & Hw & Hd & Hdd).
  rewrite split_ws_run; [| exact Hs | exact Hw |].
  - rewrite (split_ws_nonws d _ "" (map snd ds) (all_digits_nonws d Hdd) (IH Hds)).
    now rewrite string_app_nil_r.
  - destruct d as [|c d]; [contradiction|]. simpl in Hdd |- *.
    apply andb_prop in Hdd as [Hc _]. exact (digit_not_ws c Hc).
Qed.

(** [line.split(/\s+/)] of a coordinates line: [DD] and the digits. *)
Lemma split_ws_dd_line ds :
  forallb dd_field ds = true -> split_ws ("DD" ++ dd_tail ds) = "DD" :: map snd ds.
Proof.
  intros H. rewrite (split_ws_nonws "DD" _ "" (map snd ds) eq_refl (split_ws_dd_tail ds H)).
  reflexivity.
Qed.

(** ** The pattern built for a coordinates line *)

Lemma rev_dd_rev n t :
  rev (dd_rev n (S t)) = RPlus CSpace :: dd_group (S n) :: rev (dd_rev (S n) t).
Proof. cbn [dd_rev]. rewrite rev_app_distr. reflexivity. Qed.

Lemma stops_at_digit_tail ds :
  forallb dd_field ds = true -> stops_at true CDigit (dd_tail ds).
Proof.
  intros H. destruct (dd_tail_head ds H) as [->|Hw]; [exact I|].
  destruct (dd_tail ds) as [|c t]; [exact I|]. simpl in Hw |- *.
  destruct (is_digit c) eqn:E; [|reflexivity].
  now rewrite (digit_not_ws c E) in Hw.
Qed.

Lemma all_digits_chars d : all_digits d = all_chars is_digit d.
Proof. induction d as [|c d IH]; simpl; [reflexivity|now rewrite IH]. Qed.

Lemma dd_tail_length sep d ds :
  String.length (dd_tail ((sep, d) :: ds)) =
    String.length sep + String.length d + String.length (dd_tail ds).
Proof. cbn [dd_tail]. rewrite !string_app_length. lia. Qed.

Section Fields.
Context {A : Type}.

(** The repeated [\s+(\d+)] atoms and the final [$] consume the fields
    and capture their digits. *)
Lemma m_dd_fields ds : forall n p cs (kont : mstate -> option A) x,
  forallb dd_field ds = true ->
  kont (mkst (p + String.length (dd_tail ds)) "" (dd_caps n ds cs)) = Some x ->
  m true (seq_of (rev (dd_rev n (length ds)) ++ [REol])) (mkst p (dd_tail ds) cs) kont = Some x.
Proof.
  induction ds as [|[sep d] ds IH]; intros n p cs kont x Hds Hk.
  - cbn in Hk |- *. now rewrite Nat.add_0_r in Hk.
  - simpl in Hds. apply andb_prop in Hds as [Hf Hds].
    destruct (dd_field_parts _ _ Hf) as (Hs & Hw & Hd & Hdd).
    rewrite dd_tail_length in Hk.
    destruct sep as [|c0 sw]; [contradiction|]. destruct d as [|c1 dw]; [contradiction|].
    simpl in Hw, Hdd. apply andb_prop in Hw as [Hc0 Hw]. apply andb_prop in Hdd as [Hc1 Hdw].
    cbn [length]. rewrite rev_dd_rev. cbn [app]. rewrite m_seq_cons.
    cbn [dd_tail String.append].
    apply (m_plus_run true CSpace c0 sw (String c1 (dw ++ dd_tail ds))); 
      [exact Hc0 | now rewrite all_cls_chars | exact (digit_not_ws c1 Hc1) |].
    rewrite m_seq_cons.
    apply (m_group_run true (S n) CDigit c1 dw (dd_tail ds));
      [exact Hc1 | rewrite all_cls_chars, <- all_digits_chars; exact Hdw | exact (stops_at_digit_tail ds Hds) |].
    apply IH; [exact Hds|]. rewrite <- Hk. cbn [dd_caps String.length]. f_equal. f_equal. lia.
Qed.
End Fields.

(** ** Captures *)

Lemma cap_lookup_dd_caps_le i n ds cs :
  i <= n -> cap_lookup i (dd_caps n ds cs) = cap_lookup i cs.
Proof.
  revert n cs. induction ds as [|[sep d] ds IH]; intros n cs Hi; [reflexivity|].
  cbn [dd_caps]. rewrite IH by lia. cbn [cap_lookup].
  destruct (Nat.eqb_spec (S n) i); [lia|reflexivity].
Qed.

Lemma groups_dd_caps ds : forall n cs,
  map (fun i => cap_lookup i (dd_caps n ds cs)) (seq (S n) (length ds)) = map Some (map snd ds).
Proof.
  induction ds as [|[sep d] ds IH]; intros n cs; [reflexivity|].
  cbn [length seq map dd_caps snd]. rewrite IH.
  rewrite cap_lookup_dd_caps_le by lia. cbn [cap_lookup]. now rewrite Nat.eqb_refl.
Qed.

(** The [dd] rule on a coordinates line: its pattern has one group per
    field and matches with the fields' digits. *)
Lemma rule_match_dd ds :
  forallb dd_field ds = true ->
  rule_match Coordinates ("DD" ++ dd_tail ds) ("dd", mkmeta None None) =
    Some (map Some (map snd ds)).
Proof.
  intros H. unfold rule_match. cbn [fst snd getRegexForToken String.eqb Ascii.eqb Bool.eqb].
  rewrite getDdRegex_compiles. unfold str_match, dd_regexp. cbn [prog rflags ignoreCase ngroups].
  rewrite split_ws_dd_line by exact H. cbn [length Nat.sub]. rewrite ?Nat.sub_0_r.
  cbn [rev]. rewrite rev_app_distr. cbn [rev app seq_of].
  rewrite search_bol. cbn [m pos Nat.eqb rest cls_matches String.append canonicalize].
  replace (canonicalize "D"%char) with 68 by reflexivity. rewrite Nat.eqb_refl.
  rewrite length_map. cbn [caps].
  rewrite (m_dd_fields ds 0 2 [] _ (dd_caps 0 ds []) H); [|reflexivity].
  unfold groups_of. now rewrite (groups_dd_caps ds 0 []).
Qed.

Lemma convert_dd_fields ds :
  forallb dd_field ds = true ->
  convertIntDigitsWhenPossible (map template_of_group (map Some (map snd ds))) =
    map (fun f => VNum (digits_value (snd f))) ds.
Proof.
  induction ds as [|[sep d] ds IH]; intros H; [reflexivity|].
  simpl in H. apply andb_prop in H as [Hf H].
  destruct (dd_field_parts _ _ Hf) as (_ & _ & Hd & Hdd).
  cbn [map convertIntDigitsWhenPossible template_of_group snd] in *.
  rewrite (convert_token_digits d Hd Hdd). f_equal. exact (IH H).
Qed.

Section Handler.
Context {H : Type} `{SteinerInstance H}.

(** C15: the Coordinates grammar adapts to the line: on a line [DD]
    followed by any number [n] of fields, each a run of white space and
    a run of digits, [parseToken] calls the handler's
    [coordinates__dd] callback, when it is set, with the line and the [n]
    integers the fields denote, and stays inside the section. *)
Theorem coordinates_dd_arity ds (h : H) :
  forallb dd_field ds = true ->
  parseToken Coordinates ("DD" ++ dd_tail ds) h =
    st_bind (call_if_truthy "coordinates__dd" ("DD" ++ dd_tail ds)
                            (map (fun f => VNum (digits_value (snd f))) ds))
            (fun _ => st_ret inside_section) h.
Proof.
  intros Hds. unfold parseToken.
  assert (Hin : In ("dd", mkmeta None None) (getKnownTokens Coordinates)) by (simpl; auto).
  rewrite (getParsedTokens_match _ _ _ _ Hin (rule_match_dd ds Hds)).
  cbn [matchingName extractedTokens nextState fst snd next_state default_state String.eqb].
  now rewrite convert_dd_fields by exact Hds.
Qed.
End Handler.

Lemma coordinates_dd_arity_witness :
  forallb dd_field [(" ", "12"); ("   ", "7"); (String "009" "", "40")] = true /\
  parseToken Coordinates ("DD 12   7" ++ String "009" "40") (mkrecorder ["coordinates__dd"] []) =
    st_bind (call_if_truthy "coordinates__dd" ("DD 12   7" ++ String "009" "40")
                            [VNum 12%Z; VNum 7%Z; VNum 40%Z])
            (fun _ => st_ret inside_section) (mkrecorder ["coordinates__dd"] []).
Proof.
  split; [reflexivity|].
  exact (coordinates_dd_arity [(" ", "12"); ("   ", "7"); (String "009" "", "40")]
           (mkrecorder ["coordinates__dd"] []) eq_refl).
Defined.

End Coordinates.
