(* ===== verification/TokenShapes.v ===== *)
(** * The capture shapes of the integer rules

    Most rules of the token tables (section.ts 90-150) have the pattern
    [^KW\s+(\d+)...\s+(\d+)$]: a keyword and a fixed number of integer
    fields.  [int_shapes] lists those rules with the keyword and the
    number of integers the specification's table of grammars gives them
    (Graph: nodes, edges, arcs 1, e and a 3; MaximumDegrees: md 1;
    Presolve: fixed .. orgedges 1, ea 4, ec and ed 3, es 2; Obstacles:
    rr 4; Terminals: terminals, rootp, t, tp 1).  This file checks that
    each listed rule is in its table with the pattern [int_pattern], and
    shows that a line made of the keyword and that many integer fields
    reaches the rule's callback with the integers. *)

From S2P Require Import Prelude JsString JsRegExp RegExpShapes JsValue State Exceptions Handler Section Grammar Coordinates.
Local Open Scope string_scope.

Module TokenShapes.
Import JsString JsRegExp JsValue State Handler Section Grammar Coordinates.

(** The pattern of a rule with keyword [kw] and [n] integer fields. *)
Definition int_pattern (kw : string) (n : nat) : string :=
  "^" ++ kw ++ repeat "\s+(\d+)" n ++ "$".

(** The integer rules and their shapes: section, rule name, keyword,
    number of integers. *)
Definition int_shapes : list (section_kind * string * string * nat) :=
  [(Graph, "nodes", "Nodes", 1); (Graph, "edges", "Edges", 1); (Graph, "arcs", "Arcs", 1);
   (Graph, "e", "E", 3); (Graph, "a", "A", 3);
   (MaximumDegrees, "md", "MD", 1);
   (Presolve, "fixed", "FIXED", 1); (Presolve, "lower", "LOWER", 1);
   (Presolve, "upper", "UPPER", 1); (Presolve, "time", "TIME", 1);
   (Presolve, "orgnodes", "ORGNODES", 1); (Presolve, "orgedges", "ORGEDGES", 1);
   (Presolve, "ea", "EA", 4); (Presolve, "ec", "EC", 3); (Presolve, "ed", "ED", 3);
   (Presolve, "es", "ES", 2);
   (Obstacles, "rr", "RR", 4);
   (Terminals, "terminals", "Terminals", 1); (Terminals, "rootp", "RootP", 1);
   (Terminals, "t", "T", 1); (Terminals, "tp", "TP", 1)].

(** A listed rule is in its table with the pattern [int_pattern], and its
    keyword is made of word characters. *)
Definition shape_ok (x : section_kind * string * string * nat) : bool :=
  let '(k, name, kw, n) := x in
  all_chars is_word kw &&
  existsb (fun e => String.eqb (fst e) name &&
                    match regex (snd e), next_state (snd e) with
                    | Some r, None => String.eqb r (int_pattern kw n)
                    | _, _ => false
                    end) (getKnownTokens k).

Lemma shapes_ok : forallb shape_ok int_shapes = true.
Proof. vm_compute. reflexivity. Qed.

Lemma shape_ok_parts k name kw n :
  shape_ok (k, name, kw, n) = true ->
  all_chars is_word kw = true /\ In (name, tok (int_pattern kw n)) (getKnownTokens k).
Proof.
  unfold shape_ok. intros H. apply andb_prop in H as [Hw Hex].
  split; [exact Hw|]. apply existsb_exists in Hex as ([name' [[r|] [s|]]] & Hin & He);
    cbn [fst snd regex next_state] in He; rewrite ?andb_false_r in He; try discriminate.
  apply andb_prop in He as [Hn Hr].
  apply String.eqb_eq in Hn, Hr. subst. exact Hin.
Qed.

(** ** The pattern of an integer rule *)

Lemma parse_pat_word c rest n cur stack :
  is_word c = true ->
  parse_pat (String c rest) n cur stack = parse_pat rest n (RChar (CLit c) :: cur) stack.
Proof.
  intros Hw. cbn [parse_pat]. unfold atom_of_char, unsupported_char. cbn [existsb].
  repeat match goal with
         | |- context [Ascii.eqb c ?x] =>
             destruct (Ascii.eqb_spec c x) as [->|?]; [discriminate Hw|]
         end.
  reflexivity.
Qed.

Lemma parse_pat_kw kw : all_chars is_word kw = true ->
  forall rest n cur stack,
  parse_pat (kw ++ rest) n cur stack = parse_pat rest n (rev (lits kw) ++ cur) stack.
Proof.
  induction kw as [|c kw IH]; intros Hw rest n cur stack; [reflexivity|].
  simpl in Hw. apply andb_prop in Hw as [Hc Hw].
  cbn [String.append]. rewrite parse_pat_word by exact Hc. rewrite IH by exact Hw.
  cbn [lits rev]. now rewrite <- app_assoc.
Qed.

Lemma int_pattern_compiles kw n :
  all_chars is_word kw = true ->
  new_RegExp (int_pattern kw n) "i" =
    Some (mkregexp (int_pattern kw n) (mkflags false true false)
                   (RSeq RBol (seq_of (lits kw ++ rev (dd_rev 0 n) ++ [REol]))) n).
Proof.
  intros Hw. unfold new_RegExp, int_pattern. simpl parse_flags. cbv iota.
  change (parse_pat ("^" ++ ?r) 0 [] []) with (parse_pat r 0 [RBol] []).
  rewrite parse_pat_kw by exact Hw. rewrite parse_pat_dd_repeat. cbn [Nat.add].
  change (parse_pat "$" n ?cur []) with (Some (seq_of (rev (REol :: cur)), n)).
  cbn [rev]. rewrite !rev_app_distr, rev_involutive. cbn [rev app].
  now rewrite <- !app_assoc.
Qed.

(** ** Lines of an integer rule *)

Lemma str_match_int kw ds :
  forallb dd_field ds = true ->
  str_match (mkregexp (int_pattern kw (length ds)) (mkflags false true false)
               (RSeq RBol (seq_of (lits kw ++ rev (dd_rev 0 (length ds)) ++ [REol])))
               (length ds))
            (kw ++ dd_tail ds) = Some (map Some (map snd ds)).
Proof.
  intros H. unfold str_match. cbn [rflags prog ignoreCase ngroups].
  rewrite search_bol.
  change (m true (RSeq RBol ?Y) (mkst 0 ?s []) ?k) with (m true Y (mkst 0 s []) k).
  rewrite m_seq_lits, (lit_prefix_app true kw "" kw (lit_prefix_refl _)). cbn [String.append].
  rewrite (m_dd_fields ds 0 _ [] _ (dd_caps 0 ds []) H); [|reflexivity].
  unfold groups_of. now rewrite (groups_dd_caps ds 0 []).
Qed.

Lemma getRegexForToken_tok k name p line :
  String.eqb name "dd" = false -> getRegexForToken k name (tok p) line = p.
Proof. intros Hn. destruct k; cbn [getRegexForToken]; rewrite ?Hn; reflexivity. Qed.

Lemma shape_names k name kw n :
  In (k, name, kw, n) int_shapes -> String.eqb name "dd" = false.
Proof. intros Hin. simpl in Hin. repeat (destruct Hin as [Hin|Hin]; [now injection Hin as <- <-|]). contradiction. Qed.

Lemma rule_match_int k name kw ds :
  In (k, name, kw, length ds) int_shapes -> forallb dd_field ds = true ->
  In (name, tok (int_pattern kw (length ds))) (getKnownTokens k) /\
  rule_match k (kw ++ dd_tail ds) (name, tok (int_pattern kw (length ds))) =
    Some (map Some (map snd ds)).
Proof.
  intros Hin Hds.
  assert (Hok : shape_ok (k, name, kw, length ds) = true)
    by (pose proof shapes_ok as Hall; rewrite forallb_forall in Hall; exact (Hall _ Hin)).
  destruct (shape_ok_parts _ _ _ _ Hok) as [Hw Htab]. split; [exact Htab|].
  unfold rule_match. cbn [fst snd].
  rewrite getRegexForToken_tok by exact (shape_names _ _ _ _ Hin).
  rewrite (int_pattern_compiles kw (length ds) Hw).
  exact (str_match_int kw ds Hds).
Qed.

Section Handler.
Context {H : Type} `{SteinerInstance H}.

(** C16: every integer rule has the capture shape the specification's
    table of grammars gives it: for each rule of [int_shapes] with
    keyword [kw] and [n] integers, a line made of [kw] and [n] fields
    (a run of white space and a run of digits each) makes [parseToken]
    call the rule's [<section>__<rule>] callback, when it is set, with
    the line and the [n] integers, and stay inside the section. *)
Theorem int_rule_shapes k name kw ds (h : H) :
  In (k, name, kw, length ds) int_shapes -> forallb dd_field ds = true ->
  parseToken k (kw ++ dd_tail ds) h =
    st_bind (call_if_truthy (callbackToken k ++ "__" ++ name) (kw ++ dd_tail ds)
                            (map (fun f => VNum (digits_value (snd f))) ds))
            (fun _ => st_ret inside_section) h.
Proof.
  intros Hin Hds. destruct (rule_match_int _ _ _ _ Hin Hds) as [Htab Hm].
  unfold parseToken. rewrite (getParsedTokens_match _ _ _ _ Htab Hm).
  cbn [matchingName extractedTokens nextState fst snd next_state tok default_state].
  pose proof (table_names _ _ Htab) as Hn. cbn [fst] in Hn. rewrite Hn.
  now rewrite convert_dd_fields by exact Hds.
Qed.
End Handler.

Lemma int_rule_shapes_witness :
  In (Presolve, "ea", "EA", length [(" ", "1"); (" ", "2"); ("  ", "30"); (" ", "4")]) int_shapes /\
  forallb dd_field [(" ", "1"); (" ", "2"); ("  ", "30"); (" ", "4")] = true /\
  parseToken Presolve ("EA 1 2  30 4") (mkrecorder ["presolve__ea"] []) =
    st_bind (call_if_truthy "presolve__ea" "EA 1 2  30 4"
                            [VNum 1%Z; VNum 2%Z; VNum 30%Z; VNum 4%Z])
            (fun _ => st_ret inside_section) (mkrecorder ["presolve__ea"] []).
Proof.
  assert (Hin : In (Presolve, "ea", "EA", length [(" ", "1"); (" ", "2"); ("  ", "30"); (" ", "4")])
                   int_shapes) by (simpl; tauto).
  split; [exact Hin|]. split; [reflexivity|].
  exact (int_rule_shapes Presolve "ea" "EA" [(" ", "1"); (" ", "2"); ("  ", "30"); (" ", "4")]
           (mkrecorder ["presolve__ea"] []) Hin eq_refl).
Defined.

(** ** The quoted fields of the Comment section *)

(** The program of [quoted_field kw]: [^kw(?:\s+)"(.+)"$]. *)
Definition quoted_prog (kw : string) : pattern :=
  RSeq RBol (seq_of (lits kw ++
    [RNGroup (RSeq (RPlus CSpace) REmpty); RChar (CLit "034"%char);
     RGroup 1 (RSeq (RPlus CDot) REmpty); RChar (CLit "034"%char); REol])).

Lemma quoted_field_compiles kw :
  all_chars is_word kw = true ->
  new_RegExp (quoted_field kw) "i" =
    Some (mkregexp (quoted_field kw) (mkflags false true false) (quoted_prog kw) 1).
Proof.
  intros Hw. unfold new_RegExp, quoted_field, quoted_prog. simpl parse_flags. cbv iota.
  change (parse_pat ("^" ++ ?r) 0 [] []) with (parse_pat r 0 [RBol] []).
  rewrite parse_pat_kw by exact Hw. cbv [dq str1 String.append].
  cbn [parse_pat Ascii.eqb Bool.eqb andb atom_of_char atom_of_escape unsupported_char existsb
       orb].
  unfold close_group. cbn [fr_group fr_atoms rev seq_of app].
  rewrite !rev_app_distr, rev_involutive. cbn [rev app].
  now rewrite <- !app_assoc.
Qed.

(** The text a quoted field can hold: not empty and on one line.  It may
    itself contain quotes. *)
Definition field_ok (s : string) : bool :=
  negb (String.eqb s "") && all_chars (fun c => negb (is_line_terminator c)) s.

Lemma str_match_quoted kw sp s :
  all_chars is_ws sp = true -> sp <> "" -> field_ok s = true ->
  str_match (mkregexp (quoted_field kw) (mkflags false true false) (quoted_prog kw) 1)
            (kw ++ sp ++ dq ++ s ++ dq) = Some [Some s].
Proof.
  intros Hsp Hne Hs. unfold field_ok in Hs. apply andb_prop in Hs as [Hsne Hs].
  destruct s as [|c2 s2]; [discriminate|]. simpl in Hs. apply andb_prop in Hs as [Hc2 Hs2].
  destruct sp as [|c1 sp1]; [contradiction|]. simpl in Hsp. apply andb_prop in Hsp as [Hc1 Hsp1].
  unfold str_match, quoted_prog. cbn [rflags prog ignoreCase ngroups].
  rewrite search_bol.
  change (m true (RSeq RBol ?Y) (mkst 0 ?t []) ?k) with (m true Y (mkst 0 t []) k).
  rewrite m_seq_lits, (lit_prefix_app true kw "" kw (lit_prefix_refl _)). cbn [String.append].
  rewrite m_seq_cons.
  erewrite (m_ngroup_run true CSpace c1 sp1 (dq ++ String c2 s2 ++ dq) _ _ _ [(1, String c2 s2)]);
    [reflexivity|exact Hc1|now rewrite all_cls_chars|reflexivity|].
  change (dq ++ ?t) with (String "034"%char t). rewrite !m_seq_cons.
  cbn [m rest pos caps cls_matches String.append]. rewrite Nat.eqb_refl, m_seq_cons. cbn [m rest pos caps cls_matches]. rewrite Hc2.
  apply star_cls_last;
    [rewrite all_cls_chars; exact Hs2 | reflexivity | reflexivity |].
  unfold capture. cbn [pos rest caps m cls_matches].
  replace (S (S (S (0 + String.length kw) + String.length sp1)) + String.length s2
             - S (S (0 + String.length kw) + String.length sp1))
    with (String.length (String c2 s2)) by (cbn [String.length]; lia).
  change (String c2 (s2 ++ dq)) with (String c2 s2 ++ dq).
  rewrite substring_app_0. reflexivity.
Qed.

(** The rules of the Comment section: rule name and keyword. *)
Definition comment_fields : list (string * string) :=
  [("name", "Name"); ("creator", "Creator"); ("remark", "Remark"); ("problem", "Problem")].

Lemma comment_field_rule name kw :
  In (name, kw) comment_fields ->
  all_chars is_word kw = true /\ String.eqb name "dd" = false /\
  String.eqb name "" = false /\ In (name, tok (quoted_field kw)) (getKnownTokens Comment).
Proof.
  intros Hin. simpl in Hin.
  repeat (destruct Hin as [Hin|Hin]; [injection Hin as <- <-; simpl; tauto|]). contradiction.
Qed.

Section CommentHandler.
Context {H : Type} `{SteinerInstance H}.

(** C17: a Comment field is captured whole: for each rule of the Comment
    section (Name, Creator, Remark, Problem), a line made of the keyword,
    white space and a quoted text [s] on one line makes [parseToken]
    call [comment__<rule>] with the line and the coercion of [s], quotes
    inside [s] included (the greedy [(.+)] gives back only the closing
    quote), and stay inside the section. *)
Theorem comment_field_capture name kw sp s (h : H) :
  In (name, kw) comment_fields -> all_chars is_ws sp = true -> sp <> "" -> field_ok s = true ->
  parseToken Comment (kw ++ sp ++ dq ++ s ++ dq) h =
    st_bind (call_if_truthy ("comment__" ++ name) (kw ++ sp ++ dq ++ s ++ dq) [convert_token s])
            (fun _ => st_ret inside_section) h.
Proof.
  intros Hin Hsp Hne Hs. destruct (comment_field_rule _ _ Hin) as (Hw & Hdd & Hn & Htab).
  assert (Hm : rule_match Comment (kw ++ sp ++ dq ++ s ++ dq) (name, tok (quoted_field kw)) =
               Some [Some s]).
  { unfold rule_match. cbn [fst snd]. rewrite getRegexForToken_tok by exact Hdd.
    rewrite (quoted_field_compiles kw Hw). exact (str_match_quoted kw sp s Hsp Hne Hs). }
  unfold parseToken. rewrite (getParsedTokens_match _ _ _ _ Htab Hm).
  cbn [matchingName extractedTokens nextState fst snd next_state tok default_state].
  now rewrite Hn.
Qed.
End CommentHandler.

Lemma comment_field_capture_witness :
  In ("name", "Name") comment_fields /\ all_chars is_ws " " = true /\ " " <> "" /\
  field_ok ("Steiner " ++ dq ++ "x" ++ dq ++ " 12") = true /\
  parseToken Comment ("Name" ++ " " ++ dq ++ ("Steiner " ++ dq ++ "x" ++ dq ++ " 12") ++ dq)
             (mkrecorder ["comment__name"] []) =
    st_bind (call_if_truthy "comment__name"
               ("Name" ++ " " ++ dq ++ ("Steiner " ++ dq ++ "x" ++ dq ++ " 12") ++ dq) [VNaN])
            (fun _ => st_ret inside_section) (mkrecorder ["comment__name"] []).
Proof.
  assert (Hin : In ("name", "Name") comment_fields) by (simpl; tauto).
  assert (Hf : field_ok ("Steiner " ++ dq ++ "x" ++ dq ++ " 12") = true) by reflexivity.
  split; [exact Hin|]. split; [reflexivity|]. split; [discriminate|]. split; [exact Hf|].
  rewrite (comment_field_capture "name" "Name" " " _ (mkrecorder ["comment__name"] [])
             Hin eq_refl ltac:(discriminate) Hf).
  vm_compute. reflexivity.
Defined.

End TokenShapes.
