(* ===== verification/Root.v ===== *)
(** * Root parsers (parser.ts 17-107)

    [RootParser] holds a regex literal and a callback name; [matches]
    re-creates the regex with the [i] flag ([addRegexFlags]), calls the
    handler slot on a match and throws [SteinlibParsingException]
    otherwise.  [RootSectionParser] adds the registry [sectionParsers],
    an object literal: a name that is not one of its seven own keys is
    still found on [Object.prototype] when it names one of that
    object's members ("constructor", "toString", ...), which the model
    keeps ([registry_lookup]).  [new SectionParser()] on such a member
    either throws a TypeError (not a constructor) or, for "constructor",
    builds a plain object with no [sectionStart] method
    ([section_obj]). *)

From S2P Require Import Prelude JsString JsRegExp JsValue State Exceptions Handler Section.
Local Open Scope string_scope.

Module Root.
Import JsString JsRegExp JsValue State Exceptions Handler Section.

(** ** addRegexFlags *)

(** The flags of a regexp as the code collects them: g, i, m in that
    order (lines 18-27). *)
Definition flag_list (f : flags) : list string :=
  ((if global f then ["g"] else []) ++ (if ignoreCase f then ["i"] else [])
   ++ (if multiline f then ["m"] else []))%list.

(** [[...new Set(l)]]: first occurrences, in order. *)
Fixpoint dedup_aux (seen : list string) (l : list string) : list string :=
  match l with
  | [] => []
  | x :: xs => if existsb (String.eqb x) seen then dedup_aux seen xs
               else x :: dedup_aux (x :: seen) xs
  end.

Definition addRegexFlags (re : regexp) (extra : list string) : option regexp :=
  new_RegExp (source re) (str_join "" (dedup_aux [] (flag_list (rflags re) ++ extra))).

(** ** RootParser *)

Record RootParser : Type := mkroot {
  tokenRegex : option regexp;   (** the regex literal ([None]: invalid) *)
  callbackMethod : string
}.

(** A regex literal [/src/] with no flags. *)
Definition literal (src : string) : option regexp := new_RegExp src "".

Definition RootHeaderParser : RootParser :=
  mkroot (literal "^33D32945(?:\s+)(.+)$") "header".
Definition RootEofParser : RootParser := mkroot (literal "^EOF$") "eof".
Definition RootSectionParser : RootParser :=
  mkroot (literal "^SECTION(?:\s+)(\w+)$") "section".

(** A group of [line.match(..)] handed to a root callback as is. *)
Definition value_of_group (g : option string) : value :=
  match g with Some s => VStr s | None => VUndefined end.

Section Matches.
Context {H : Type} `{SteinerInstance H}.

  (** [RootParser.matches]: the groups [matchingGroups.slice(1)] of a
      match (the code returns the whole match array; its only use is
      [sectionMatches[1]], the first group, and truthiness). *)
Definition matches (rp : RootParser) (line : string) : st H exn (list (option string)) :=
    match tokenRegex rp with
    | None => st_throw (SyntaxError "Invalid regular expression")
    | Some tr =>
        if String.eqb (callbackMethod rp) "" then
          st_throw (JsError "Error" "RootParser must have a tokenRegex and callbackMethod")
        else
          match addRegexFlags tr ["i"] with
          | None => st_throw (SyntaxError "Invalid flags")
          | Some regexWithIgnoreCase =>
              match str_match regexWithIgnoreCase line with
              | Some groups =>
                  st_bind (call_if_truthy (callbackMethod rp) line (map value_of_group groups))
                          (fun _ => st_ret groups)
              | None => st_throw (SteinlibParsingException ("Unexpected line: " ++ line))
              end
          end
    end.
End Matches.

(** ** The section registry *)

Definition sectionParsers : list (string * section_kind) :=
  [("Comment", Comment); ("Coordinates", Coordinates); ("Graph", Graph);
   ("MaximumDegrees", MaximumDegrees); ("Obstacles", Obstacles);
   ("Presolve", Presolve); ("Terminals", Terminals)].

(** The members of [Object.prototype] (ECMA-262 20.1.3 and B.2.2). *)
Definition object_prototype_members : list string :=
  ["constructor"; "__defineGetter__"; "__defineSetter__"; "hasOwnProperty";
   "__lookupGetter__"; "__lookupSetter__"; "isPrototypeOf";
   "propertyIsEnumerable"; "toString"; "valueOf"; "__proto__";
   "toLocaleString"].

(** What [this.sectionParsers[name]] evaluates to, when truthy. *)
Inductive registry_entry : Type :=
| SectionClass (k : section_kind)
| ProtoMember (name : string).

Fixpoint assoc_str {A} (key : string) (l : list (string * A)) : option A :=
  match l with
  | [] => None
  | (k, v) :: l' => if String.eqb k key then Some v else assoc_str key l'
  end.

Definition registry_lookup (name : string) : option registry_entry :=
  match assoc_str name sectionParsers with
  | Some k => Some (SectionClass k)
  | None => if existsb (String.eqb name) object_prototype_members
            then Some (ProtoMember name) else None
  end.

(** The object [new SectionParser()] builds. *)
Inductive section_obj : Type :=
| SectionInstance (k : section_kind)
| PlainObject.

Definition construct (e : registry_entry) : outcome exn section_obj :=
  match e with
  | SectionClass k => Ok (SectionInstance k)
  | ProtoMember name =>
      if String.eqb name "constructor" then Ok PlainObject
      else Throw (TypeError "SectionParser is not a constructor")
  end.

(** [sectionClass.sectionStart(line)] *)
Definition sectionStart_obj (o : section_obj) (line : string) : outcome exn ParsingState :=
  match o with
  | SectionInstance k => Ok (sectionStart k line)
  | PlainObject => Throw (TypeError "sectionClass.sectionStart is not a function")
  end.

Definition known_sections_message (sectionName : string) : string :=
  "Invalid section identifier " ++ dq ++ sectionName ++ dq ++ ". Known sections: "
  ++ str_join ", " (map fst sectionParsers) ++ ".".

Section GetSectionParser.
Context {H : Type} `{SteinerInstance H}.

Definition getSectionParser (line : string) : st H exn section_obj :=
    st_bind (matches RootSectionParser line) (fun sectionMatches =>
    let sectionName : option string :=
      match sectionMatches with g :: _ => g | [] => None end in
    match sectionName with
    | Some nm =>
        match (if String.eqb nm "" then None else registry_lookup nm) with
        | Some e =>
            st_bind (call_optional (toLowerCase nm) line
                                   (map value_of_group sectionMatches))
                    (fun _ => match construct e with
                              | Ok o => st_ret o
                              | Throw ex => st_throw ex
                              end)
        | None => st_throw (UnrecognizedSectionException (known_sections_message nm))
        end
    | None =>
        st_throw (UnrecognizedSectionException
                    (known_sections_message (template_of_group sectionName)))
    end).
End GetSectionParser.

(** ** The test inside [matches] *)

Definition root_regex (rp : RootParser) : option regexp :=
  match tokenRegex rp with
  | Some tr => addRegexFlags tr ["i"]
  | None => None
  end.

(** Whether [line.match(regexWithIgnoreCase)] is non-null. *)
Definition root_test (rp : RootParser) (line : string) : bool :=
  match root_regex rp with
  | Some re => match str_match re line with Some _ => true | None => false end
  | None => false
  end.

(** The three root parsers are well formed: their literals compile,
    their callback names are non-empty, and [addRegexFlags] gives the
    case-insensitive regexp of the same source. *)
Definition well_formed_root (rp : RootParser) : Prop :=
  exists tr re, tokenRegex rp = Some tr /\ callbackMethod rp <> "" /\
    addRegexFlags tr ["i"] = Some re /\ source re = source tr /\
    rflags re = mkflags false true false.

Lemma root_parsers_well_formed :
  well_formed_root RootHeaderParser /\ well_formed_root RootEofParser /\
  well_formed_root RootSectionParser.
Proof.
  split; [|split]; (do 2 eexists; split; [reflexivity|]; split; [discriminate|];
                    split; [reflexivity|]; split; reflexivity).
Qed.

Section MatchesLemmas.
Context {H : Type} `{SteinerInstance H}.

Lemma matches_ok_test rp line (h : H) gs h' :
    matches rp line h = (Ok gs, h') -> root_test rp line = true.
  Proof.
    unfold matches, root_test, root_regex.
    destruct (tokenRegex rp) as [tr|]; [|discriminate].
    destruct (String.eqb (callbackMethod rp) ""); [discriminate|].
    destruct (addRegexFlags tr ["i"]) as [re|]; [|discriminate].
    destruct (str_match re line); [reflexivity|discriminate].
  Qed.

Lemma matches_no_match rp line (h : H) :
    well_formed_root rp -> root_test rp line = false ->
    matches rp line h = (Throw (SteinlibParsingException ("Unexpected line: " ++ line)), h).
  Proof.
    intros (tr & re & Htr & Hcb & Hre & _) Ht.
    unfold root_test, root_regex in Ht. rewrite Htr, Hre in Ht.
    unfold matches. rewrite Htr.
    destruct (String.eqb_spec (callbackMethod rp) ""); [contradiction|].
    rewrite Hre. destruct (str_match re line); [discriminate|reflexivity].
  Qed.
End MatchesLemmas.

Lemma root_regex_eof :
  root_regex RootEofParser =
    Some (mkregexp "^EOF$" (mkflags false true false)
                   (RSeq RBol (seq_of (lits "EOF" ++ [REol]))) 0).
Proof. reflexivity. Qed.

(** The EOF test is case-insensitive equality with ["EOF"]. *)
Lemma root_test_eof line : root_test RootEofParser line = ci_eqb line "EOF".
Proof.
  unfold root_test. rewrite root_regex_eof. unfold str_match.
  cbn [rflags prog ignoreCase ngroups].
  rewrite search_bol, m_anchored_word. now destruct (ci_eqb line "EOF").
Qed.

Lemma root_regex_section :
  root_regex RootSectionParser =
    Some (mkregexp "^SECTION(?:\s+)(\w+)$" (mkflags false true false)
            (RSeq RBol (seq_of (lits "SECTION" ++
               [RNGroup (RSeq (RPlus CSpace) REmpty); RGroup 1 (RSeq (RPlus CWord) REmpty);
                REol]))) 1).
Proof. reflexivity. Qed.

(** The section pattern on ["SECTION"] (any case), a run of white
    space and a word captures the word. *)
Lemma str_match_section kw sp name :
  ci_eqb kw "SECTION" = true -> sp <> "" -> all_chars is_ws sp = true ->
  name <> "" -> all_chars is_word name = true ->
  str_match (mkregexp "^SECTION(?:\s+)(\w+)$" (mkflags false true false)
            (RSeq RBol (seq_of (lits "SECTION" ++
               [RNGroup (RSeq (RPlus CSpace) REmpty); RGroup 1 (RSeq (RPlus CWord) REmpty);
                REol]))) 1) (kw ++ sp ++ name) = Some [Some name].
Proof.
  intros Hkw Hsp Hspw Hn Hnw. unfold str_match. cbn [rflags prog ignoreCase ngroups].
  rewrite search_bol. cbn [m pos Nat.eqb]. rewrite m_seq_lits.
  apply lit_prefix_ci_eqb in Hkw.
  rewrite (lit_prefix_app true "SECTION" "" kw Hkw (sp ++ name)). cbn [append].
  rewrite m_seq_cons.
  destruct sp as [|c1 sp1]; [contradiction|]. simpl in Hspw.
  apply andb_prop in Hspw as [Hc1 Hsp1].
  destruct name as [|c2 n2]; [contradiction|]. simpl in Hnw.
  apply andb_prop in Hnw as [Hc2 Hn2].
  erewrite (m_ngroup_run true CSpace c1 sp1 (String c2 n2) _ _ _ [(1, String c2 n2)]);
    [reflexivity| | | |].
  - exact Hc1.
  - now rewrite all_cls_chars.
  - simpl. now apply word_not_ws.
  - rewrite m_seq_cons. apply m_group_run_end; [exact Hc2| |reflexivity].
    now rewrite all_cls_chars.
Qed.

Section SectionLine.
Context {H : Type} `{SteinerInstance H}.

Lemma matches_found rp re line gs (h : H) :
    callbackMethod rp <> "" -> root_regex rp = Some re -> str_match re line = Some gs ->
    matches rp line h =
      st_bind (call_if_truthy (callbackMethod rp) line (map value_of_group gs))
              (fun _ => st_ret gs) h.
  Proof.
    unfold root_regex, matches. destruct (tokenRegex rp) as [tr|]; [|discriminate].
    intros Hcb Hre Hm. destruct (String.eqb_spec (callbackMethod rp) ""); [contradiction|].
    now rewrite Hre, Hm.
  Qed.

  (** [getSectionParser] on ["SECTION <name>"]: the [section] callback,
      then the registry lookup of the captured name. *)
Lemma getSectionParser_name kw sp name (h : H) :
    ci_eqb kw "SECTION" = true -> sp <> "" -> all_chars is_ws sp = true ->
    name <> "" -> all_chars is_word name = true ->
    getSectionParser (kw ++ sp ++ name) h =
      st_bind (call_if_truthy "section" (kw ++ sp ++ name) [VStr name]) (fun _ =>
        match registry_lookup name with
        | Some e =>
            st_bind (call_optional (toLowerCase name) (kw ++ sp ++ name) [VStr name])
                    (fun _ => match construct e with
                              | Ok o => st_ret o
                              | Throw ex => st_throw ex
                              end)
        | None => st_throw (UnrecognizedSectionException (known_sections_message name))
        end) h.
  Proof.
    intros Hkw Hsp Hspw Hn Hnw. unfold getSectionParser.
    unfold st_bind at 1.
    rewrite (matches_found RootSectionParser _ _ [Some name] h ltac:(discriminate)
               root_regex_section (str_match_section kw sp name Hkw Hsp Hspw Hn Hnw)).
    unfold st_bind. cbn [map value_of_group callbackMethod RootSectionParser].
    destruct (call_if_truthy "section" _ _ h) as [[u|x] h1]; [|reflexivity].
    unfold st_ret. cbv beta iota.
    rewrite (proj2 (String.eqb_neq name "") Hn). reflexivity.
  Qed.
End SectionLine.

(** Object.prototype's members are found by the registry lookup. *)
Lemma registry_lookup_proto name :
  In name object_prototype_members -> registry_lookup name = Some (ProtoMember name).
Proof. intros Hin. simpl in Hin. repeat (destruct Hin as [<-|Hin]; [reflexivity|]). contradiction. Qed.

End Root.
