(* ===== verification/Flags.v ===== *)
(** * addRegexFlags (parser.ts 17-32)

    [addRegexFlags(regex, ...flags)] collects the flags of [regex] as
    letters ([flag_list]), appends the extra ones, removes duplicates
    ([...new Set(..)], [dedup_aux]), joins them and builds
    [new RegExp(regex.source, ..)].  This file shows that the letters the
    code collects rebuild exactly the flags they were read from (a round
    trip through the RegExp constructor's flags parser), and that
    [addRegexFlags] keeps the pattern and sets exactly the union of the
    regexp's flags and the extra ones, whatever their order and
    repetitions. *)

From S2P Require Import Prelude JsString JsRegExp Root.
Local Open Scope string_scope.

Module Flags.
Import JsString JsRegExp Root.

(** The letters the constructor accepts. *)
Definition flag_letter (x : string) : Prop := x = "g" \/ x = "i" \/ x = "m".

Definition inb (x : string) (l : list string) : bool := existsb (String.eqb x) l.

(** Whether the flag of letter [x] is set in [f]. *)
Definition flag_get (x : string) (f : flags) : bool :=
  if String.eqb x "g" then global f
  else if String.eqb x "i" then ignoreCase f else multiline f.

(** The flags [f] with the letters of [l] added. *)
Definition with_letters (f : flags) (l : list string) : flags :=
  mkflags (global f || inb "g" l) (ignoreCase f || inb "i" l) (multiline f || inb "m" l).

(** A regexp whose program is the parse of its source. *)
Definition wf_regexp (re : regexp) : Prop :=
  parse_pat (source re) 0 [] [] = Some (prog re, ngroups re).

(** ** Joining letters *)

Lemma str_join_nil_cons x l : str_join "" (x :: l) = x ++ str_join "" l.
Proof. destruct l; simpl; [now rewrite string_app_nil_r|reflexivity]. Qed.

(** One letter of the flags string. *)
Lemma parse_flags_letter x rest f :
  flag_letter x ->
  parse_flags (x ++ rest) f =
    if flag_get x f then None else parse_flags rest (with_letters f [x]).
Proof.
  intros [ -> | [ -> | -> ] ]; destruct f as [g i mm]; destruct g, i, mm; reflexivity.
Qed.

Lemma with_letters_cons f x l :
  with_letters (with_letters f [x]) l = with_letters f (x :: l).
Proof.
  destruct f as [g i mm]. unfold with_letters, inb. cbn [existsb global ignoreCase multiline].
  f_equal; rewrite ?orb_false_r, ?orb_assoc; reflexivity.
Qed.

Lemma parse_flags_join l : forall f,
  Forall flag_letter l -> List.NoDup l -> (forall x, In x l -> flag_get x f = false) ->
  parse_flags (str_join "" l) f = Some (with_letters f l).
Proof.
  induction l as [|x l IH]; intros f Hl Hnd Hfree.
  - destruct f as [g i mm]. unfold with_letters. simpl. now rewrite !orb_false_r.
  - inversion Hl as [|? ? Hx Hl']; subst. inversion Hnd as [|? ? Hnotin Hnd']; subst.
    rewrite str_join_nil_cons, parse_flags_letter by exact Hx.
    rewrite (Hfree x (or_introl eq_refl)).
    rewrite IH; [now rewrite with_letters_cons|exact Hl'|exact Hnd'|].
    intros y Hy. specialize (Hfree y (or_intror Hy)).
    assert (Hy' : flag_letter y) by (rewrite Forall_forall in Hl'; auto).
    destruct Hx as [ -> | [ -> | -> ] ], Hy' as [ -> | [ -> | -> ] ];
      try (exfalso; exact (Hnotin Hy)); destruct f as [g i mm]; unfold with_letters, inb;
      cbn in *; rewrite ?orb_false_r; exact Hfree.
Qed.

(** ** [[...new Set(l)]] *)

Lemma inb_In x l : inb x l = true <-> In x l.
Proof.
  unfold inb. rewrite existsb_exists. split.
  - intros (y & Hy & E). apply String.eqb_eq in E. now subst.
  - intros H. exists x. split; [exact H|apply String.eqb_refl].
Qed.

Lemma dedup_In seen l : forall x,
  In x (dedup_aux seen l) <-> In x l /\ ~ In x seen.
Proof.
  revert seen. induction l as [|y l IH]; intros seen x; simpl; [tauto|].
  destruct (existsb (String.eqb y) seen) eqn:E.
  - rewrite IH. apply (proj1 (inb_In y seen)) in E. split; [tauto|].
    intros [[<-|Hx] Hn]; [contradiction|tauto].
  - simpl. rewrite IH. simpl.
    assert (~ In y seen) by (intros Hy; apply inb_In in Hy; unfold inb in Hy; congruence).
    split; [intros [<-|[Hx Hn]]; tauto|].
    intros [[<-|Hx] Hn]; [now left|].
    destruct (String.eqb_spec y x); [now left|right; tauto].
Qed.

Lemma dedup_NoDup seen l : List.NoDup (dedup_aux seen l).
Proof.
  revert seen. induction l as [|y l IH]; intros seen; simpl; [constructor|].
  destruct (existsb (String.eqb y) seen); [apply IH|].
  constructor; [|apply IH]. rewrite dedup_In. simpl. tauto.
Qed.

Lemma inb_dedup x l : inb x (dedup_aux [] l) = inb x l.
Proof.
  apply eq_true_iff_eq. rewrite !inb_In, dedup_In. simpl. tauto.
Qed.

Lemma dedup_letters seen l : Forall flag_letter l -> Forall flag_letter (dedup_aux seen l).
Proof.
  rewrite !Forall_forall. intros H x Hx. apply dedup_In in Hx as [Hx _]. auto.
Qed.

Lemma flag_list_letters f : Forall flag_letter (flag_list f).
Proof.
  destruct f as [g i mm]; destruct g, i, mm; cbn; repeat apply Forall_cons; try apply Forall_nil;
    unfold flag_letter; auto.
Qed.

Lemma inb_app x l1 l2 : inb x (l1 ++ l2) = inb x l1 || inb x l2.
Proof. apply existsb_app. Qed.

(** ** The specification of addRegexFlags *)

(** C29: [addRegexFlags(re, ...extra)] on a regexp whose program is the
    parse of its source keeps the source, the program and the groups,
    and its flags are exactly those of [re] together with the extra
    letters, whatever their order and repetitions; in particular the
    call [addRegexFlags(re, "i")] of [RootParser.matches] only sets the
    ignoreCase flag, and [addRegexFlags(re)] rebuilds [re]. *)
Theorem addRegexFlags_spec re extra :
  wf_regexp re -> Forall flag_letter extra ->
  addRegexFlags re extra =
    Some (mkregexp (source re) (with_letters (rflags re) extra) (prog re) (ngroups re)).
Proof.
  intros Hwf Hx. unfold addRegexFlags, new_RegExp.
  rewrite (parse_flags_join _ no_flags).
  - rewrite Hwf. f_equal. f_equal. destruct re as [src [g i mm] r n]. cbn [rflags].
    unfold with_letters. rewrite !inb_dedup, !inb_app. cbn [global ignoreCase multiline no_flags].
    destruct g, i, mm; reflexivity.
  - apply dedup_letters, Forall_app; split; [apply flag_list_letters|exact Hx].
  - apply dedup_NoDup.
  - intros x Hin. apply dedup_In in Hin as [Hin _]. apply in_app_or in Hin.
    assert (Hl : flag_letter x).
    { destruct Hin as [Hin|Hin]; [pose proof (flag_list_letters (rflags re)) as Hf|
                                   pose proof Hx as Hf];
        rewrite Forall_forall in Hf; auto. }
    destruct Hl as [ -> | [ -> | -> ] ]; reflexivity.
Qed.

Lemma addRegexFlags_spec_witness :
  wf_regexp (mkregexp "^EOF$" no_flags (RSeq RBol (seq_of (lits "EOF" ++ [REol]))) 0) /\
  Forall flag_letter ["i"; "g"; "i"] /\
  addRegexFlags (mkregexp "^EOF$" no_flags (RSeq RBol (seq_of (lits "EOF" ++ [REol]))) 0)
                ["i"; "g"; "i"] =
    Some (mkregexp "^EOF$" (mkflags true true false) (RSeq RBol (seq_of (lits "EOF" ++ [REol]))) 0).
Proof.
  assert (Hw : wf_regexp (mkregexp "^EOF$" no_flags (RSeq RBol (seq_of (lits "EOF" ++ [REol]))) 0))
    by reflexivity.
  assert (Hx : Forall flag_letter ["i"; "g"; "i"]) by (repeat constructor; unfold flag_letter; auto).
  split; [exact Hw|]. split; [exact Hx|].
  rewrite (addRegexFlags_spec _ _ Hw Hx). reflexivity.
Defined.

End Flags.
