(* ===== verification/Engine.v ===== *)
(** * The document engine: [SteinlibParser.parse] (parser.ts 109-176)

    The engine's locals [_state] and [sectionClass] form the record
    [engine]; the handler object is the state of the monad.  One
    non-skipped line is one [step_line]; [parse_lines] is the [for]
    loop, [parse] adds the final check.  The try/catch of the
    wait_for_section branch (139-153) is [try_section]: the assignment
    to [sectionClass] survives an exception thrown by [sectionStart],
    an [UnrecognizedSectionException] is re-thrown, another
    [SteinlibParsingException] re-tries the line as ["EOF"] (and that
    attempt's own exception propagates), and any other exception is
    dropped. *)

From S2P Require Import Prelude JsString JsRegExp JsValue State Exceptions Handler Section Root.
Local Open Scope string_scope.

Module Engine.
Import JsString JsRegExp JsValue State Exceptions Handler Section Root.

Record engine : Type := mkengine {
  state : ParsingState;
  sectionClass : option section_obj
}.

Definition initial_engine : engine := mkengine wait_for_header None.

Definition commentSymbol : string := "#".

Definition _cleanupLine (line : string) : string := trim line.

Definition _isComment (line : string) : bool := startsWith line commentSymbol.

(** [if (!line || this._isComment(line)) continue;] *)
Definition skipped (line : string) : bool :=
  String.eqb line "" || _isComment line.

Section Parse.
Context {H : Type} `{SteinerInstance H}.

  (** The catch block of the wait_for_section branch. *)
Definition catch_section (e : engine) (line : string) (ex : exn) : st H exn engine :=
    if is_UnrecognizedSectionException ex then st_throw ex
    else if is_SteinlibParsingException ex then
      st_bind (matches RootEofParser line)
              (fun _ => st_ret (mkengine end_ (sectionClass e)))
    else st_ret e.

  (** The try block: [sectionClass = getSectionParser(..)] then
      [this._state = sectionClass.sectionStart(line)]. *)
Definition try_section (e : engine) (line : string) : st H exn engine :=
    fun h =>
      match getSectionParser line h with
      | (Ok obj, h1) =>
          let e1 := mkengine (state e) (Some obj) in
          match sectionStart_obj obj line with
          | Ok s => (Ok (mkengine s (Some obj)), h1)
          | Throw ex => catch_section e1 line ex h1
          end
      | (Throw ex, h1) => catch_section e line ex h1
      end.

  (** [sectionClass.parseToken(line, this._steinerInstance)] *)
Definition inside (e : engine) (line : string) : st H exn engine :=
    match sectionClass e with
    | Some (SectionInstance k) =>
        st_bind (parseToken k line) (fun s => st_ret (mkengine s (sectionClass e)))
    | Some PlainObject => st_throw (TypeError "sectionClass.parseToken is not a function")
    | None => st_throw (TypeError "Cannot read properties of null")
    end.

  (** The body of the loop for a line that is not skipped. *)
Definition step_line (e : engine) (line : string) : st H exn engine :=
    match state e with
    | wait_for_header =>
        st_bind (matches RootHeaderParser line)
                (fun _ => st_ret (mkengine wait_for_section (sectionClass e)))
    | wait_for_section => try_section e line
    | inside_section => inside e line
    | end_ => st_throw (SteinlibParsingException ("Unexpected " ++ dq ++ "EOF" ++ dq ++ "."))
    end.

  (** The [for (const rawLine of this._lines)] loop. *)
Fixpoint parse_lines (e : engine) (lines : list string) : st H exn engine :=
    match lines with
    | [] => st_ret e
    | rawLine :: rest =>
        let line := _cleanupLine rawLine in
        if skipped line then parse_lines e rest
        else st_bind (step_line e line) (fun e' => parse_lines e' rest)
    end.

  (** [parse()]: the loop, then the final-state check.  The result is
      the handler, i.e. the final state of the monad. *)
Definition parse (lines : list string) : st H exn unit :=
    st_bind (parse_lines initial_engine lines) (fun e =>
    match state e with
    | end_ => st_ret tt
    | _ => st_throw (SteinlibParsingException "Illegal state.")
    end).
End Parse.

(** ** The loop *)

Section Loop.
Context {H : Type} `{SteinerInstance H}.

  (** The loop over [l1 ++ l2] runs over [l1], then over [l2] from where
      it stopped. *)
Lemma parse_lines_app (l1 l2 : list string) : forall (e : engine) (h : H),
    parse_lines e (l1 ++ l2) h =
    match parse_lines e l1 h with
    | (Ok e', h') => parse_lines e' l2 h'
    | (Throw x, h') => (Throw x, h')
    end.
  Proof.
    induction l1 as [|raw l1 IH]; intros e h; [reflexivity|].
    simpl. destruct (skipped _); [apply IH|].
    unfold st_bind. destruct (step_line e _ h) as [[e'|x] h']; [apply IH|reflexivity].
  Qed.

Lemma parse_lines_cons (e : engine) (raw : string) (l : list string) :
    parse_lines e (raw :: l) =
    if skipped (_cleanupLine raw) then parse_lines e l
    else st_bind (step_line e (_cleanupLine raw)) (fun e' => parse_lines e' l).
  Proof. reflexivity. Qed.

  (** The loop sees the lines only through [_cleanupLine]: two inputs
      whose trimmed lines are the same are parsed alike. *)
Lemma parse_lines_cleanup (l1 : list string) : forall l2 (e : engine) (h : H),
    map _cleanupLine l1 = map _cleanupLine l2 ->
    parse_lines e l1 h = parse_lines e l2 h.
  Proof.
    induction l1 as [|r1 l1 IH]; intros [|r2 l2] e h E; try discriminate; [reflexivity|].
    injection E as E1 E2. rewrite !parse_lines_cons, E1.
    destruct (skipped _); [now apply IH|].
    unfold st_bind. destruct (step_line e _ h) as [[e'|x] h']; [now apply IH|reflexivity].
  Qed.

  (** A skipped line leaves the loop unchanged wherever it is inserted. *)
Lemma parse_lines_skip (l1 l2 : list string) (c : string) :
    skipped (_cleanupLine c) = true ->
    forall (e : engine) (h : H),
    parse_lines e (l1 ++ c :: l2) h = parse_lines e (l1 ++ l2) h.
  Proof.
    intros Hc e h. rewrite !parse_lines_app.
    destruct (parse_lines e l1 h) as [[e'|x] h']; [|reflexivity].
    now rewrite parse_lines_cons, Hc.
  Qed.

  (** C7: blank lines and comment lines are transparent: inserting one
      anywhere in the input changes neither the handler calls nor the
      result of [parse]. *)
Theorem parse_comment_transparent (l1 l2 : list string) (c : string) (h : H) :
    skipped (_cleanupLine c) = true ->
    parse (l1 ++ c :: l2) h = parse (l1 ++ l2) h.
  Proof.
    intros Hc. unfold parse, st_bind. now rewrite (parse_lines_skip l1 l2 c Hc).
  Qed.
End Loop.

(** ** The state machine *)

(** The edges of the document state machine (spec 4.4). *)
Inductive transition : ParsingState -> ParsingState -> Prop :=
| T_header : transition wait_for_header wait_for_section
| T_open : transition wait_for_section inside_section
| T_eof : transition wait_for_section end_
| T_stay : transition wait_for_section wait_for_section
| T_token : transition inside_section inside_section
| T_close : transition inside_section wait_for_section.

#[export] Hint Constructors transition : steinlib.

(** Every next state a grammar names is inside_section or
    wait_for_section. *)
Definition section_successor (s : ParsingState) : Prop :=
  s = inside_section \/ s = wait_for_section.

Lemma scan_tokens_successor k line entries acc p :
  Forall (fun e => next_state (snd e) = None \/ next_state (snd e) = Some wait_for_section)
         entries ->
  section_successor (nextState acc) ->
  scan_tokens k line entries acc = Ok p -> section_successor (nextState p).
Proof.
  revert acc. induction entries as [|[name meta] entries IH]; intros acc Hall Hacc H;
    simpl in H.
  - injection H as <-. exact Hacc.
  - inversion Hall as [|x l Hmeta Hall']; subst.
    destruct (new_RegExp _ "i") as [re|]; [|discriminate].
    simpl in Hmeta. destruct (str_match re line).
    + eapply IH; [exact Hall' | | exact H].
      unfold section_successor, default_state. simpl.
      destruct Hmeta as [-> | ->]; auto.
    + eapply IH; eauto.
Qed.

Lemma getKnownTokens_successors k :
  Forall (fun e => next_state (snd e) = None \/ next_state (snd e) = Some wait_for_section)
         (getKnownTokens k).
Proof.
  destruct k; repeat apply Forall_cons; try apply Forall_nil; simpl; auto.
Qed.

Section Machine.
Context {H : Type} `{SteinerInstance H}.

Lemma parseToken_successor k line (h : H) s h' :
    parseToken k line h = (Ok s, h') -> section_successor s.
  Proof.
    unfold parseToken. destruct (getParsedTokens k line) as [p|x] eqn:E;
      [|discriminate].
    destruct (matchingName p) as [name|]; [|discriminate].
    destruct (String.eqb name ""); [discriminate|].
    unfold st_bind. destruct (call_if_truthy _ _ _ h) as [[u|x] h1]; [|discriminate].
    intros Hs. injection Hs as <- _.
    apply (scan_tokens_successor k line (getKnownTokens k) (mkparsed None None inside_section));
      [apply getKnownTokens_successors | left; reflexivity | exact E].
  Qed.

Lemma catch_section_state e line ex (h : H) e' h' :
    state e = wait_for_section ->
    catch_section e line ex h = (Ok e', h') ->
    (state e' = wait_for_section \/ state e' = end_) /\ sectionClass e' = sectionClass e.
  Proof.
    intros He. unfold catch_section.
    destruct (is_UnrecognizedSectionException ex); [discriminate|].
    destruct (is_SteinlibParsingException ex).
    - unfold st_bind. destruct (matches RootEofParser line h) as [[u|x] h1]; [|discriminate].
      intros Hr. injection Hr as <- _. auto.
    - intros Hr. injection Hr as <- _. auto.
  Qed.

  (** C8: a line that does not make [parse] throw moves the engine
      along an edge of the document state machine; nothing leaves the
      end state. *)
Theorem step_line_transition e line (h : H) e' h' :
    step_line e line h = (Ok e', h') -> transition (state e) (state e').
  Proof.
    unfold step_line. destruct (state e) eqn:Hs.
    - unfold st_bind. destruct (matches RootHeaderParser line h) as [[u|x] h1]; [|discriminate].
      intros Hr. injection Hr as <- _. constructor.
    - unfold try_section. destruct (getSectionParser line h) as [[obj|ex] h1].
      + destruct (sectionStart_obj obj line) as [s'|ex] eqn:Hst.
        * intros Hr. injection Hr as <- _. destruct obj; simpl in Hst; [|discriminate].
          injection Hst as <-. constructor.
        * intros Hc. apply catch_section_state in Hc as [[-> | ->] _]; simpl; auto with steinlib.
      + intros Hc. apply catch_section_state in Hc as [[-> | ->] _]; auto with steinlib.
    - unfold inside. destruct (sectionClass e) as [[k|]|]; [|discriminate|discriminate].
      unfold st_bind. destruct (parseToken k line h) as [[s'|] h1] eqn:Hp; [|discriminate].
      intros Hr. injection Hr as <- _. simpl.
      destruct (parseToken_successor _ _ _ _ _ Hp) as [-> | ->]; constructor.
    - discriminate.
  Qed.

  (** The engine's invariant: inside a section, [sectionClass] holds a
      section parser. *)
Definition engine_inv (e : engine) : Prop :=
    state e = inside_section -> exists k, sectionClass e = Some (SectionInstance k).

Lemma step_line_inv e line (h : H) e' h' :
    engine_inv e -> step_line e line h = (Ok e', h') -> engine_inv e'.
  Proof.
    intros Hinv. unfold step_line. destruct (state e) eqn:Hs.
    - unfold st_bind. destruct (matches RootHeaderParser line h) as [[u|x] h1]; [|discriminate].
      intros Hr. injection Hr as <- _. discriminate.
    - unfold try_section. destruct (getSectionParser line h) as [[obj|ex] h1].
      + destruct (sectionStart_obj obj line) as [s'|ex] eqn:Hst.
        * intros Hr. injection Hr as <- _. destruct obj; simpl in Hst; [|discriminate].
          intros _. eauto.
        * intros Hc. apply catch_section_state in Hc as [[Hs' | Hs'] _]; [| |exact Hs];
            intros Hin; congruence.
      + intros Hc. apply catch_section_state in Hc as [[Hs' | Hs'] _]; [| |exact Hs];
          intros Hin; congruence.
    - unfold inside. destruct (sectionClass e) as [[k|]|] eqn:Hc; [|discriminate|discriminate].
      unfold st_bind. destruct (parseToken k line h) as [[s'|] h1]; [|discriminate].
      intros Hr. injection Hr as <- _. intros _. simpl. eauto.
    - discriminate.
  Qed.

  (** The engines the loop can reach from the initial one, step by
      step. *)
Inductive reachable : engine -> H -> Prop :=
  | reach_init (h : H) : reachable initial_engine h
  | reach_step e h raw e' h' :
      reachable e h -> skipped (_cleanupLine raw) = false ->
      step_line e (_cleanupLine raw) h = (Ok e', h') -> reachable e' h'.

Lemma parse_lines_reachable l : forall e (h : H) e' h',
    reachable e h -> parse_lines e l h = (Ok e', h') -> reachable e' h'.
  Proof.
    induction l as [|raw l IH]; intros e h e' h' Hr Hp.
    - injection Hp as <- <-. exact Hr.
    - rewrite parse_lines_cons in Hp. destruct (skipped (_cleanupLine raw)) eqn:Hsk.
      + eauto.
      + unfold st_bind in Hp.
        destruct (step_line e (_cleanupLine raw) h) as [[e1|x] h1] eqn:Hst; [|discriminate].
        eapply IH; [|exact Hp]. eapply reach_step; eauto.
  Qed.

  (** C9: in every reachable engine, the inside_section state comes
      with a section parser in [sectionClass]; so the dispatch of
      parser.ts line 156 never meets the null the [@ts-expect-error]
      comment there silences. *)
Theorem reachable_inside_has_parser e (h : H) :
    reachable e h -> state e = inside_section ->
    exists k, sectionClass e = Some (SectionInstance k).
  Proof.
    intros Hr. induction Hr as [h|e h raw e' h' Hr IH Hsk Hst].
    - discriminate.
    - exact (step_line_inv e _ h e' h' IH Hst).
  Qed.
End Machine.

(** ** Errors *)

Definition unexpected_eof_message : string := "Unexpected " ++ dq ++ "EOF" ++ dq ++ ".".

Section Errors.
Context {H : Type} `{SteinerInstance H}.

Lemma getSectionParser_no_match line (h : H) :
    root_test RootSectionParser line = false ->
    getSectionParser line h =
      (Throw (SteinlibParsingException ("Unexpected line: " ++ line)), h).
  Proof.
    intros Ht. unfold getSectionParser, st_bind.
    rewrite (matches_no_match _ _ h (proj2 (proj2 root_parsers_well_formed)) Ht).
    reflexivity.
  Qed.

  (** Between sections, a line that neither root pattern matches. *)
Lemma step_wait_unmatched e line (h : H) :
    state e = wait_for_section ->
    root_test RootSectionParser line = false -> root_test RootEofParser line = false ->
    step_line e line h = (Throw (SteinlibParsingException ("Unexpected line: " ++ line)), h).
  Proof.
    intros Hs Hsec Heof. unfold step_line. rewrite Hs. unfold try_section.
    rewrite (getSectionParser_no_match line h Hsec). unfold catch_section. simpl.
    unfold st_bind.
    now rewrite (matches_no_match _ _ h (proj1 (proj2 root_parsers_well_formed)) Heof).
  Qed.

  (** C19: a line in the wait_for_section state that is neither
      ["SECTION <name>"] nor ["EOF"] raises "Unexpected line", with the
      handler untouched (spec 4.4 and 8 say such a line is absorbed). *)
Theorem garbage_between_sections_raises e line (h : H) :
    state e = wait_for_section ->
    root_test RootSectionParser line = false -> root_test RootEofParser line = false ->
    step_line e line h = (Throw (SteinlibParsingException ("Unexpected line: " ++ line)), h).
  Proof. exact (step_wait_unmatched e line h). Qed.

  (** C26: once the end state is reached, any later line that is not
      blank or a comment makes [parse] throw 'Unexpected "EOF".', and the
      handler sees nothing more. *)
Theorem parse_content_after_eof l1 c l2 (h : H) e h1 :
    parse_lines initial_engine l1 h = (Ok e, h1) -> state e = end_ ->
    skipped (_cleanupLine c) = false ->
    parse (l1 ++ c :: l2) h = (Throw (SteinlibParsingException unexpected_eof_message), h1).
  Proof.
    intros Hl Hs Hc. unfold parse, st_bind. rewrite parse_lines_app, Hl.
    rewrite parse_lines_cons, Hc. unfold st_bind, step_line. now rewrite Hs.
  Qed.

Lemma catch_section_end e line ex (h : H) e' h' :
    catch_section e line ex h = (Ok e', h') -> state e' = end_ ->
    state e = end_ \/ root_test RootEofParser line = true.
  Proof.
    unfold catch_section.
    destruct (is_UnrecognizedSectionException ex); [discriminate|].
    destruct (is_SteinlibParsingException ex).
    - unfold st_bind. destruct (matches RootEofParser line h) as [[gs|x] h1] eqn:Hm;
        [|discriminate].
      intros _ _. right. eapply matches_ok_test; eauto.
    - intros Hr. injection Hr as <- _. auto.
  Qed.

  (** Only an ["EOF"] line leads to the end state. *)
Lemma step_line_to_end e line (h : H) e' h' :
  step_line e line h = (Ok e', h') -> state e' = end_ ->
  root_test RootEofParser line = true.
Proof.
  intros Hst Hend. unfold step_line in Hst. destruct (state e) eqn:Hs.
  - unfold st_bind in Hst. destruct (matches RootHeaderParser line h) as [[u|x] h1];
      [|discriminate].
    injection Hst as <- _. discriminate.
  - unfold try_section in Hst. destruct (getSectionParser line h) as [[obj|ex] h1].
    + destruct (sectionStart_obj obj line) as [s'|ex] eqn:Hss.
      * injection Hst as <- _. destruct obj; simpl in Hss; [|discriminate].
        injection Hss as Hss. simpl in Hend. rewrite <- Hss in Hend. discriminate.
      * destruct (catch_section_end _ _ _ _ _ _ Hst Hend) as [Habs|]; [|assumption].
        simpl in Habs. congruence.
    + destruct (catch_section_end _ _ _ _ _ _ Hst Hend) as [Habs|]; [congruence|assumption].
  - unfold inside in Hst. destruct (sectionClass e) as [[k|]|]; try discriminate.
    unfold st_bind in Hst. destruct (parseToken k line h) as [[s'|x] h1] eqn:Hp;
      [|discriminate].
    injection Hst as <- _. simpl in Hend.
    destruct (parseToken_successor _ _ _ _ _ Hp) as [-> | ->]; discriminate.
  - discriminate.
Qed.

Lemma parse_lines_end l : forall e (h : H) e' h',
    parse_lines e l h = (Ok e', h') -> state e' = end_ ->
    state e = end_ \/ exists raw, In raw l /\ root_test RootEofParser (_cleanupLine raw) = true.
  Proof.
    induction l as [|raw l IH]; intros e h e' h' Hp Hend.
    - injection Hp as <- _. auto.
    - rewrite parse_lines_cons in Hp. destruct (skipped (_cleanupLine raw)).
      + destruct (IH _ _ _ _ Hp Hend) as [|(r & Hin & Hr)]; [auto|].
        right. exists r. simpl. auto.
      + unfold st_bind in Hp.
        destruct (step_line e (_cleanupLine raw) h) as [[e1|x] h1] eqn:Hst; [|discriminate].
        destruct (IH _ _ _ _ Hp Hend) as [He1|(r & Hin & Hr)].
        * right. exists raw. split; [now left|]. eapply step_line_to_end; eauto.
        * right. exists r. simpl. auto.
  Qed.

  (** C25: [parse] succeeds only if some input line, once trimmed, is
      ["EOF"] up to case: without such a line it throws (["Illegal
      state."] or an earlier error). *)
Theorem parse_ok_has_eof lines (h : H) h' :
    parse lines h = (Ok tt, h') ->
    exists raw, In raw lines /\ ci_eqb (_cleanupLine raw) "EOF" = true.
  Proof.
    unfold parse, st_bind.
    destruct (parse_lines initial_engine lines h) as [[e|x] h1] eqn:Hp; [|discriminate].
    destruct (state e) eqn:Hs; try discriminate. intros _.
    destruct (parse_lines_end _ _ _ _ _ Hp Hs) as [Habs|(raw & Hin & Ht)]; [discriminate|].
    exists raw. now rewrite <- root_test_eof.
  Qed.

End Errors.

(** ** Section opening *)

Section Opening.
Context {H : Type} `{SteinerInstance H}.

  (** C20: ["SECTION <name>"] for a name outside the registry raises
      [UnrecognizedSectionException] listing the seven known sections, after
      the [section] callback has run. *)
Theorem unknown_section_raises e kw sp name (h h1 : H) :
    state e = wait_for_section -> ci_eqb kw "SECTION" = true ->
    sp <> "" -> all_chars is_ws sp = true ->
    name <> "" -> all_chars is_word name = true -> registry_lookup name = None ->
    call_if_truthy "section" (kw ++ sp ++ name) [VStr name] h = (Ok tt, h1) ->
    step_line e (kw ++ sp ++ name) h =
      (Throw (UnrecognizedSectionException
                ("Invalid section identifier " ++ dq ++ name ++ dq ++
                 ". Known sections: Comment, Coordinates, Graph, MaximumDegrees, Obstacles, Presolve, Terminals.")),
       h1).
  Proof.
    intros Hs Hkw Hsp Hspw Hn Hnw Hreg Hcb. unfold step_line. rewrite Hs. unfold try_section.
    rewrite (getSectionParser_name kw sp name h Hkw Hsp Hspw Hn Hnw).
    unfold st_bind. rewrite Hcb, Hreg. reflexivity.
  Qed.

  (** C21: ["SECTION <name>"] where [name] is a member of
      [Object.prototype] ("toString", "constructor", ...) raises nothing:
      the registry object finds the inherited member, the TypeError of
      [new] or of [sectionStart] is swallowed by the catch, and the engine
      stays in wait_for_section after calling [section] and the
      lower-cased slot. *)
Theorem prototype_section_absorbed e kw sp name (h h1 h2 : H) :
    state e = wait_for_section -> ci_eqb kw "SECTION" = true ->
    sp <> "" -> all_chars is_ws sp = true ->
    name <> "" -> all_chars is_word name = true -> In name object_prototype_members ->
    call_if_truthy "section" (kw ++ sp ++ name) [VStr name] h = (Ok tt, h1) ->
    call_optional (toLowerCase name) (kw ++ sp ++ name) [VStr name] h1 = (Ok tt, h2) ->
    exists e', step_line e (kw ++ sp ++ name) h = (Ok e', h2) /\ state e' = wait_for_section.
  Proof.
    intros Hs Hkw Hsp Hspw Hn Hnw Hin Hcb Hlow. unfold step_line. rewrite Hs. unfold try_section.
    rewrite (getSectionParser_name kw sp name h Hkw Hsp Hspw Hn Hnw).
    unfold st_bind. rewrite Hcb, (registry_lookup_proto name Hin), Hlow.
    unfold construct. destruct (String.eqb_spec name "constructor").
    - eexists. split; [reflexivity|]. exact Hs.
    - eexists. split; [reflexivity|]. exact Hs.
  Qed.
(** C22: an error other than a [SteinlibParsingException] thrown by
    the handler's [section] callback while a section is opened is
    swallowed by the catch: the line is ignored, the engine stays as it
    was, and parsing goes on. *)
Theorem section_callback_error_swallowed e kw sp name (h h1 : H) ename msg :
  state e = wait_for_section -> ci_eqb kw "SECTION" = true ->
  sp <> "" -> all_chars is_ws sp = true ->
  name <> "" -> all_chars is_word name = true ->
  call_if_truthy "section" (kw ++ sp ++ name) [VStr name] h = (Throw (JsError ename msg), h1) ->
  step_line e (kw ++ sp ++ name) h = (Ok e, h1).
Proof.
  intros Hs Hkw Hsp Hspw Hn Hnw Hcb. unfold step_line. rewrite Hs. unfold try_section.
  rewrite (getSectionParser_name kw sp name h Hkw Hsp Hspw Hn Hnw).
  unfold st_bind. now rewrite Hcb.
Qed.

(** A registered section: after the [section] callback, the lower-cased
    slot is called; when it returns the engine enters the section, when
    it throws the catch decides. *)
Lemma step_section_registered e kw sp name k (h h1 : H) :
  state e = wait_for_section -> ci_eqb kw "SECTION" = true ->
  sp <> "" -> all_chars is_ws sp = true ->
  name <> "" -> all_chars is_word name = true -> registry_lookup name = Some (SectionClass k) ->
  call_if_truthy "section" (kw ++ sp ++ name) [VStr name] h = (Ok tt, h1) ->
  step_line e (kw ++ sp ++ name) h =
    match call_optional (toLowerCase name) (kw ++ sp ++ name) [VStr name] h1 with
    | (Ok _, h2) => (Ok (mkengine inside_section (Some (SectionInstance k))), h2)
    | (Throw ex, h2) => catch_section e (kw ++ sp ++ name) ex h2
    end.
Proof.
  intros Hs Hkw Hsp Hspw Hn Hnw Hreg Hcb. unfold step_line. rewrite Hs. unfold try_section.
  rewrite (getSectionParser_name kw sp name h Hkw Hsp Hspw Hn Hnw).
  unfold st_bind. rewrite Hcb, Hreg.
  now destruct (call_optional (toLowerCase name) _ _ h1) as [[]].
Qed.

(** C23: a registered section whose lower-cased slot on the handler holds
    a falsy value that is not a function ([terminals: false]) is never
    entered: [callback?.()] calls it and throws a TypeError, which the
    catch swallows, so the line is ignored and the engine stays in
    wait_for_section, whereas the header and token callbacks skip such a
    slot ([if (callback)]). *)
Theorem falsy_section_slot_ignored e kw sp name k (h h1 : H) :
  state e = wait_for_section -> ci_eqb kw "SECTION" = true ->
  sp <> "" -> all_chars is_ws sp = true ->
  name <> "" -> all_chars is_word name = true -> registry_lookup name = Some (SectionClass k) ->
  call_if_truthy "section" (kw ++ sp ++ name) [VStr name] h = (Ok tt, h1) ->
  get_slot h1 (toLowerCase name) = Falsy ->
  step_line e (kw ++ sp ++ name) h = (Ok e, h1).
Proof.
  intros Hs Hkw Hsp Hspw Hn Hnw Hreg Hcb Hslot.
  rewrite (step_section_registered e kw sp name k h h1 Hs Hkw Hsp Hspw Hn Hnw Hreg Hcb).
  unfold call_optional. now rewrite Hslot.
Qed.

(** C24: the first content line must be a header: a line the header
    pattern does not match raises "Unexpected line" and the state is not
    advanced. *)
Theorem malformed_header_raises e line (h : H) :
  state e = wait_for_header -> root_test RootHeaderParser line = false ->
  step_line e line h = (Throw (SteinlibParsingException ("Unexpected line: " ++ line)), h).
Proof.
  intros Hs Ht. unfold step_line. rewrite Hs. unfold st_bind.
  now rewrite (matches_no_match _ _ h (proj1 root_parsers_well_formed) Ht).
Qed.
End Opening.

(** ** Instances of the theorems *)

Definition r0 : recorder := mkrecorder [] [].

Lemma parse_comment_transparent_witness :
  parse (["33D32945 demo"] ++ "  # a comment" :: ["EOF"]) r0 =
  parse (["33D32945 demo"] ++ ["EOF"]) r0.
Proof. apply (parse_comment_transparent (H:=recorder)). reflexivity. Defined.

Lemma step_line_transition_witness : transition wait_for_header wait_for_section.
Proof.
  apply (step_line_transition (H:=recorder) initial_engine "33D32945 demo" r0
           (mkengine wait_for_section None) r0).
  reflexivity.
Defined.

Lemma reachable_inside_has_parser_witness :
  exists k, sectionClass (mkengine inside_section (Some (SectionInstance Graph))) =
            Some (SectionInstance k).
Proof.
  apply (reachable_inside_has_parser (H:=recorder) _ r0); [|reflexivity].
  apply (reach_step (mkengine wait_for_section None) r0 "SECTION Graph"); [|reflexivity|reflexivity].
  apply (reach_step initial_engine r0 "33D32945 demo"); [apply reach_init|reflexivity|reflexivity].
Defined.

Lemma garbage_between_sections_raises_witness :
  step_line (mkengine wait_for_section None) "garbage" r0 =
  (Throw (SteinlibParsingException ("Unexpected line: " ++ "garbage")), r0).
Proof. apply (garbage_between_sections_raises (H:=recorder)); reflexivity. Defined.

Lemma parse_content_after_eof_witness :
  parse (["33D32945 demo"; "EOF"] ++ "more" :: []) r0 =
  (Throw (SteinlibParsingException unexpected_eof_message), r0).
Proof.
  apply (parse_content_after_eof (H:=recorder) _ _ _ _ (mkengine end_ None));
    reflexivity.
Defined.

Lemma parse_ok_has_eof_witness :
  exists raw, In raw ["33D32945 demo"; "  eof "] /\ ci_eqb (_cleanupLine raw) "EOF" = true.
Proof. apply (parse_ok_has_eof (H:=recorder) _ r0 r0). reflexivity. Defined.

Lemma unknown_section_raises_witness :
  step_line (mkengine wait_for_section None) ("SECTION" ++ " " ++ "Bogus") r0 =
  (Throw (UnrecognizedSectionException
            ("Invalid section identifier " ++ dq ++ "Bogus" ++ dq ++
             ". Known sections: Comment, Coordinates, Graph, MaximumDegrees, Obstacles, Presolve, Terminals.")),
   r0).
Proof.
  apply (unknown_section_raises (H:=recorder)); try reflexivity; discriminate.
Defined.

Lemma prototype_section_absorbed_witness :
  exists e', step_line (mkengine wait_for_section None) ("section" ++ " " ++ "toString") r0 =
             (Ok e', r0) /\ state e' = wait_for_section.
Proof.
  apply (prototype_section_absorbed (H:=recorder) _ _ _ _ r0 r0 r0);
    try reflexivity; try discriminate.
  simpl. tauto.
Defined.

Lemma section_callback_error_swallowed_witness :
  step_line (mkengine wait_for_section None) ("SECTION" ++ " " ++ "Graph")
            (mkfaulty ["section"] r0) =
  (Ok (mkengine wait_for_section None), mkfaulty ["section"] r0).
Proof.
  apply (section_callback_error_swallowed _ _ _ _ _ _ "Error" "callback failed");
    try reflexivity; discriminate.
Defined.

Lemma falsy_section_slot_ignored_witness :
  step_line (mkengine wait_for_section None) ("SECTION" ++ " " ++ "Terminals")
            (mkstubbed ["terminals"] r0) =
  (Ok (mkengine wait_for_section None), mkstubbed ["terminals"] r0).
Proof.
  apply (falsy_section_slot_ignored _ _ _ _ Terminals); try reflexivity; discriminate.
Defined.

Lemma malformed_header_raises_witness :
  step_line initial_engine "33D32946 wrong magic" r0 =
  (Throw (SteinlibParsingException ("Unexpected line: " ++ "33D32946 wrong magic")), r0).
Proof. apply (malformed_header_raises (H:=recorder)); reflexivity. Defined.

End Engine.
