(* ===== verification/Document.v ===== *)
(** * Well-formed documents

    The specification's contract for a well-formed input (a header, a
    sequence of known sections each closed by [END], then [EOF]): [parse]
    completes in the state [end_] and the handler receives, in order,
    [header], then per section [section], [<name>], one
    [<section>__<rule>] per token line and [<section>__end], then [eof].
    [document] is the abstract document, [render] its lines and [trace]
    the calls it promises.  The contract is proved in Section [Contract]
    for every handler whose callbacks return normally on the slots of
    the section kinds [ks] it serves ([callbacks_ok]), and every document
    whose sections are of those kinds ([kinds_in]): [parse] leaves it as
    the calls of [trace], made in order, leave it ([deliver_all]).  The
    recording handler of Handler.v serves every kind, and the
    specification's end-to-end scenario is an instance.  The step and
    prefix lemmas are shared with DocumentErrors.v; the state machine
    has no dead state. *)

From S2P Require Import Prelude JsString JsRegExp RegExpShapes JsValue State Exceptions Handler Section Grammar Root Engine.
Local Open Scope string_scope.

Module Document.
Import JsString JsRegExp JsValue State Exceptions Handler Section Grammar Root Engine.

(** ** The header line *)

Definition header_magic : string := "33D32945".

(** A title the header line can carry: not empty, on one line, and with
    no white space at either end (the engine trims lines). *)
Definition title_ok (t : string) : bool :=
  negb (String.eqb t "") && negb (starts_ws t) && String.eqb (trim t) t
  && all_chars (fun c => negb (is_line_terminator c)) t.

Definition header_line (t : string) : string := header_magic ++ " " ++ t.

Lemma root_regex_header :
  root_regex RootHeaderParser =
    Some (mkregexp "^33D32945(?:\s+)(.+)$" (mkflags false true false)
            (RSeq RBol (seq_of (lits header_magic ++
               [RNGroup (RSeq (RPlus CSpace) REmpty); RGroup 1 (RSeq (RPlus CDot) REmpty);
                REol]))) 1).
Proof. reflexivity. Qed.

Lemma title_ok_parts t :
  title_ok t = true ->
  exists c t', t = String c t' /\ is_ws c = false /\ trim t = t /\
               all_chars (cls_matches true CDot) t' = true /\
               cls_matches true CDot c = true.
Proof.
  unfold title_ok. intros H.
  apply andb_prop in H as [H Hlt]. apply andb_prop in H as [H Htrim].
  apply andb_prop in H as [Hne Hws].
  destruct t as [|c t']; [discriminate|]. simpl in Hws, Hlt. apply negb_true_iff in Hws.
  apply String.eqb_eq in Htrim. apply andb_prop in Hlt as [Hc Ht].
  exists c, t'. repeat split; auto.
Qed.

(** The header pattern captures the title. *)
Lemma str_match_header t re :
  title_ok t = true -> root_regex RootHeaderParser = Some re ->
  str_match re (header_line t) = Some [Some t].
Proof.
  intros Ht Hre. rewrite root_regex_header in Hre.
  assert (E := f_equal (fun o => match o with Some x => x | None => re end) Hre).
  cbv beta iota in E. subst re.
  destruct (title_ok_parts t Ht) as (c & t' & -> & Hc & _ & Hdot & Hcdot).
  unfold str_match. cbn [rflags prog ignoreCase ngroups].
  rewrite search_bol.
  change (m true (RSeq RBol ?Y) (mkst 0 ?s []) ?k) with (m true Y (mkst 0 s []) k).
  unfold header_line. rewrite m_seq_lits.
  rewrite (lit_prefix_app true header_magic "" header_magic (lit_prefix_refl _)).
  cbn [String.append]. rewrite m_seq_cons.
  erewrite (m_ngroup_run true CSpace " " "" (String c t') _ _ _ [(1, String c t')]);
    [reflexivity|reflexivity|reflexivity|exact Hc|].
  rewrite m_seq_cons. apply m_group_run_end; [exact Hcdot| |reflexivity].
  now rewrite all_cls_chars.
Qed.

(** ** Abstract documents *)

(** The registry names of the sections. *)
Definition section_name (k : section_kind) : string :=
  match k with
  | Comment => "Comment"
  | Coordinates => "Coordinates"
  | Graph => "Graph"
  | MaximumDegrees => "MaximumDegrees"
  | Obstacles => "Obstacles"
  | Presolve => "Presolve"
  | Terminals => "Terminals"
  end.

Record doc_section : Type := mksection { ds_kind : section_kind; ds_body : list string }.
Record document : Type := mkdocument { d_title : string; d_sections : list doc_section }.

(** The rule of table [k] a token line is parsed with: the rule that
    matches (unique by [rule_match_unique]), when it keeps the parser
    inside the section. *)
Definition token_rule (k : section_kind) (line : string)
  : option (string * list (option string)) :=
  match last_match k line (getKnownTokens k) with
  | Some ((n, meta), gs) =>
      match next_state meta with None => Some (n, gs) | Some _ => None end
  | None => None
  end.

(** A token line of section [k]: unchanged by trimming, not a comment,
    and matched by a rule of [k] that keeps the parser in the section. *)
Definition token_ok (k : section_kind) (line : string) : bool :=
  String.eqb (_cleanupLine line) line && negb (skipped line) &&
  match token_rule k line with Some _ => true | None => false end.

Definition doc_ok (d : document) : bool :=
  title_ok (d_title d) &&
  forallb (fun s => forallb (token_ok (ds_kind s)) (ds_body s)) (d_sections d).

(** ** Its lines and the calls it promises *)

Definition section_line (k : section_kind) : string := "SECTION " ++ section_name k.

Definition render_section (s : doc_section) : list string :=
  section_line (ds_kind s) :: ds_body s ++ ["END"].

Definition render (d : document) : list string :=
  header_line (d_title d) :: concat (map render_section (d_sections d)) ++ ["EOF"].

Definition token_event (k : section_kind) (line : string) : list event :=
  match token_rule k line with
  | Some (n, gs) =>
      [mkevent (callbackToken k ++ "__" ++ n) line
               (convertIntDigitsWhenPossible (map template_of_group gs))]
  | None => []
  end.

Definition section_trace (s : doc_section) : list event :=
  let k := ds_kind s in
  mkevent "section" (section_line k) [VStr (section_name k)]
  :: mkevent (toLowerCase (section_name k)) (section_line k) [VStr (section_name k)]
  :: concat (map (token_event k) (ds_body s))
  ++ [mkevent (callbackToken k ++ "__end") "END" []].

Definition trace (d : document) : list event :=
  mkevent "header" (header_line (d_title d)) [VStr (d_title d)]
  :: concat (map section_trace (d_sections d)) ++ [mkevent "eof" "EOF" []].

(** ** One line at a time *)

Lemma registry_lookup_section_name k : registry_lookup (section_name k) = Some (SectionClass k).
Proof. destruct k; reflexivity. Qed.

Lemma section_name_word k : section_name k <> "" /\ all_chars is_word (section_name k) = true.
Proof. destruct k; split; (discriminate || reflexivity). Qed.

Lemma token_rule_parsed k line n gs :
  token_rule k line = Some (n, gs) ->
  getParsedTokens k line = Ok (mkparsed (Some n) (Some gs) inside_section) /\
  String.eqb n "" = false.
Proof.
  unfold token_rule.
  destruct (last_match k line (getKnownTokens k)) as [[[n' meta] gs']|] eqn:E; [|discriminate].
  destruct (next_state meta) eqn:Hns; [discriminate|]. intros Heq. injection Heq as <- <-.
  destruct (last_match_some _ _ _ _ _ E) as [Hin _]. split.
  - rewrite getParsedTokens_selected, E. cbn. now rewrite Hns.
  - exact (table_names k _ Hin).
Qed.

(** ** The lines of a document reach [step_line] unchanged *)

Lemma header_line_clean t :
  title_ok t = true -> _cleanupLine (header_line t) = header_line t /\ skipped (header_line t) = false.
Proof.
  intros Ht. split; [|reflexivity].
  destruct (title_ok_parts t Ht) as (c & t' & -> & Hc & Htrim & _).
  assert (Hstart : trim_start (String c t') = String c t') by (simpl; now rewrite Hc).
  unfold trim in Htrim. rewrite Hstart in Htrim.
  unfold _cleanupLine, trim, header_line.
  change (trim_start (header_magic ++ " " ++ String c t')) with (header_magic ++ " " ++ String c t').
  assert (H1 : trim_end (" " ++ String c t') = " " ++ String c t').
  { rewrite (trim_end_app " " (String c t')); [now rewrite Htrim|]. rewrite Htrim. discriminate. }
  rewrite (trim_end_app header_magic (" " ++ String c t')); [now rewrite H1|].
  rewrite H1. discriminate.
Qed.

Lemma section_line_clean k :
  _cleanupLine (section_line k) = section_line k /\ skipped (section_line k) = false.
Proof. destruct k; split; reflexivity. Qed.

Lemma token_ok_parts k line :
  token_ok k line = true ->
  _cleanupLine line = line /\ skipped line = false /\ exists n gs, token_rule k line = Some (n, gs).
Proof.
  unfold token_ok. intros H. apply andb_prop in H as [H Hr]. apply andb_prop in H as [Hc Hs].
  apply String.eqb_eq in Hc. apply negb_true_iff in Hs.
  destruct (token_rule k line) as [[n gs]|]; [|discriminate]. eauto.
Qed.

(** ** The names a document calls *)

(** The slots a well-formed document whose sections are of the kinds
    [ks] makes the engine call. *)
Inductive doc_name (ks : section_kind -> Prop) : string -> Prop :=
| dn_header : doc_name ks "header"
| dn_section : doc_name ks "section"
| dn_eof : doc_name ks "eof"
| dn_open k : ks k -> doc_name ks (toLowerCase (section_name k))
| dn_token k e : ks k -> In e (getKnownTokens k) -> doc_name ks (callbackToken k ++ "__" ++ fst e).
Arguments dn_header {ks}.
Arguments dn_section {ks}.
Arguments dn_eof {ks}.
Arguments dn_open {ks} k.
Arguments dn_token {ks} k e.

(** The sections of [secs] are of the kinds [ks]. *)
Definition kinds_in (ks : section_kind -> Prop) (secs : list doc_section) : Prop :=
  Forall (fun s => ks (ds_kind s)) secs.

Lemma end_in_table k : In ("end", DEFAULT_SECTION_END) (getKnownTokens k).
Proof.
  destruct (getKnownTokens_end k "") as (pre & -> & _). apply in_or_app. right. now left.
Qed.

Lemma token_event_names ks k line :
  ks k -> Forall (fun ev => doc_name ks (ev_name ev)) (token_event k line).
Proof.
  intros Hk. unfold token_event, token_rule.
  destruct (last_match k line (getKnownTokens k)) as [[[n meta] gs]|] eqn:E; [|constructor].
  destruct (next_state meta); [constructor|].
  destruct (last_match_some _ _ _ _ _ E) as [Hin _].
  constructor; [exact (dn_token k (n, meta) Hk Hin)|constructor].
Qed.

Lemma token_events_names ks k body :
  ks k -> Forall (fun ev => doc_name ks (ev_name ev)) (concat (map (token_event k) body)).
Proof.
  intros Hk. apply Forall_concat, Forall_map, Forall_forall. intros line _.
  now apply token_event_names.
Qed.

Lemma section_trace_names ks sec :
  ks (ds_kind sec) -> Forall (fun ev => doc_name ks (ev_name ev)) (section_trace sec).
Proof.
  intros Hk. unfold section_trace. repeat apply Forall_cons; cbn [ev_name];
    [apply dn_section | apply dn_open, Hk | ].
  apply Forall_app; split; [now apply token_events_names|].
  constructor; [exact (dn_token _ _ Hk (end_in_table (ds_kind sec)))|constructor].
Qed.

Lemma sections_trace_names ks secs :
  kinds_in ks secs ->
  Forall (fun ev => doc_name ks (ev_name ev)) (concat (map section_trace secs)).
Proof.
  intros Hks. apply Forall_concat, Forall_map, Forall_forall. intros sec Hin.
  apply section_trace_names. unfold kinds_in in Hks. rewrite Forall_forall in Hks. auto.
Qed.

Lemma trace_names ks d :
  kinds_in ks (d_sections d) -> Forall (fun ev => doc_name ks (ev_name ev)) (trace d).
Proof.
  intros Hks. unfold trace. constructor; [apply dn_header|]. apply Forall_app; split.
  - now apply sections_trace_names.
  - constructor; [apply dn_eof|constructor].
Qed.

(** ** Handlers whose callbacks succeed *)

Section Contract.
Context {H : Type} `{SteinerInstance H}.

(** What one call does to the handler: the callback's effect when the
    slot holds a function, nothing when it is absent. *)
Definition deliver (ev : event) (h : H) : H :=
  match get_slot h (ev_name ev) with
  | Callable f => snd (f (ev_line ev) (ev_args ev) h)
  | _ => h
  end.

Definition deliver_all (evs : list event) (h : H) : H :=
  fold_left (fun h ev => deliver ev h) evs h.

(** The handlers of the contract for documents whose sections are of
    the kinds [ks]: in every state satisfying [P], a slot such a
    document calls is absent or holds a callback that returns normally,
    in a state satisfying [P].  Other slots are free: a plain JavaScript
    object whose prototype holds non-callable or throwing members keeps
    the contract, and so does a handler that only serves some sections. *)
Definition callbacks_ok (ks : section_kind -> Prop) (P : H -> Prop) : Prop :=
  forall h name, P h -> doc_name ks name ->
    match get_slot h name with
    | Undefined => True
    | Callable f => forall line args, exists h', f line args h = (Ok tt, h') /\ P h'
    | Falsy | NonCallable => False
    end.

Variable ks : section_kind -> Prop.
Variable P : H -> Prop.
Hypothesis HP : callbacks_ok ks P.

Lemma deliver_P ev h : P h -> doc_name ks (ev_name ev) -> P (deliver ev h).
Proof.
  intros Hh Hn. specialize (HP h (ev_name ev) Hh Hn). unfold deliver.
  destruct (get_slot h (ev_name ev)); try contradiction; [exact Hh|].
  destruct (HP (ev_line ev) (ev_args ev)) as (h' & -> & Hh'). exact Hh'.
Qed.

Lemma deliver_all_P evs : forall h,
  P h -> Forall (fun ev => doc_name ks (ev_name ev)) evs -> P (deliver_all evs h).
Proof.
  induction evs as [|ev evs IH]; intros h Hh Hn; [exact Hh|].
  inversion Hn; subst. apply IH; [apply deliver_P|]; assumption.
Qed.

Lemma call_if_truthy_ok name line args h :
  P h -> doc_name ks name ->
  call_if_truthy name line args h = (Ok tt, deliver (mkevent name line args) h).
Proof.
  intros Hh Hn. specialize (HP h name Hh Hn). unfold call_if_truthy, deliver.
  cbn [ev_name ev_line ev_args].
  destruct (get_slot h name); try contradiction; [reflexivity|].
  destruct (HP line args) as (h' & -> & _). reflexivity.
Qed.

Lemma call_optional_ok name line args h :
  P h -> doc_name ks name ->
  call_optional name line args h = (Ok tt, deliver (mkevent name line args) h).
Proof.
  intros Hh Hn. specialize (HP h name Hh Hn). unfold call_optional, deliver.
  cbn [ev_name ev_line ev_args].
  destruct (get_slot h name); try contradiction; [reflexivity|].
  destruct (HP line args) as (h' & -> & _). reflexivity.
Qed.

Lemma step_header c t h :
  P h -> title_ok t = true ->
  step_line (mkengine wait_for_header c) (header_line t) h =
    (Ok (mkengine wait_for_section c), deliver (mkevent "header" (header_line t) [VStr t]) h).
Proof.
  intros Hh Ht. unfold step_line, st_bind. cbn [state].
  destruct (root_regex RootHeaderParser) as [re|] eqn:Hre; [|discriminate].
  rewrite (matches_found RootHeaderParser re _ [Some t] h ltac:(discriminate) Hre
             (str_match_header t re Ht Hre)).
  unfold st_bind. now rewrite call_if_truthy_ok by (exact Hh || apply dn_header).
Qed.

Lemma step_section_open c k h :
  ks k -> P h ->
  step_line (mkengine wait_for_section c) (section_line k) h =
    (Ok (mkengine inside_section (Some (SectionInstance k))),
     deliver_all [mkevent "section" (section_line k) [VStr (section_name k)];
                  mkevent (toLowerCase (section_name k)) (section_line k) [VStr (section_name k)]] h).
Proof.
  intros Hk Hh. destruct (section_name_word k) as [Hn Hw].
  unfold step_line, try_section. cbn [state].
  change (section_line k) with ("SECTION" ++ " " ++ section_name k).
  rewrite (getSectionParser_name "SECTION" " " (section_name k) h eq_refl
             ltac:(discriminate) eq_refl Hn Hw).
  unfold st_bind. rewrite call_if_truthy_ok by (exact Hh || apply dn_section).
  rewrite registry_lookup_section_name.
  rewrite call_optional_ok by (apply (dn_open k Hk) || (apply deliver_P; [exact Hh|apply dn_section])).
  reflexivity.
Qed.

Lemma step_token k line n gs h :
  ks k -> P h -> token_rule k line = Some (n, gs) ->
  step_line (mkengine inside_section (Some (SectionInstance k))) line h =
    (Ok (mkengine inside_section (Some (SectionInstance k))),
     deliver (mkevent (callbackToken k ++ "__" ++ n) line
                      (convertIntDigitsWhenPossible (map template_of_group gs))) h).
Proof.
  intros Hk Hh Hr. destruct (token_rule_parsed k line n gs Hr) as [Hp Hn].
  assert (Hname : doc_name ks (callbackToken k ++ "__" ++ n)).
  { pose proof (token_event_names ks k line Hk) as Hf. unfold token_event in Hf. rewrite Hr in Hf.
    inversion Hf; assumption. }
  unfold step_line, inside, parseToken, st_bind. cbn [state sectionClass].
  rewrite Hp. cbn [matchingName extractedTokens nextState]. rewrite Hn.
  now rewrite call_if_truthy_ok.
Qed.

Lemma step_end k h :
  ks k -> P h ->
  step_line (mkengine inside_section (Some (SectionInstance k))) "END" h =
    (Ok (mkengine wait_for_section (Some (SectionInstance k))),
     deliver (mkevent (callbackToken k ++ "__end") "END" []) h).
Proof.
  intros Hk Hh. unfold step_line, inside, parseToken, st_bind. cbn [state sectionClass].
  rewrite (getParsedTokens_end k "END" eq_refl). cbn [matchingName extractedTokens nextState].
  replace (String.eqb "end" "") with false by reflexivity.
  now rewrite call_if_truthy_ok by (exact Hh || exact (dn_token _ _ Hk (end_in_table k))).
Qed.

Lemma step_eof c h :
  P h ->
  step_line (mkengine wait_for_section c) "EOF" h =
    (Ok (mkengine end_ c), deliver (mkevent "eof" "EOF" []) h).
Proof.
  intros Hh. unfold step_line, try_section. cbn [state].
  rewrite (getSectionParser_no_match "EOF" h ltac:(vm_compute; reflexivity)).
  unfold catch_section. cbn [is_UnrecognizedSectionException is_SteinlibParsingException].
  unfold st_bind.
  rewrite (matches_found RootEofParser _ "EOF" [] h ltac:(discriminate) root_regex_eof
             ltac:(vm_compute; reflexivity)).
  unfold st_bind. now rewrite call_if_truthy_ok by (exact Hh || apply dn_eof).
Qed.

(** ** The lines of a document, in order *)

Lemma parse_lines_step e raw rest h e' h' :
  _cleanupLine raw = raw -> skipped raw = false -> step_line e raw h = (Ok e', h') ->
  parse_lines e (raw :: rest) h = parse_lines e' rest h'.
Proof.
  intros Hc Hs Hst. rewrite parse_lines_cons, Hc, Hs. unfold st_bind. now rewrite Hst.
Qed.

Lemma parse_tokens k body : forall rest h,
  ks k -> P h -> forallb (token_ok k) body = true ->
  parse_lines (mkengine inside_section (Some (SectionInstance k))) (body ++ rest) h =
    parse_lines (mkengine inside_section (Some (SectionInstance k))) rest
                (deliver_all (concat (map (token_event k) body)) h).
Proof.
  induction body as [|line body IH]; intros rest h Hk Hh Hb; [reflexivity|].
  simpl in Hb. apply andb_prop in Hb as [Hl Hb].
  destruct (token_ok_parts k line Hl) as (Hc & Hs & n & gs & Hr).
  assert (Hnames := token_event_names ks k line Hk).
  assert (E : token_event k line = [mkevent (callbackToken k ++ "__" ++ n) line
                (convertIntDigitsWhenPossible (map template_of_group gs))])
    by (unfold token_event; now rewrite Hr).
  rewrite E in Hnames. inversion Hnames as [|? ? Hname _]; subst.
  cbn [app map concat]. unfold deliver_all. rewrite fold_left_app, E.
  rewrite (parse_lines_step _ _ _ _ _ _ Hc Hs (step_token k line n gs h Hk Hh Hr)).
  apply IH; [exact Hk | apply deliver_P; assumption | exact Hb].
Qed.

(** After the opening of a section, its token lines: the engine is
    inside the section, with the opening calls and the token calls made. *)
Lemma parse_open_section c k good rest h :
  ks k -> P h -> forallb (token_ok k) good = true ->
  parse_lines (mkengine wait_for_section c) (section_line k :: good ++ rest) h =
    parse_lines (mkengine inside_section (Some (SectionInstance k))) rest
      (deliver_all ([mkevent "section" (section_line k) [VStr (section_name k)];
                     mkevent (toLowerCase (section_name k)) (section_line k) [VStr (section_name k)]]
                    ++ concat (map (token_event k) good)) h).
Proof.
  intros Hk Hh Hb. destruct (section_line_clean k) as [Hc Hs].
  rewrite (parse_lines_step _ _ _ _ _ _ Hc Hs (step_section_open c k h Hk Hh)).
  unfold deliver_all at 2. rewrite fold_left_app. apply parse_tokens; [exact Hk| |exact Hb].
  apply deliver_all_P; [exact Hh|]. repeat constructor. exact Hk.
Qed.

Lemma parse_section c sec rest h :
  ks (ds_kind sec) -> P h -> forallb (token_ok (ds_kind sec)) (ds_body sec) = true ->
  parse_lines (mkengine wait_for_section c) (render_section sec ++ rest) h =
    parse_lines (mkengine wait_for_section (Some (SectionInstance (ds_kind sec)))) rest
                (deliver_all (section_trace sec) h).
Proof.
  intros Hk Hh Hb. destruct sec as [k body]. cbn [ds_kind ds_body] in *.
  unfold render_section, section_trace. cbn [ds_kind ds_body app].
  rewrite <- app_assoc, (parse_open_section c k body _ h Hk Hh Hb). cbn [app].
  match goal with |- parse_lines _ _ (deliver_all ?E h) = _ => set (evs := E) end.
  assert (Hh2 : P (deliver_all evs h)).
  { apply deliver_all_P; [exact Hh|]. unfold evs.
    constructor; [apply dn_section|]. constructor; [exact (dn_open k Hk)|].
    now apply token_events_names. }
  rewrite (parse_lines_step _ "END" _ _ _ _ eq_refl eq_refl (step_end k _ Hk Hh2)).
  unfold evs, deliver_all. cbn [fold_left]. now rewrite !fold_left_app.
Qed.

Lemma parse_sections secs : forall c rest h,
  kinds_in ks secs -> P h ->
  forallb (fun s => forallb (token_ok (ds_kind s)) (ds_body s)) secs = true ->
  exists c', parse_lines (mkengine wait_for_section c) (concat (map render_section secs) ++ rest) h =
             parse_lines (mkengine wait_for_section c') rest
                         (deliver_all (concat (map section_trace secs)) h).
Proof.
  induction secs as [|sec secs IH]; intros c rest h Hks Hh Hs; [exists c; reflexivity|].
  inversion Hks as [|? ? Hk Hks']; subst.
  simpl in Hs. apply andb_prop in Hs as [Hsec Hs].
  cbn [map concat]. rewrite <- app_assoc, (parse_section _ _ _ _ Hk Hh Hsec).
  unfold deliver_all at 2. rewrite fold_left_app.
  apply IH; [exact Hks' | apply deliver_all_P; [exact Hh|now apply section_trace_names] | exact Hs].
Qed.

(** The header then complete sections: the engine waits for a section
    with the header call and the sections' calls made. *)
Lemma parse_header_sections t secs rest h :
  P h -> title_ok t = true -> kinds_in ks secs ->
  forallb (fun s => forallb (token_ok (ds_kind s)) (ds_body s)) secs = true ->
  exists c, parse_lines initial_engine (header_line t :: concat (map render_section secs) ++ rest) h =
            parse_lines (mkengine wait_for_section c) rest
              (deliver_all (mkevent "header" (header_line t) [VStr t]
                            :: concat (map section_trace secs)) h).
Proof.
  intros Hh Ht Hks Hs. destruct (header_line_clean _ Ht) as [Hc Hsk].
  unfold initial_engine.
  rewrite (parse_lines_step _ _ _ _ _ _ Hc Hsk (step_header None _ h Hh Ht)).
  apply parse_sections; [exact Hks| |exact Hs].
  exact (deliver_P (mkevent "header" (header_line t) [VStr t]) _ Hh dn_header).
Qed.

(** Those calls keep the invariant of the handler. *)
Lemma header_sections_P t secs h :
  P h -> kinds_in ks secs ->
  P (deliver_all (mkevent "header" (header_line t) [VStr t] :: concat (map section_trace secs)) h).
Proof.
  intros Hh Hks. apply deliver_all_P; [exact Hh|].
  constructor; [apply dn_header|now apply sections_trace_names].
Qed.

(** The loop over the lines of a well-formed document ends in [end_]
    with the calls of [trace] made. *)
Lemma parse_lines_document d h :
  P h -> doc_ok d = true -> kinds_in ks (d_sections d) ->
  exists c, parse_lines initial_engine (render d) h =
              (Ok (mkengine end_ c), deliver_all (trace d) h).
Proof.
  unfold doc_ok. intros Hh Hd Hks. apply andb_prop in Hd as [Ht Hs].
  unfold render, trace.
  destruct (parse_header_sections _ _ ["EOF"] h Hh Ht Hks Hs) as [c ->].
  rewrite (parse_lines_step _ "EOF" _ _ _ _ eq_refl eq_refl
             (step_eof c _ (header_sections_P _ _ h Hh Hks))).
  exists c. cbn [parse_lines st_ret]. unfold deliver_all. cbn [fold_left].
  now rewrite fold_left_app.
Qed.

(** ** The contract *)

(** C1: the specification's contract for well-formed documents: for any
    handler whose callbacks return normally (in the states of an
    invariant [P] they keep) on the slots of the section kinds [ks], and
    any document made of a header, a sequence of sections of those
    kinds whose lines are token lines of the section, each closed by
    [END], and [EOF], [parse] returns normally and the handler ends as
    the calls [trace] lists, made in that order, leave it: [header],
    then per section [section], the section's lower-cased name, one
    call per token line and [<section>__end], then [eof]; a call to an
    absent slot is skipped. *)
Theorem parse_document d h :
  P h -> doc_ok d = true -> kinds_in ks (d_sections d) ->
  parse (render d) h = (Ok tt, deliver_all (trace d) h).
Proof.
  intros Hh Hd Hks. destruct (parse_lines_document d h Hh Hd Hks) as [c E].
  unfold parse, st_bind. now rewrite E.
Qed.

(** C10: the document state machine has no dead state: from every engine
    that satisfies the engine invariant (every reachable one does), some
    continuation of the input brings the loop to the end state, with a
    handler of the contract: [END] closes an open section, a header
    line leaves the initial state, and [EOF] finishes. *)
Theorem can_finish e h :
  P h -> engine_inv e ->
  (forall k, sectionClass e = Some (SectionInstance k) -> ks k) ->
  exists lines e' h', parse_lines e lines h = (Ok e', h') /\ state e' = end_.
Proof.
  intros Hh Hinv Hks. destruct e as [[| | |] c].
  - exists [header_line "x"; "EOF"].
    destruct (header_line_clean "x" eq_refl) as [Hc Hs].
    rewrite (parse_lines_step _ _ _ _ _ _ Hc Hs (step_header c "x" h Hh eq_refl)).
    rewrite (parse_lines_step _ "EOF" _ _ _ _ eq_refl eq_refl
               (step_eof c _ (deliver_P (mkevent "header" (header_line "x") [VStr "x"]) _ Hh
                                         dn_header))).
    do 2 eexists. split; reflexivity.
  - exists ["EOF"].
    rewrite (parse_lines_step _ "EOF" _ _ _ _ eq_refl eq_refl (step_eof c _ Hh)).
    do 2 eexists. split; reflexivity.
  - destruct (Hinv eq_refl) as [k Hk]. cbn [sectionClass] in Hk. subst c.
    assert (Hkk : ks k) by (apply Hks; reflexivity).
    exists ["END"; "EOF"].
    rewrite (parse_lines_step _ "END" _ _ _ _ eq_refl eq_refl (step_end k h Hkk Hh)).
    rewrite (parse_lines_step _ "EOF" _ _ _ _ eq_refl eq_refl
               (step_eof _ _ (deliver_P (mkevent (callbackToken k ++ "__end") "END" []) _ Hh
                                         (dn_token _ _ Hkk (end_in_table k))))).
    do 2 eexists. split; reflexivity.
  - exists []. do 2 eexists. split; reflexivity.
Qed.
End Contract.

(** ** The recording handler keeps the contract *)

Lemma recorder_callbacks_ok ks : callbacks_ok (H:=recorder) ks (fun _ => True).
Proof.
  intros r name _ _. unfold get_slot, recorder_handler.
  destruct (existsb (String.eqb name) (rec_slots r)); [|exact I].
  intros line args. eexists. split; [reflexivity|exact I].
Qed.

(** The document of the specification's end-to-end scenario. *)
Definition terminals_doc : document :=
  mkdocument "Hello" [mksection Terminals ["Terminals 2"; "T 1"; "T 4"]].

Definition all_slots : list string :=
  ["header"; "section"; "terminals"; "terminals__terminals"; "terminals__t";
   "terminals__end"; "eof"].

Lemma parse_document_witness :
  doc_ok terminals_doc = true /\
  render terminals_doc =
    ["33D32945 Hello"; "SECTION Terminals"; "Terminals 2"; "T 1"; "T 4"; "END"; "EOF"] /\
  parse (render terminals_doc) (mkrecorder all_slots []) =
    (Ok tt, mkrecorder all_slots
      [mkevent "header" "33D32945 Hello" [VStr "Hello"];
       mkevent "section" "SECTION Terminals" [VStr "Terminals"];
       mkevent "terminals" "SECTION Terminals" [VStr "Terminals"];
       mkevent "terminals__terminals" "Terminals 2" [VNum 2%Z];
       mkevent "terminals__t" "T 1" [VNum 1%Z];
       mkevent "terminals__t" "T 4" [VNum 4%Z];
       mkevent "terminals__end" "END" [];
       mkevent "eof" "EOF" []]).
Proof.
  assert (Hd : doc_ok terminals_doc = true) by (vm_compute; reflexivity).
  split; [exact Hd|]. split; [reflexivity|].
  rewrite (parse_document (fun _ => True) (fun _ => True) (recorder_callbacks_ok _) terminals_doc
             (mkrecorder all_slots []) I Hd ltac:(repeat constructor)).
  vm_compute. reflexivity.
Defined.

Lemma can_finish_witness :
  engine_inv (mkengine inside_section (Some (SectionInstance Graph))) /\
  (forall k, sectionClass (mkengine inside_section (Some (SectionInstance Graph))) =
             Some (SectionInstance k) -> k = Graph) /\
  exists lines e' h',
    parse_lines (mkengine inside_section (Some (SectionInstance Graph))) lines
                (mkrecorder all_slots []) = (Ok e', h') /\ state e' = end_.
Proof.
  assert (Hinv : engine_inv (mkengine inside_section (Some (SectionInstance Graph))))
    by (intros _; exists Graph; reflexivity).
  assert (Hks : forall k, sectionClass (mkengine inside_section (Some (SectionInstance Graph))) =
                         Some (SectionInstance k) -> k = Graph) by (intros k E; now injection E).
  split; [exact Hinv|]. split; [exact Hks|].
  exact (can_finish (fun k => k = Graph) (fun _ => True) (recorder_callbacks_ok _) _
           (mkrecorder all_slots []) I Hinv Hks).
Defined.

End Document.
