(* ===== verification/DocumentErrors.v ===== *)
(** * Documents that go wrong

    What [parse] does on the inputs that are not well-formed documents,
    built from the same abstract documents and step lemmas as the
    contract of Document.v: the vocabularies of the root level and of
    the sections do not overlap, so a section line misplaced between
    sections is never taken for a root token; a malformed line inside a
    section stops the parse where it stands; input that ends before
    [EOF], inside a section or between sections, fails the final check
    of [parse] ("Illegal state."); and a handler whose lower-cased
    section slot is falsy but not a function breaks every document with
    such a section, at the first line after its opening. *)

From S2P Require Import Prelude JsString JsRegExp RegExpShapes JsValue State Exceptions Handler Section Grammar Root Engine Document.
Local Open Scope string_scope.

Module DocumentErrors.
Import JsString JsRegExp RegExpShapes JsValue State Exceptions Handler Section Grammar Root Engine Document.

(** ** Root tokens and section tokens *)

(** A root pattern with keyword [w0] and a rule of a table that both
    match one line have the same keyword up to case. *)
Lemma rule_root_keyword k line e gs re w0 gs' :
  In e (getKnownTokens k) -> rule_match k line e = Some gs ->
  keyword re = Some w0 -> ignoreCase (rflags re) = true -> all_chars is_word w0 = true ->
  str_match re line = Some gs' ->
  exists w, entry_keyword k "" e = Some w /\ ci_eqb w0 w = true.
Proof.
  intros Hin Hm Hk Hi Hw0 Hr.
  destruct (rule_match_keyword _ _ _ _ Hin Hm) as (w & s & Kw & Ww & Lw & Sw).
  destruct (keyword_sound re line gs' w0 Hk Hr) as (s' & L0 & S0). rewrite Hi in L0.
  exists w. split; [exact Kw|].
  exact (sep_prefix_unique w w0 line s s' Ww Hw0 Lw Sw L0 S0).
Qed.

(** No keyword of a table is [SECTION] or [EOF], up to case. *)
Definition avoids_root (k : section_kind) : bool :=
  forallb (fun e => match entry_keyword k "" e with
                    | Some w => negb (ci_eqb "SECTION" w) && negb (ci_eqb "EOF" w)
                    | None => false
                    end) (getKnownTokens k).

Lemma avoids_root_all k : avoids_root k = true.
Proof. destruct k; vm_compute; reflexivity. Qed.

Lemma root_test_keyword rp re w0 k line e gs :
  root_regex rp = Some re -> keyword re = Some w0 -> ignoreCase (rflags re) = true ->
  all_chars is_word w0 = true ->
  (forall w, entry_keyword k "" e = Some w -> ci_eqb w0 w = false) ->
  In e (getKnownTokens k) -> rule_match k line e = Some gs ->
  root_test rp line = false.
Proof.
  intros Hre Hk Hi Hw0 Hno Hin Hm. unfold root_test. rewrite Hre.
  destruct (str_match re line) as [gs'|] eqn:Hr; [|reflexivity].
  destruct (rule_root_keyword k line e gs re w0 gs' Hin Hm Hk Hi Hw0 Hr) as (w & Kw & Cw).
  now rewrite (Hno w Kw) in Cw.
Qed.

(** A line matched by a rule of a table matches neither root pattern
    that can follow a section. *)
Lemma rule_line_not_root k line e gs :
  In e (getKnownTokens k) -> rule_match k line e = Some gs ->
  root_test RootSectionParser line = false /\ root_test RootEofParser line = false.
Proof.
  intros Hin Hm. pose proof (avoids_root_all k) as Ha. unfold avoids_root in Ha.
  rewrite forallb_forall in Ha. specialize (Ha e Hin).
  split; [apply (root_test_keyword _ _ "SECTION" k line e gs root_regex_section)
         |apply (root_test_keyword _ _ "EOF" k line e gs root_regex_eof)];
    try reflexivity; try assumption;
    intros w Kw; rewrite Kw in Ha; apply andb_prop in Ha as [Ha1 Ha2];
    now apply negb_true_iff.
Qed.

Lemma token_ok_not_root k l :
  token_ok k l = true ->
  root_test RootSectionParser l = false /\ root_test RootEofParser l = false.
Proof.
  intros Hl. destruct (token_ok_parts k l Hl) as (_ & _ & n & gs & Hr).
  unfold token_rule in Hr.
  destruct (last_match k l (getKnownTokens k)) as [[e gs']|] eqn:E; [|discriminate].
  destruct (last_match_some _ _ _ _ _ E) as [Hin Hm].
  exact (rule_line_not_root k l e gs' Hin Hm).
Qed.

(** C12: the root level and the sections share no token: a line to
    which [getParsedTokens] of any section gives a rule (a token line or
    [END]) matches neither the [SECTION] pattern nor the [EOF] pattern,
    so a section line found between sections is never taken for the
    opening of a section or the end of the document. *)
Theorem parsed_line_not_root k line p n :
  getParsedTokens k line = Ok p -> matchingName p = Some n ->
  root_test RootSectionParser line = false /\ root_test RootEofParser line = false.
Proof.
  rewrite getParsedTokens_selected. intros E Hn. injection E as <-.
  destruct (last_match k line (getKnownTokens k)) as [[e gs]|] eqn:L; [|discriminate].
  destruct (last_match_some _ _ _ _ _ L) as [Hin Hm].
  exact (rule_line_not_root k line e gs Hin Hm).
Qed.

(** ** The engine on broken documents *)

(** A line a section cannot parse: unchanged by trimming, not a comment,
    and matched by no rule of the table. *)
Definition bad_line (k : section_kind) (l : string) : bool :=
  String.eqb (_cleanupLine l) l && negb (skipped l) &&
  match last_match k l (getKnownTokens k) with None => true | Some _ => false end.

(** The calls made before the input breaks inside a section: the
    header, the complete sections, the opening of the broken one and its
    good lines. *)
Definition prefix_trace (t : string) (secs : list doc_section) (k : section_kind)
           (good : list string) : list event :=
  mkevent "header" (header_line t) [VStr t] :: concat (map section_trace secs)
  ++ [mkevent "section" (section_line k) [VStr (section_name k)];
      mkevent (toLowerCase (section_name k)) (section_line k) [VStr (section_name k)]]
  ++ concat (map (token_event k) good).

(** The calls of the header and of complete sections. *)
Definition sections_trace (t : string) (secs : list doc_section) : list event :=
  mkevent "header" (header_line t) [VStr t] :: concat (map section_trace secs).

Lemma deliver_all_app {H} `{SteinerInstance H} l1 l2 (h : H) :
  deliver_all (l1 ++ l2) h = deliver_all l2 (deliver_all l1 h).
Proof. apply fold_left_app. Qed.

Lemma step_bad_line {H} `{SteinerInstance H} k l (h : H) :
  bad_line k l = true ->
  step_line (mkengine inside_section (Some (SectionInstance k))) l h =
    (Throw (SteinlibParsingException ("Error parsing the following line: " ++ l)), h).
Proof.
  unfold bad_line. intros Hb. apply andb_prop in Hb as [_ Hn].
  unfold step_line, inside, parseToken, st_bind. cbn [state sectionClass].
  rewrite getParsedTokens_selected.
  destruct (last_match k l (getKnownTokens k)); [discriminate|reflexivity].
Qed.

Lemma bad_line_clean k l :
  bad_line k l = true -> _cleanupLine l = l /\ skipped l = false.
Proof.
  unfold bad_line. intros Hb. apply andb_prop in Hb as [Hb _]. apply andb_prop in Hb as [Hc Hs].
  split; [now apply String.eqb_eq|now apply negb_true_iff].
Qed.

Lemma parse_lines_throw {H} `{SteinerInstance H} e raw rest (h : H) x h' :
  _cleanupLine raw = raw -> skipped raw = false -> step_line e raw h = (Throw x, h') ->
  parse_lines e (raw :: rest) h = (Throw x, h').
Proof.
  intros Hc Hs Hst. rewrite parse_lines_cons, Hc, Hs. unfold st_bind. now rewrite Hst.
Qed.

(** The final check of [parse] when the lines run out before [end_]. *)
Lemma parse_illegal_state {H} `{SteinerInstance H} lines (h h' : H) e :
  parse_lines initial_engine lines h = (Ok e, h') -> state e <> end_ ->
  parse lines h = (Throw (SteinlibParsingException "Illegal state."), h').
Proof.
  intros E Hs. unfold parse, st_bind. rewrite E.
  destruct (state e); [reflexivity|reflexivity|reflexivity|contradiction].
Qed.

Section Errors.
Context {H : Type} `{SteinerInstance H}.
Variable ks : section_kind -> Prop.
Variable P : H -> Prop.
Hypothesis HP : callbacks_ok ks P.

(** The header, complete sections, then the opening of a section of
    kind [k] and some of its token lines. *)
Lemma parse_prefix t secs k good rest h :
  P h -> title_ok t = true -> kinds_in ks secs -> ks k ->
  forallb (fun s => forallb (token_ok (ds_kind s)) (ds_body s)) secs = true ->
  forallb (token_ok k) good = true ->
  parse_lines initial_engine
    (header_line t :: concat (map render_section secs) ++ section_line k :: good ++ rest) h =
  parse_lines (mkengine inside_section (Some (SectionInstance k))) rest
    (deliver_all (prefix_trace t secs k good) h).
Proof.
  intros Hh Ht Hks Hk Hs Hg.
  destruct (parse_header_sections ks P HP t secs (section_line k :: good ++ rest) h Hh Ht Hks Hs)
    as [c ->].
  rewrite (parse_open_section ks P HP c k good rest _ Hk (header_sections_P ks P HP t secs h Hh Hks) Hg).
  rewrite <- deliver_all_app. reflexivity.
Qed.

(** C3: a malformed line inside a section stops the parse where it
    stands: after a header, complete sections, the opening of a section
    and some of its token lines, a line no rule of that section matches
    makes [parse] throw a [SteinlibParsingException] naming the line,
    whatever follows, with the handler left exactly as the calls before
    it leave it (no roll-back, no later call).  An [EOF] line in a
    section left open is such a line. *)
Theorem parse_malformed_line t secs k good bad rest h :
  P h -> title_ok t = true -> kinds_in ks secs -> ks k ->
  forallb (fun s => forallb (token_ok (ds_kind s)) (ds_body s)) secs = true ->
  forallb (token_ok k) good = true -> bad_line k bad = true ->
  parse (header_line t :: concat (map render_section secs) ++ section_line k :: good ++ bad :: rest) h =
    (Throw (SteinlibParsingException ("Error parsing the following line: " ++ bad)),
     deliver_all (prefix_trace t secs k good) h).
Proof.
  intros Hh Ht Hks Hk Hs Hg Hb. unfold parse, st_bind.
  rewrite (parse_prefix t secs k good _ h Hh Ht Hks Hk Hs Hg).
  destruct (bad_line_clean k bad Hb) as [Hbc Hbs].
  now rewrite (parse_lines_throw _ _ _ _ _ _ Hbc Hbs (step_bad_line k bad _ Hb)).
Qed.

(** C6: input that ends inside a section is not detected until the end:
    after a header, complete sections, the opening of a section and
    some of its token lines, the end of the input makes [parse] throw
    "Illegal state." once every call of those lines has been made. *)
Theorem parse_unterminated_section t secs k good h :
  P h -> title_ok t = true -> kinds_in ks secs -> ks k ->
  forallb (fun s => forallb (token_ok (ds_kind s)) (ds_body s)) secs = true ->
  forallb (token_ok k) good = true ->
  parse (header_line t :: concat (map render_section secs) ++ section_line k :: good) h =
    (Throw (SteinlibParsingException "Illegal state."), deliver_all (prefix_trace t secs k good) h).
Proof.
  intros Hh Ht Hks Hk Hs Hg.
  apply (parse_illegal_state _ _ _ (mkengine inside_section (Some (SectionInstance k))));
    [|discriminate].
  rewrite <- (app_nil_r good).
  now rewrite (parse_prefix t secs k good [] h Hh Ht Hks Hk Hs Hg), app_nil_r.
Qed.

(** C5: omitting [EOF]: a header and complete sections with nothing
    after them make [parse] throw "Illegal state." once the calls of
    the header and of every section have been made. *)
Theorem parse_missing_eof t secs h :
  P h -> title_ok t = true -> kinds_in ks secs ->
  forallb (fun s => forallb (token_ok (ds_kind s)) (ds_body s)) secs = true ->
  parse (header_line t :: concat (map render_section secs)) h =
    (Throw (SteinlibParsingException "Illegal state."), deliver_all (sections_trace t secs) h).
Proof.
  intros Hh Ht Hks Hs.
  rewrite <- (app_nil_r (concat (map render_section secs))).
  destruct (parse_header_sections ks P HP t secs [] h Hh Ht Hks Hs) as [c E].
  now apply (parse_illegal_state _ _ _ (mkengine wait_for_section c)); [rewrite E|discriminate].
Qed.
(** The opening of a section whose lower-cased slot is falsy: the
    [section] call is made and the engine stays between sections. *)
Lemma step_section_falsy c k h :
  P h -> (forall h', P h' -> get_slot h' (toLowerCase (section_name k)) = Falsy) ->
  step_line (mkengine wait_for_section c) (section_line k) h =
    (Ok (mkengine wait_for_section c),
     deliver (mkevent "section" (section_line k) [VStr (section_name k)]) h).
Proof.
  intros Hh HF. destruct (section_name_word k) as [Hn Hw].
  change (section_line k) with ("SECTION" ++ " " ++ section_name k).
  rewrite (step_section_registered (mkengine wait_for_section c) "SECTION" " " (section_name k) k h
             _ eq_refl eq_refl ltac:(discriminate) eq_refl Hn Hw (registry_lookup_section_name k)
             (call_if_truthy_ok ks P HP "section" _ _ h Hh dn_section)).
  unfold call_optional. change ("SECTION" ++ " " ++ section_name k) with (section_line k).
  now rewrite (HF _ (deliver_P ks P HP (mkevent "section" (section_line k) [VStr (section_name k)]) h Hh
                               dn_section)).
Qed.

(** C4: a handler whose lower-cased slot for a section is falsy but not
    a function ([terminals: false]) breaks every document with such a
    section: after the header and the sections before it, the opening
    line of that section makes only the [section] call and leaves the
    engine between sections, and the next line (its first token line,
    or [END]) makes [parse] throw "Unexpected line: <line>". *)
Theorem parse_falsy_section_slot t secs sec rest h :
  P h -> title_ok t = true -> kinds_in ks secs ->
  forallb (fun s => forallb (token_ok (ds_kind s)) (ds_body s)) secs = true ->
  forallb (token_ok (ds_kind sec)) (ds_body sec) = true ->
  (forall h', P h' -> get_slot h' (toLowerCase (section_name (ds_kind sec))) = Falsy) ->
  parse (header_line t :: concat (map render_section secs) ++ render_section sec ++ rest) h =
    (Throw (SteinlibParsingException ("Unexpected line: " ++ hd "END" (ds_body sec))),
     deliver_all (sections_trace t secs ++
                  [mkevent "section" (section_line (ds_kind sec)) [VStr (section_name (ds_kind sec))]]) h).
Proof.
  intros Hh Ht Hks Hs Hb HF. destruct sec as [k body]. cbn [ds_kind ds_body] in *.
  unfold parse, st_bind.
  destruct (parse_header_sections ks P HP t secs (render_section (mksection k body) ++ rest) h
              Hh Ht Hks Hs) as [c ->].
  assert (Hh1 := header_sections_P ks P HP t secs h Hh Hks).
  fold (sections_trace t secs) in *. rewrite deliver_all_app.
  unfold render_section. cbn [ds_kind ds_body app]. rewrite <- app_assoc.
  destruct (section_line_clean k) as [Hc Hsk].
  rewrite (parse_lines_step _ _ _ _ _ _ Hc Hsk (step_section_falsy c k _ Hh1 HF)).
  destruct body as [|l body']; cbn [app].
  - now rewrite (parse_lines_throw _ "END" _ _ _ _ eq_refl eq_refl
                   (step_wait_unmatched (mkengine wait_for_section c) "END" _ eq_refl eq_refl eq_refl)).
  - simpl in Hb. apply andb_prop in Hb as [Hl _].
    destruct (token_ok_parts k l Hl) as (Hlc & Hls & _).
    destruct (token_ok_not_root k l Hl) as [Hr1 Hr2].
    now rewrite (parse_lines_throw _ l _ _ _ _ Hlc Hls (step_wait_unmatched (mkengine wait_for_section c) l _ eq_refl Hr1 Hr2)).
Qed.
End Errors.

(** ** Witnesses *)

(** A Terminals section left open before [EOF]. *)
Lemma parse_malformed_line_witness :
  title_ok "Hello" = true /\ forallb (token_ok Terminals) ["T 1"] = true /\
  bad_line Terminals "EOF" = true /\
  parse (header_line "Hello" :: concat (map render_section []) ++
         section_line Terminals :: ["T 1"] ++ "EOF" :: []) (mkrecorder all_slots []) =
    (Throw (SteinlibParsingException ("Error parsing the following line: " ++ "EOF")),
     mkrecorder all_slots
       [mkevent "header" "33D32945 Hello" [VStr "Hello"];
        mkevent "section" "SECTION Terminals" [VStr "Terminals"];
        mkevent "terminals" "SECTION Terminals" [VStr "Terminals"];
        mkevent "terminals__t" "T 1" [VNum 1%Z]]).
Proof.
  assert (Ht : title_ok "Hello" = true) by reflexivity.
  assert (Hg : forallb (token_ok Terminals) ["T 1"] = true) by (vm_compute; reflexivity).
  assert (Hb : bad_line Terminals "EOF" = true) by (vm_compute; reflexivity).
  split; [exact Ht|]. split; [exact Hg|]. split; [exact Hb|].
  rewrite (parse_malformed_line (fun _ => True) (fun _ => True) (recorder_callbacks_ok _) "Hello" []
             Terminals ["T 1"] "EOF" [] (mkrecorder all_slots []) I Ht (Forall_nil _) I eq_refl Hg Hb).
  vm_compute. reflexivity.
Defined.

(** The recording handler without its [EOF] line. *)
Lemma parse_unterminated_section_witness :
  title_ok "Hello" = true /\ forallb (token_ok Terminals) ["T 1"] = true /\
  parse (header_line "Hello" :: concat (map render_section []) ++ section_line Terminals :: ["T 1"])
        (mkrecorder all_slots []) =
    (Throw (SteinlibParsingException "Illegal state."),
     mkrecorder all_slots
       [mkevent "header" "33D32945 Hello" [VStr "Hello"];
        mkevent "section" "SECTION Terminals" [VStr "Terminals"];
        mkevent "terminals" "SECTION Terminals" [VStr "Terminals"];
        mkevent "terminals__t" "T 1" [VNum 1%Z]]).
Proof.
  assert (Ht : title_ok "Hello" = true) by reflexivity.
  assert (Hg : forallb (token_ok Terminals) ["T 1"] = true) by (vm_compute; reflexivity).
  split; [exact Ht|]. split; [exact Hg|].
  rewrite (parse_unterminated_section (fun _ => True) (fun _ => True) (recorder_callbacks_ok _)
             "Hello" [] Terminals ["T 1"] (mkrecorder all_slots []) I Ht (Forall_nil _) I eq_refl Hg).
  vm_compute. reflexivity.
Defined.

Lemma parse_missing_eof_witness :
  title_ok "Hello" = true /\
  forallb (fun s => forallb (token_ok (ds_kind s)) (ds_body s)) [mksection Terminals ["T 1"]] = true /\
  parse (header_line "Hello" :: concat (map render_section [mksection Terminals ["T 1"]]))
        (mkrecorder all_slots []) =
    (Throw (SteinlibParsingException "Illegal state."),
     mkrecorder all_slots
       [mkevent "header" "33D32945 Hello" [VStr "Hello"];
        mkevent "section" "SECTION Terminals" [VStr "Terminals"];
        mkevent "terminals" "SECTION Terminals" [VStr "Terminals"];
        mkevent "terminals__t" "T 1" [VNum 1%Z];
        mkevent "terminals__end" "END" []]).
Proof.
  assert (Ht : title_ok "Hello" = true) by reflexivity.
  assert (Hs : forallb (fun s => forallb (token_ok (ds_kind s)) (ds_body s))
                 [mksection Terminals ["T 1"]] = true) by (vm_compute; reflexivity).
  split; [exact Ht|]. split; [exact Hs|].
  rewrite (parse_missing_eof (fun _ => True) (fun _ => True) (recorder_callbacks_ok _) "Hello"
             [mksection Terminals ["T 1"]] (mkrecorder all_slots []) I Ht
             ltac:(repeat constructor) Hs).
  vm_compute. reflexivity.
Defined.

Lemma parsed_line_not_root_witness :
  getParsedTokens Graph "E 1 2 3" =
    Ok (mkparsed (Some "e") (Some [Some "1"; Some "2"; Some "3"]) inside_section) /\
  root_test RootSectionParser "E 1 2 3" = false /\ root_test RootEofParser "E 1 2 3" = false.
Proof.
  assert (E : getParsedTokens Graph "E 1 2 3" =
                Ok (mkparsed (Some "e") (Some [Some "1"; Some "2"; Some "3"]) inside_section))
    by (vm_compute; reflexivity).
  split; [exact E|]. exact (parsed_line_not_root _ _ _ "e" E eq_refl).
Defined.

(** [{ ...recorder, terminals: false }] keeps the contract for the
    sections other than Terminals. *)
Lemma stubbed_callbacks_ok :
  callbacks_ok (H:=stubbed) (fun k => k <> Terminals) (fun s => falsy_slots s = ["terminals"]).
Proof.
  intros s name Hs Hn. unfold get_slot, stubbed_handler. rewrite Hs.
  assert (Hne : String.eqb name "terminals" = false).
  { destruct Hn as [| | |k Hk|k e Hk Hin]; try reflexivity.
    - destruct k; try reflexivity. contradiction.
    - destruct k; try contradiction; simpl in Hin;
        repeat (destruct Hin as [<-|Hin]; [reflexivity|]); contradiction. }
  cbn [existsb]. rewrite Hne. cbn [orb].
  destruct (existsb (String.eqb name) (rec_slots (stubbed_rec s))); [|exact I].
  intros line args. eexists. split; [reflexivity|exact Hs].
Qed.

Lemma parse_falsy_section_slot_witness :
  title_ok "Hello" = true /\ forallb (token_ok Terminals) ["T 1"] = true /\
  parse (header_line "Hello" :: concat (map render_section []) ++
         render_section (mksection Terminals ["T 1"]) ++ ["EOF"])
        (mkstubbed ["terminals"] (mkrecorder all_slots [])) =
    (Throw (SteinlibParsingException ("Unexpected line: " ++ "T 1")),
     mkstubbed ["terminals"]
       (mkrecorder all_slots
          [mkevent "header" "33D32945 Hello" [VStr "Hello"];
           mkevent "section" "SECTION Terminals" [VStr "Terminals"]])).
Proof.
  assert (Ht : title_ok "Hello" = true) by reflexivity.
  assert (Hg : forallb (token_ok Terminals) ["T 1"] = true) by (vm_compute; reflexivity).
  split; [exact Ht|]. split; [exact Hg|].
  rewrite (parse_falsy_section_slot _ _ stubbed_callbacks_ok "Hello" [] (mksection Terminals ["T 1"])
             ["EOF"] (mkstubbed ["terminals"] (mkrecorder all_slots [])) eq_refl Ht (Forall_nil _)
             eq_refl Hg ltac:(intros s' E; unfold get_slot, stubbed_handler; now rewrite E)).
  vm_compute. reflexivity.
Defined.

End DocumentErrors.
