(* ===== verification/Spelling.v ===== *)
(** * Documents in any spelling of the root keywords

    The header magic, [SECTION], [END] and [EOF] are recognised by
    case-insensitive patterns ([RootParser.matches] adds the [i] flag,
    parser.ts 52; the section tables compile with [i], section.ts 38),
    and the separators after the magic and after [SECTION] are runs of
    white space ([(?:\s+)]).  A [spelling] fixes one way of writing each;
    the canonical one ([canonical]) gives the lines of Document.v.  The
    contract of Document.v holds in every spelling: [parse] makes the
    same calls, each with the line as written. *)

From S2P Require Import Prelude JsString JsRegExp RegExpShapes JsValue State Exceptions Handler Section Grammar Root Engine Document.
Local Open Scope string_scope.

Module Spelling.
Import JsString JsRegExp RegExpShapes JsValue State Exceptions Handler Section Grammar Root Engine Document.

(** ** Spellings *)

Record spelling : Type := mkspelling {
  sp_magic : string;     (** ["33D32945"], any case *)
  sp_hsep : string;      (** the white space after the magic *)
  sp_section : string;   (** ["SECTION"], any case *)
  sp_sep : string;       (** the white space after [SECTION] *)
  sp_end : string;       (** ["END"], any case *)
  sp_eof : string        (** ["EOF"], any case *)
}.

Definition ws_run (s : string) : bool := negb (String.eqb s "") && all_chars is_ws s.

Definition spelling_ok (sp : spelling) : bool :=
  ci_eqb (sp_magic sp) header_magic && ws_run (sp_hsep sp) &&
  ci_eqb (sp_section sp) "SECTION" && ws_run (sp_sep sp) &&
  ci_eqb (sp_end sp) "END" && ci_eqb (sp_eof sp) "EOF".

Definition canonical : spelling := mkspelling header_magic " " "SECTION" " " "END" "EOF".

Definition sp_header_line (sp : spelling) (t : string) : string := sp_magic sp ++ sp_hsep sp ++ t.

Definition sp_section_line (sp : spelling) (k : section_kind) : string :=
  sp_section sp ++ sp_sep sp ++ section_name k.

Definition sp_render_section (sp : spelling) (s : doc_section) : list string :=
  sp_section_line sp (ds_kind s) :: ds_body s ++ [sp_end sp].

Definition sp_render (sp : spelling) (d : document) : list string :=
  sp_header_line sp (d_title d) :: concat (map (sp_render_section sp) (d_sections d))
  ++ [sp_eof sp].

Definition sp_section_trace (sp : spelling) (s : doc_section) : list event :=
  let k := ds_kind s in
  mkevent "section" (sp_section_line sp k) [VStr (section_name k)]
  :: mkevent (toLowerCase (section_name k)) (sp_section_line sp k) [VStr (section_name k)]
  :: concat (map (token_event k) (ds_body s))
  ++ [mkevent (callbackToken k ++ "__end") (sp_end sp) []].

Definition sp_trace (sp : spelling) (d : document) : list event :=
  mkevent "header" (sp_header_line sp (d_title d)) [VStr (d_title d)]
  :: concat (map (sp_section_trace sp) (d_sections d)) ++ [mkevent "eof" (sp_eof sp) []].

(** The canonical spelling gives the lines and the calls of Document.v. *)
Lemma sp_render_canonical d : sp_render canonical d = render d /\ sp_trace canonical d = trace d.
Proof. split; reflexivity. Qed.

Lemma spelling_ok_parts sp :
  spelling_ok sp = true ->
  ci_eqb (sp_magic sp) header_magic = true /\ ws_run (sp_hsep sp) = true /\
  ci_eqb (sp_section sp) "SECTION" = true /\ ws_run (sp_sep sp) = true /\
  ci_eqb (sp_end sp) "END" = true /\ ci_eqb (sp_eof sp) "EOF" = true.
Proof. unfold spelling_ok. intros H. repeat (apply andb_prop in H as [H ?]). tauto. Qed.

(** ** Keyword lines reach the engine unchanged *)

(** A string equal up to case to a word of word characters holds no
    white space. *)
Lemma ci_word_no_ws l w :
  ci_eqb l w = true -> all_chars is_word w = true -> all_chars (fun c => negb (is_ws c)) l = true.
Proof.
  revert w. induction l as [|c l IH]; intros [|d w]; simpl; try discriminate; [reflexivity|].
  intros H Hw. apply andb_prop in H as [Hcd H]. apply andb_prop in Hw as [Hd Hw].
  destruct (is_ws c) eqn:Hc; [|exact (IH w H Hw)].
  apply Nat.eqb_eq in Hcd. destruct (word_ws_canon_neq d c Hd Hc Hcd).
Qed.

Lemma trim_end_no_ws l : all_chars (fun c => negb (is_ws c)) l = true -> trim_end l = l.
Proof.
  induction l as [|c l IH]; simpl; [reflexivity|]. intros H.
  apply andb_prop in H as [Hc H]. apply negb_true_iff in Hc. rewrite Hc, IH by exact H.
  reflexivity.
Qed.

Lemma ws_run_parts s : ws_run s = true -> s <> "" /\ all_chars is_ws s = true.
Proof.
  unfold ws_run. intros H. apply andb_prop in H as [Hn Hw]. split; [|exact Hw].
  intros ->. discriminate.
Qed.

(** A line that starts with a keyword of word characters (any case)
    and ends with a non-empty text that [trim] keeps, or with nothing,
    is unchanged by [_cleanupLine] and is not a comment. *)
Lemma keyword_line_clean kw w s :
  ci_eqb kw w = true -> all_chars is_word w = true -> w <> "" ->
  (s = "" \/ (trim_end s = s /\ s <> "")) ->
  _cleanupLine (kw ++ s) = kw ++ s /\ skipped (kw ++ s) = false.
Proof.
  intros Hci Hw Hne Hs. pose proof (ci_word_no_ws kw w Hci Hw) as Hnw.
  destruct kw as [|c kw']; [destruct w; [contradiction|discriminate]|].
  destruct w as [|d w']; [discriminate|].
  assert (Hc : is_ws c = false) by (simpl in Hnw; apply andb_prop in Hnw as [Hc _];
                                    now apply negb_true_iff).
  assert (Hhash : c <> "#"%char).
  { intros ->. simpl in Hci, Hw. apply andb_prop in Hci as [Hcd _]. apply Nat.eqb_eq in Hcd.
    apply andb_prop in Hw as [Hd _]. pose proof (canonicalize_word d Hd).
    replace (canonicalize "#"%char) with 35 in Hcd by reflexivity. lia. }
  split.
  - unfold _cleanupLine, trim. cbn [String.append trim_start]. rewrite Hc.
    change (String c (kw' ++ s)) with (String c kw' ++ s).
    destruct Hs as [->|[Hs Hsn]].
    + rewrite string_app_nil_r. exact (trim_end_no_ws _ Hnw).
    + rewrite trim_end_app; [now rewrite Hs|now rewrite Hs].
  - unfold skipped, _isComment, startsWith, commentSymbol. cbn [String.append].
    cbn [String.eqb String.prefix orb]. destruct (ascii_dec "#" c) as [E|]; [now subst|reflexivity].
Qed.

(** ** The root patterns on spelled lines *)

(** The header pattern captures the title after any spelling of the
    magic and any run of white space. *)
Lemma str_match_header_sp mg hs t re :
  ci_eqb mg header_magic = true -> ws_run hs = true -> title_ok t = true ->
  root_regex RootHeaderParser = Some re ->
  str_match re (mg ++ hs ++ t) = Some [Some t].
Proof.
  intros Hmg Hhs Ht Hre. rewrite root_regex_header in Hre.
  assert (E := f_equal (fun o => match o with Some x => x | None => re end) Hre).
  cbv beta iota in E. subst re.
  destruct (title_ok_parts t Ht) as (c & t' & -> & Hc & _ & Hdot & Hcdot).
  destruct (ws_run_parts hs Hhs) as [Hne Hws].
  destruct hs as [|h1 hs1]; [contradiction|]. simpl in Hws. apply andb_prop in Hws as [Hh1 Hws].
  unfold str_match. cbn [rflags prog ignoreCase ngroups].
  rewrite search_bol.
  change (m true (RSeq RBol ?Y) (mkst 0 ?s []) ?k) with (m true Y (mkst 0 s []) k).
  rewrite m_seq_lits.
  apply lit_prefix_ci_eqb in Hmg.
  rewrite (lit_prefix_app true header_magic "" mg Hmg (String h1 hs1 ++ String c t')).
  cbn [String.append]. rewrite m_seq_cons.
  erewrite (m_ngroup_run true CSpace h1 hs1 (String c t') _ _ _ [(1, String c t')]);
    [reflexivity|exact Hh1|now rewrite all_cls_chars|exact Hc|].
  rewrite m_seq_cons. apply m_group_run_end; [exact Hcdot| |reflexivity].
  now rewrite all_cls_chars.
Qed.

(** A line equal to [EOF] up to case is not a [SECTION] line. *)
Lemma root_test_section_eof l :
  ci_eqb l "EOF" = true -> root_test RootSectionParser l = false.
Proof.
  intros Hl. unfold root_test. rewrite root_regex_section. unfold str_match.
  cbn [rflags prog ignoreCase ngroups]. rewrite search_bol. cbn [m pos Nat.eqb].
  rewrite m_seq_lits.
  destruct l as [|c l]; [discriminate|]. cbn [ci_eqb] in Hl. apply andb_prop in Hl as [Hc _].
  apply Nat.eqb_eq in Hc. cbn [lit_prefix cls_matches]. rewrite <- Hc. reflexivity.
Qed.

Lemma str_match_eof l re :
  ci_eqb l "EOF" = true -> root_regex RootEofParser = Some re -> str_match re l = Some [].
Proof.
  intros Hl Hre. rewrite root_regex_eof in Hre.
  assert (E := f_equal (fun o => match o with Some x => x | None => re end) Hre).
  cbv beta iota in E. subst re.
  unfold str_match. cbn [rflags prog ignoreCase ngroups].
  now rewrite search_bol, m_anchored_word, Hl.
Qed.

(** ** The spelled lines reach the engine unchanged *)

Lemma ci_eqb_refl w : ci_eqb w w = true.
Proof. apply lit_prefix_ci_eqb, lit_prefix_refl. Qed.

Lemma trim_end_word w : all_chars is_word w = true -> trim_end w = w.
Proof. intros Hw. exact (trim_end_no_ws w (ci_word_no_ws w w (ci_eqb_refl w) Hw)). Qed.

Lemma ws_then_kept s t :
  trim_end t = t -> t <> "" -> trim_end (s ++ t) = s ++ t /\ s ++ t <> "".
Proof.
  intros Ht Hn. split; [rewrite trim_end_app; [now rewrite Ht|now rewrite Ht]|].
  destruct s; [exact Hn|discriminate].
Qed.

Section Lines.
Variable sp : spelling.
Hypothesis Hsp : spelling_ok sp = true.

Lemma sp_header_clean t :
  title_ok t = true ->
  _cleanupLine (sp_header_line sp t) = sp_header_line sp t /\ skipped (sp_header_line sp t) = false.
Proof.
  intros Ht. destruct (spelling_ok_parts sp Hsp) as (Hm & _).
  destruct (title_ok_parts t Ht) as (c & t' & Et & Hc & Htrim & _).
  assert (Hte : trim_end t = t).
  { unfold trim in Htrim. rewrite Et in Htrim |- *. cbn [trim_start] in Htrim.
    now rewrite Hc in Htrim. }
  apply (keyword_line_clean _ header_magic); [exact Hm|reflexivity|discriminate|right].
  apply ws_then_kept; [exact Hte|now rewrite Et].
Qed.

Lemma sp_section_line_clean k :
  _cleanupLine (sp_section_line sp k) = sp_section_line sp k /\
  skipped (sp_section_line sp k) = false.
Proof.
  destruct (spelling_ok_parts sp Hsp) as (_ & _ & Hs & _).
  destruct (section_name_word k) as [Hn Hw].
  apply (keyword_line_clean _ "SECTION"); [exact Hs|reflexivity|discriminate|right].
  exact (ws_then_kept _ _ (trim_end_word _ Hw) Hn).
Qed.

Lemma sp_keyword_clean l w :
  ci_eqb l w = true -> all_chars is_word w = true -> w <> "" ->
  _cleanupLine l = l /\ skipped l = false.
Proof.
  intros Hl Hw Hn. rewrite <- (string_app_nil_r l).
  exact (keyword_line_clean l w "" Hl Hw Hn (or_introl eq_refl)).
Qed.
End Lines.

(** ** The contract in every spelling *)

Section SpelledContract.
Context {H : Type} `{SteinerInstance H}.
Variable ks : section_kind -> Prop.
Variable P : H -> Prop.
Hypothesis HP : callbacks_ok ks P.
Variable sp : spelling.
Hypothesis Hsp : spelling_ok sp = true.

Lemma sp_step_header c t h :
  P h -> title_ok t = true ->
  step_line (mkengine wait_for_header c) (sp_header_line sp t) h =
    (Ok (mkengine wait_for_section c), deliver (mkevent "header" (sp_header_line sp t) [VStr t]) h).
Proof.
  intros Hh Ht. destruct (spelling_ok_parts sp Hsp) as (Hm & Hhs & _).
  unfold step_line, st_bind. cbn [state].
  destruct (root_regex RootHeaderParser) as [re|] eqn:Hre; [|discriminate].
  unfold sp_header_line.
  rewrite (matches_found RootHeaderParser re _ [Some t] h ltac:(discriminate) Hre
             (str_match_header_sp _ _ t re Hm Hhs Ht Hre)).
  unfold st_bind. now rewrite (call_if_truthy_ok ks P HP) by (exact Hh || apply dn_header).
Qed.

Lemma sp_step_section_open c k h :
  ks k -> P h ->
  step_line (mkengine wait_for_section c) (sp_section_line sp k) h =
    (Ok (mkengine inside_section (Some (SectionInstance k))),
     deliver_all [mkevent "section" (sp_section_line sp k) [VStr (section_name k)];
                  mkevent (toLowerCase (section_name k)) (sp_section_line sp k)
                          [VStr (section_name k)]] h).
Proof.
  intros Hk Hh. destruct (section_name_word k) as [Hn Hw].
  destruct (spelling_ok_parts sp Hsp) as (_ & _ & Hs & Hsep & _).
  destruct (ws_run_parts _ Hsep) as [Hsn Hsw].
  unfold step_line, try_section. cbn [state]. unfold sp_section_line.
  rewrite (getSectionParser_name _ _ (section_name k) h Hs Hsn Hsw Hn Hw).
  unfold st_bind. rewrite (call_if_truthy_ok ks P HP) by (exact Hh || apply dn_section).
  rewrite registry_lookup_section_name.
  rewrite (call_optional_ok ks P HP)
    by (apply (dn_open k Hk) || (apply (deliver_P ks P HP); [exact Hh|apply dn_section])).
  reflexivity.
Qed.

Lemma sp_step_end k h :
  ks k -> P h ->
  step_line (mkengine inside_section (Some (SectionInstance k))) (sp_end sp) h =
    (Ok (mkengine wait_for_section (Some (SectionInstance k))),
     deliver (mkevent (callbackToken k ++ "__end") (sp_end sp) []) h).
Proof.
  intros Hk Hh. destruct (spelling_ok_parts sp Hsp) as (_ & _ & _ & _ & He & _).
  unfold step_line, inside, parseToken, st_bind. cbn [state sectionClass].
  rewrite (getParsedTokens_end k _ He). cbn [matchingName extractedTokens nextState].
  replace (String.eqb "end" "") with false by reflexivity.
  now rewrite (call_if_truthy_ok ks P HP) by (exact Hh || exact (dn_token _ _ Hk (end_in_table k))).
Qed.

Lemma sp_step_eof c h :
  P h ->
  step_line (mkengine wait_for_section c) (sp_eof sp) h =
    (Ok (mkengine end_ c), deliver (mkevent "eof" (sp_eof sp) []) h).
Proof.
  intros Hh. destruct (spelling_ok_parts sp Hsp) as (_ & _ & _ & _ & _ & Hf).
  unfold step_line, try_section. cbn [state].
  rewrite (getSectionParser_no_match _ h (root_test_section_eof _ Hf)).
  unfold catch_section. cbn [is_UnrecognizedSectionException is_SteinlibParsingException].
  unfold st_bind.
  rewrite (matches_found RootEofParser _ _ [] h ltac:(discriminate) root_regex_eof
             (str_match_eof _ _ Hf root_regex_eof)).
  unfold st_bind. now rewrite (call_if_truthy_ok ks P HP) by (exact Hh || apply dn_eof).
Qed.

Lemma sp_section_trace_names sec :
  ks (ds_kind sec) -> Forall (fun ev => doc_name ks (ev_name ev)) (sp_section_trace sp sec).
Proof.
  intros Hk. unfold sp_section_trace. repeat apply Forall_cons; cbn [ev_name];
    [apply dn_section | apply dn_open, Hk | ].
  apply Forall_app; split; [now apply token_events_names|].
  constructor; [exact (dn_token _ _ Hk (end_in_table (ds_kind sec)))|constructor].
Qed.

Lemma sp_parse_section c sec rest h :
  ks (ds_kind sec) -> P h -> forallb (token_ok (ds_kind sec)) (ds_body sec) = true ->
  parse_lines (mkengine wait_for_section c) (sp_render_section sp sec ++ rest) h =
    parse_lines (mkengine wait_for_section (Some (SectionInstance (ds_kind sec)))) rest
                (deliver_all (sp_section_trace sp sec) h).
Proof.
  intros Hk Hh Hb. destruct sec as [k body]. cbn [ds_kind ds_body] in *.
  unfold sp_render_section, sp_section_trace. cbn [ds_kind ds_body app].
  destruct (sp_section_line_clean sp Hsp k) as [Hc Hs].
  rewrite (parse_lines_step _ _ _ _ _ _ Hc Hs (sp_step_section_open c k h Hk Hh)).
  set (h1 := deliver_all [_; _] h).
  assert (Hh1 : P h1) by (apply (deliver_all_P ks P HP); [exact Hh|repeat constructor; exact Hk]).
  rewrite <- app_assoc, (parse_tokens ks P HP k body _ h1 Hk Hh1 Hb). cbn [app].
  assert (Hh2 : P (deliver_all (concat (map (token_event k) body)) h1))
    by (apply (deliver_all_P ks P HP); [exact Hh1|now apply token_events_names]).
  destruct (spelling_ok_parts sp Hsp) as (_ & _ & _ & _ & He & _).
  destruct (sp_keyword_clean _ "END" He eq_refl ltac:(discriminate)) as [Hec Hes].
  rewrite (parse_lines_step _ _ _ _ _ _ Hec Hes (sp_step_end k _ Hk Hh2)).
  unfold h1, deliver_all. cbn [fold_left]. now rewrite fold_left_app.
Qed.

Lemma sp_parse_sections secs : forall c rest h,
  kinds_in ks secs -> P h ->
  forallb (fun s => forallb (token_ok (ds_kind s)) (ds_body s)) secs = true ->
  exists c', parse_lines (mkengine wait_for_section c)
                         (concat (map (sp_render_section sp) secs) ++ rest) h =
             parse_lines (mkengine wait_for_section c') rest
                         (deliver_all (concat (map (sp_section_trace sp) secs)) h).
Proof.
  induction secs as [|sec secs IH]; intros c rest h Hks Hh Hs; [exists c; reflexivity|].
  inversion Hks as [|? ? Hk Hks']; subst.
  simpl in Hs. apply andb_prop in Hs as [Hsec Hs].
  cbn [map concat]. rewrite <- app_assoc, (sp_parse_section _ _ _ _ Hk Hh Hsec).
  unfold deliver_all at 2. rewrite fold_left_app.
  apply IH; [exact Hks'| |exact Hs].
  apply (deliver_all_P ks P HP); [exact Hh|now apply sp_section_trace_names].
Qed.

(** C2: the contract of well-formed documents holds in every spelling
    of the root keywords: with the header magic, [SECTION], [END] and
    [EOF] written in any case and any runs of white space after the
    magic and after [SECTION], [parse] returns normally and makes the
    calls of the document's trace in order, each with the line as
    written ([sp_trace]; the canonical spelling gives Document.v's
    [trace]). *)
Theorem parse_document_spelled d h :
  P h -> doc_ok d = true -> kinds_in ks (d_sections d) ->
  parse (sp_render sp d) h = (Ok tt, deliver_all (sp_trace sp d) h).
Proof.
  unfold doc_ok. intros Hh Hd Hks. apply andb_prop in Hd as [Ht Hs].
  destruct (sp_header_clean sp Hsp _ Ht) as [Hc Hsk].
  unfold parse, sp_render, sp_trace, initial_engine, st_bind.
  rewrite (parse_lines_step _ _ _ _ _ _ Hc Hsk (sp_step_header None _ h Hh Ht)).
  assert (Hh1 := deliver_P ks P HP (mkevent "header" (sp_header_line sp (d_title d))
                                            [VStr (d_title d)]) _ Hh dn_header).
  destruct (sp_parse_sections (d_sections d) None [sp_eof sp] _ Hks Hh1 Hs) as [c ->].
  assert (Hh2 : P (deliver_all (concat (map (sp_section_trace sp) (d_sections d))) (deliver
                    (mkevent "header" (sp_header_line sp (d_title d)) [VStr (d_title d)]) h))).
  { apply (deliver_all_P ks P HP); [exact Hh1|].
    apply Forall_concat, Forall_map, Forall_forall. intros sec Hin.
    apply sp_section_trace_names. unfold kinds_in in Hks. rewrite Forall_forall in Hks. auto. }
  destruct (spelling_ok_parts sp Hsp) as (_ & _ & _ & _ & _ & Hf).
  destruct (sp_keyword_clean _ "EOF" Hf eq_refl ltac:(discriminate)) as [Hfc Hfs].
  rewrite (parse_lines_step _ _ _ _ _ _ Hfc Hfs (sp_step_eof c _ Hh2)).
  cbn [parse_lines st_ret state]. unfold deliver_all. cbn [fold_left].
  now rewrite fold_left_app.
Qed.
End SpelledContract.

(** Lower case, a tab after the magic and two spaces after [section]. *)
Definition lower_spelling : spelling :=
  mkspelling "33d32945" (str1 "009") "section" "  " "end" "Eof".

Lemma parse_document_spelled_witness :
  spelling_ok lower_spelling = true /\ doc_ok terminals_doc = true /\
  sp_render lower_spelling terminals_doc =
    ["33d32945" ++ str1 "009" ++ "Hello"; "section  Terminals"; "Terminals 2"; "T 1"; "T 4";
     "end"; "Eof"] /\
  parse (sp_render lower_spelling terminals_doc) (mkrecorder all_slots []) =
    (Ok tt, mkrecorder all_slots
      [mkevent "header" ("33d32945" ++ str1 "009" ++ "Hello") [VStr "Hello"];
       mkevent "section" "section  Terminals" [VStr "Terminals"];
       mkevent "terminals" "section  Terminals" [VStr "Terminals"];
       mkevent "terminals__terminals" "Terminals 2" [VNum 2%Z];
       mkevent "terminals__t" "T 1" [VNum 1%Z];
       mkevent "terminals__t" "T 4" [VNum 4%Z];
       mkevent "terminals__end" "end" [];
       mkevent "eof" "Eof" []]).
Proof.
  assert (Hsp : spelling_ok lower_spelling = true) by reflexivity.
  assert (Hd : doc_ok terminals_doc = true) by (vm_compute; reflexivity).
  split; [exact Hsp|]. split; [exact Hd|]. split; [reflexivity|].
  rewrite (parse_document_spelled (fun _ => True) (fun _ => True) (recorder_callbacks_ok _)
             lower_spelling Hsp terminals_doc (mkrecorder all_slots []) I Hd
             ltac:(repeat constructor)).
  vm_compute. reflexivity.
Defined.
End Spelling.
