(* ===== verification/Demo.v ===== *)
(** * The demo program (examples/demo.ts)

    [main] reads a file, splits its content on line feeds and parses
    the lines with the handler [callbacks], a plain object literal whose
    seven methods print a message each.  Reading the file is I/O: the
    model takes the file content as its input.  The console is the state
    of the handler ([demo]).  Being a plain object, [callbacks] also
    inherits the members of [Object.prototype]: called as plain functions
    ([this] undefined), [constructor], [toString] and [isPrototypeOf]
    return normally, [__proto__] is an object and not a function, and the
    others throw a TypeError ([proto_slot]).  None of them is a name a
    well-formed document calls, so the demo keeps the document contract:
    on a well-formed file it prints one message per call it has a method
    for, in the order of the calls, and a file with CRLF line endings
    gives the same result as the same file with line feeds. *)

From S2P Require Import Prelude JsString JsRegExp RegExpShapes JsValue State Exceptions Handler Section Grammar Root Engine Document.
Local Open Scope string_scope.

Module Demo.
Import JsString JsValue State Exceptions Handler Section Root Engine Document.

(** The console. *)
Record demo : Type := mkdemo { stdout : list string }.

(** [console.log(msg)] *)
Definition console_log (msg : string) : st demo exn unit :=
  fun d => (Ok tt, mkdemo (stdout d ++ [msg])).

(** The methods of [callbacks] and the message each prints. *)
Definition callbacks : list (string * string) :=
  [("comment", "Comment section found");
   ("comment__end", "Comment section end");
   ("coordinates", "Coordinates section found");
   ("eof", "End of file found");
   ("graph", "Graph section found");
   ("header", "Header found");
   ("terminals", "Terminals section found")].

(** An inherited member of [Object.prototype] called as a plain function. *)
Definition proto_slot (name : string) : slot demo :=
  if String.eqb name "__proto__" then NonCallable
  else if existsb (String.eqb name) ["constructor"; "toString"; "isPrototypeOf"]
  then Callable (fun _ _ d => (Ok tt, d))
  else Callable (fun _ _ d => (Throw (TypeError "Cannot convert undefined or null to object"), d)).

#[export] Instance demo_handler : SteinerInstance demo :=
  fun _ name =>
    match assoc_str name callbacks with
    | Some msg => Callable (fun _ _ => console_log msg)
    | None => if existsb (String.eqb name) object_prototype_members
              then proto_slot name else Undefined
    end.

(** [main()]: split the file content on line feeds and parse. *)
Definition main (fileContent : string) : st demo exn unit :=
  let lines := split_char "010"%char fileContent in
  parse lines.

(** The messages the demo prints for a sequence of calls. *)
Definition printed (evs : list event) : list string :=
  flat_map (fun ev => match assoc_str (ev_name ev) callbacks with
                      | Some msg => [msg]
                      | None => []
                      end) evs.

(** ** The demo keeps the contract *)

(** No name a document calls is inherited from [Object.prototype]. *)
Lemma doc_name_not_proto ks name :
  doc_name ks name -> existsb (String.eqb name) object_prototype_members = false.
Proof.
  destruct 1 as [| | |k _|k e _ Hin]; try reflexivity.
  - destruct k; reflexivity.
  - destruct k; simpl in Hin; repeat (destruct Hin as [<-|Hin]; [reflexivity|]); contradiction.
Qed.

Lemma demo_callbacks_ok ks : callbacks_ok (H:=demo) ks (fun _ => True).
Proof.
  intros d name _ Hn. unfold get_slot, demo_handler.
  destruct (assoc_str name callbacks) as [msg|].
  - intros line args. eexists. split; [reflexivity|exact I].
  - now rewrite (doc_name_not_proto ks name Hn).
Qed.

Lemma deliver_demo ks ev d :
  doc_name ks (ev_name ev) -> deliver ev d = mkdemo (stdout d ++ printed [ev]).
Proof.
  intros Hn. unfold deliver, printed, get_slot, demo_handler. cbn [flat_map].
  destruct (assoc_str (ev_name ev) callbacks) as [msg|].
  - reflexivity.
  - rewrite (doc_name_not_proto ks _ Hn). destruct d. cbn. now rewrite !app_nil_r.
Qed.

Lemma deliver_all_demo ks evs : forall d,
  Forall (fun ev => doc_name ks (ev_name ev)) evs ->
  deliver_all evs d = mkdemo (stdout d ++ printed evs).
Proof.
  induction evs as [|ev evs IH]; intros d Hn.
  - destruct d. cbn. now rewrite app_nil_r.
  - inversion Hn; subst. unfold deliver_all. cbn [fold_left].
    fold (deliver_all evs (deliver ev d)). rewrite IH, (deliver_demo ks) by assumption.
    cbn [stdout]. rewrite <- app_assoc. unfold printed. cbn [flat_map].
    now rewrite app_nil_r.
Qed.

(** The lines of a document hold no line feed. *)
Definition one_line_each (d : document) : bool :=
  forallb (all_chars (fun c => negb (Ascii.eqb c "010"%char))) (render d).

(** C27: the demo on a well-formed file: when the file content is the
    lines of a well-formed document joined by line feeds, [main] returns
    normally and the console shows, in order, the message of every call
    of the document's [trace] that [callbacks] has a method for
    ("Header found", the section messages, "Comment section end",
    "End of file found"). *)
Theorem demo_main_document d :
  doc_ok d = true -> one_line_each d = true ->
  main (str_join (str1 "010"%char) (render d)) (mkdemo []) =
    (Ok tt, mkdemo (printed (trace d))).
Proof.
  intros Hd Hl. unfold main.
  rewrite split_char_join.
  - assert (Hks : kinds_in (fun _ => True) (d_sections d))
      by (apply Forall_forall; intros; exact I).
    destruct (parse_lines_document (fun _ => True) (fun _ => True) (demo_callbacks_ok _) d
                (mkdemo []) I Hd Hks) as [c E].
    unfold parse, st_bind. rewrite E. cbn [state st_ret].
    now rewrite (deliver_all_demo (fun _ => True)) by now apply trace_names.
  - unfold render. discriminate.
  - unfold one_line_each in Hl. apply Forall_forall. intros l Hin.
    rewrite forallb_forall in Hl. exact (Hl l Hin).
Qed.

(** ** Windows line endings *)

(** The lines [split("\n")] gives for a file whose lines [ls] end in
    CRLF: every line but the last keeps its CR. *)
Fixpoint crlf_lines (ls : list string) : list string :=
  match ls with
  | x :: ((_ :: _) as r) => (x ++ str1 "013") :: crlf_lines r
  | _ => ls
  end.

Definition crlf : string := String "013" (str1 "010").

Lemma crlf_lines_nonempty ls : ls <> [] -> crlf_lines ls <> [].
Proof. destruct ls as [|x [|y ls]]; simpl; congruence. Qed.

Lemma str_join_crlf ls : str_join crlf ls = str_join (str1 "010") (crlf_lines ls).
Proof.
  induction ls as [|x ls IH]; [reflexivity|]. destruct ls as [|y ls]; [reflexivity|].
  change (crlf_lines (x :: y :: ls)) with ((x ++ str1 "013") :: crlf_lines (y :: ls)).
  rewrite (str_join_cons _ x), (str_join_cons _ (x ++ _)), <- IH
    by (discriminate || (apply crlf_lines_nonempty; discriminate)).
  now rewrite <- string_app_assoc.
Qed.

Lemma crlf_lines_cleanup ls : map _cleanupLine (crlf_lines ls) = map _cleanupLine ls.
Proof.
  induction ls as [|x ls IH]; [reflexivity|]. destruct ls as [|y ls]; [reflexivity|].
  change (crlf_lines (x :: y :: ls)) with ((x ++ str1 "013") :: crlf_lines (y :: ls)).
  cbn [map]. rewrite IH. unfold _cleanupLine at 1, str1. now rewrite trim_snoc_ws.
Qed.

Lemma crlf_lines_no_lf ls :
  Forall (fun l => all_chars (fun c => negb (Ascii.eqb c "010")) l = true) ls ->
  Forall (fun l => all_chars (fun c => negb (Ascii.eqb c "010")) l = true) (crlf_lines ls).
Proof.
  induction ls as [|x ls IH]; intros Hf; [constructor|]. destruct ls as [|y ls]; [exact Hf|].
  inversion Hf as [|? ? Hx Hr]; subst.
  change (crlf_lines (x :: y :: ls)) with ((x ++ str1 "013") :: crlf_lines (y :: ls)).
  constructor; [now rewrite all_chars_app, Hx|exact (IH Hr)].
Qed.

(** C28: the demo reads a file with Windows line endings as it reads the
    same file with line feeds: [split("\n")] leaves a CR at the end of
    every line but the last, and [_cleanupLine] ([trim]) removes it
    before any test, so [main] returns the same result and prints the
    same messages. *)
Theorem demo_main_crlf ls d :
  Forall (fun l => all_chars (fun c => negb (Ascii.eqb c "010")) l = true) ls ->
  main (str_join crlf ls) d = main (str_join (str1 "010") ls) d.
Proof.
  intros Hf. destruct ls as [|x ls]; [reflexivity|].
  unfold main. rewrite str_join_crlf, !split_char_join;
    [|discriminate|exact Hf|apply crlf_lines_nonempty; discriminate|now apply crlf_lines_no_lf].
  unfold parse, st_bind.
  now rewrite (parse_lines_cleanup _ _ _ d (crlf_lines_cleanup (x :: ls))).
Qed.

Lemma demo_main_document_witness :
  doc_ok terminals_doc = true /\ one_line_each terminals_doc = true /\
  main (str_join (str1 "010"%char) (render terminals_doc)) (mkdemo []) =
    (Ok tt, mkdemo ["Header found"; "Terminals section found"; "End of file found"]).
Proof.
  assert (Hd : doc_ok terminals_doc = true) by (vm_compute; reflexivity).
  assert (Hl : one_line_each terminals_doc = true) by (vm_compute; reflexivity).
  split; [exact Hd|]. split; [exact Hl|].
  rewrite (demo_main_document terminals_doc Hd Hl). vm_compute. reflexivity.
Defined.

Lemma demo_main_crlf_witness :
  Forall (fun l => all_chars (fun c => negb (Ascii.eqb c "010")) l = true) (render terminals_doc) /\
  main (str_join crlf (render terminals_doc)) (mkdemo []) =
    (Ok tt, mkdemo ["Header found"; "Terminals section found"; "End of file found"]).
Proof.
  assert (Hf : Forall (fun l => all_chars (fun c => negb (Ascii.eqb c "010")) l = true)
                 (render terminals_doc)) by (vm_compute; repeat constructor).
  split; [exact Hf|]. rewrite (demo_main_crlf _ _ Hf). vm_compute. reflexivity.
Defined.

End Demo.
